(** * wldata: pak ordering, path normalisation, extraction check and merge

    A shallow embedding of [unpack_wl.py] (class [PakFile], [CaseFix],
    [delete_empty_dirs], [normalize_pak_files]) and of the [PakFile] class
    of [paksort.py], with the properties of the specification stated and
    settled against it.

    Conventions of the model.
    - Python [str] is [string]; the model is exact on ASCII text.  For
      code points above 127 Python's [\w], [\d] and [\s] accept more
      characters than the classes below, which only know ASCII.
    - A compiled [re.Pattern] is a value of [re]; matching is the usual
      backtracking search, written as a list of successes in priority
      order, so that the head of the list is the match Python reports.
    - A Python exception is a value of [exn]; a function that may raise
      returns a [result].
    - [int] is [Z].  A [float] is the rational it denotes ([Q]); the two
      float operations of the code ([int + 0.5] and comparison) are
      written out with binary64 rounding.
    - The external tool is a function from its command line to the lines
      it writes; [print], and the clock that only paces the progress
      lines of [extract], are left out. *)

From Stdlib Require Import String Ascii List ZArith QArith Lia Bool Arith.
From Stdlib Require Import DecimalString.
Import ListNotations.

Local Open Scope string_scope.
Local Open Scope list_scope.

(** ** Exceptions and results *)

Inductive exn : Type :=
| RuntimeError (msg : string)
| UnboundLocalError (var : string)
| OverflowError
| FileNotFoundError (path : string)
| NotADirectoryError (path : string)
| FileExistsError (path : string)
| IsADirectoryError (path : string)
| OSError (path : string)
| ShutilError (msg : string)
| TypeError
| RecursionError.

Inductive result (A : Type) : Type :=
| Ok (a : A)
| Raise (e : exn).

Arguments Ok {A} a.
Arguments Raise {A} e.

Definition bind {A B : Type} (r : result A) (k : A -> result B) : result B :=
  match r with
  | Ok a => k a
  | Raise e => Raise e
  end.

Notation "x <- r ;; k" := (bind r (fun x => k))
  (at level 61, r at next level, right associativity).

(** ** Characters and character classes *)

Definition nl : ascii := ascii_of_nat 10.

Definition in_range (lo hi : nat) (c : ascii) : bool :=
  let n := nat_of_ascii c in (lo <=? n)%nat && (n <=? hi)%nat.

(** [\d] *)
Definition is_digit (c : ascii) : bool := in_range 48 57 c.

(** [\w] : letters, digits and the underscore *)
Definition is_word (c : ascii) : bool :=
  in_range 48 57 c || in_range 65 90 c || in_range 97 122 c
  || Ascii.eqb c "_".

(** [\s] : space, \t \n \v \f \r and the separators 28..31 *)
Definition is_space (c : ascii) : bool :=
  Ascii.eqb c " " || in_range 9 13 c || in_range 28 31 c.

(** [.] without DOTALL: everything but the line feed *)
Definition is_any (c : ascii) : bool := negb (Ascii.eqb c nl).

(** [[/\\]] *)
Definition is_slash (c : ascii) : bool :=
  Ascii.eqb c "/" || Ascii.eqb c "\".

(** ** Regular expressions *)

Module Re.

(** The fragment of Python's [re] syntax that the patterns of the two
    scripts use.  [Rep g n c] is a one-character class [c] repeated at
    least [n] times, greedy ([c*], [c+]) when [g] is true and lazy
    ([c*?]) otherwise; [Grp] is a capturing group, [Opt] is the greedy
    [?]. *)
Inductive re : Type :=
| Lit (s : string)
| Chr (c : ascii -> bool)
| Rep (greedy : bool) (min : nat) (c : ascii -> bool)
| Grp (name : string) (r : re)
| Opt (r : re)
| Seq (r1 r2 : re)
| Bol
| Eol.

Definition caps : Type := list (string * string).

(** One way of matching: the text consumed, what is left of the
    subject, and the groups that took part. *)
Definition hit : Type := (string * string * caps)%type.

Fixpoint strip_prefix (p s : string) : option string :=
  match p, s with
  | EmptyString, _ => Some s
  | String a p', String b s' =>
      if Ascii.eqb a b then strip_prefix p' s' else None
  | String _ _, EmptyString => None
  end.

(** All ways of cutting a run of [c]-characters off the front of [s],
    shortest first. *)
Fixpoint splits (c : ascii -> bool) (s : string) : list (string * string) :=
  (EmptyString, s) ::
  match s with
  | String a s' =>
      if c a
      then map (fun pr => (String a (fst pr), snd pr)) (splits c s')
      else []
  | EmptyString => []
  end.

Definition long_enough (min : nat) (pr : string * string) : bool :=
  (min <=? String.length (fst pr))%nat.

Definition rep_hits (greedy : bool) (min : nat) (c : ascii -> bool)
           (s : string) : list hit :=
  let l := filter (long_enough min) (splits c s) in
  map (fun pr => (fst pr, snd pr, @nil (string * string)))
      (if greedy then rev l else l).

(** [$] without MULTILINE: at the end, or before a final line feed. *)
Definition at_eol (s : string) : bool :=
  match s with
  | EmptyString => true
  | String c EmptyString => Ascii.eqb c nl
  | _ => false
  end.

Definition is_empty (s : string) : bool :=
  match s with EmptyString => true | _ => false end.

(** [run r start s]: every way [r] matches at the front of [s], the
    preferred one first.  [start] says whether the front of [s] is the
    beginning of the subject. *)
Fixpoint run (r : re) (start : bool) (s : string) : list hit :=
  match r with
  | Lit p =>
      match strip_prefix p s with
      | Some rest => [(p, rest, [])]
      | None => []
      end
  | Chr c =>
      match s with
      | String a rest => if c a then [(String a EmptyString, rest, [])] else []
      | EmptyString => []
      end
  | Rep g n c => rep_hits g n c s
  | Grp name r1 =>
      map (fun h : hit =>
             let '(m, rest, cs) := h in (m, rest, (name, m) :: cs))
          (run r1 start s)
  | Opt r1 => run r1 start s ++ [(EmptyString, s, [])]
  | Seq r1 r2 =>
      flat_map
        (fun h1 : hit =>
           let '(m1, rest1, cs1) := h1 in
           map (fun h2 : hit =>
                  let '(m2, rest2, cs2) := h2 in
                  ((m1 ++ m2)%string, rest2, cs2 ++ cs1))
               (run r2 (start && is_empty m1) rest1))
        (run r1 start s)
  | Bol => if start then [(EmptyString, s, [])] else []
  | Eol => if at_eol s then [(EmptyString, s, [])] else []
  end.

(** A match object: the text of group 0 and the named groups. *)
Record mobj : Type := MObj { whole : string; groups : caps }.

Fixpoint assoc (name : string) (cs : caps) : option string :=
  match cs with
  | [] => None
  | (k, v) :: cs' => if String.eqb k name then Some v else assoc name cs'
  end.

(** [m.group(name)]; [None] when the group took no part. *)
Definition group (m : mobj) (name : string) : option string :=
  assoc name (groups m).

Definition first_hit (l : list hit) : option mobj :=
  match l with
  | (m, _, cs) :: _ => Some (MObj m cs)
  | [] => None
  end.

(** [pattern.match(s)] *)
Definition re_match (r : re) (s : string) : option mobj :=
  first_hit (run r true s).

(** [pattern.search(s)]: the leftmost position with a match. *)
Fixpoint search_from (r : re) (start : bool) (s : string) : option mobj :=
  match first_hit (run r start s) with
  | Some m => Some m
  | None =>
      match s with
      | String _ s' => search_from r false s'
      | EmptyString => None
      end
  end.

Definition re_search (r : re) (s : string) : option mobj :=
  search_from r true s.

(** [re.sub(pattern, repl, s)] for a pattern that cannot match the empty
    string: copy [s], replacing each leftmost match and resuming behind
    it.  [skip] counts the characters of the current match still to be
    dropped. *)
Fixpoint sub_from (r : re) (repl : mobj -> string) (start : bool)
         (skip : nat) (s : string) : string :=
  match skip with
  | S k =>
      match s with
      | String _ s' => sub_from r repl false k s'
      | EmptyString => EmptyString
      end
  | O =>
      match first_hit (run r start s) with
      | Some m =>
          match String.length (whole m), s with
          | S k, String _ s' => (repl m ++ sub_from r repl false k s')%string
          | O, String a s' =>
              (repl m ++ String a (sub_from r repl false 0 s'))%string
          | _, EmptyString => repl m
          end
      | None =>
          match s with
          | String a s' => String a (sub_from r repl false 0 s')
          | EmptyString => EmptyString
          end
      end
  end.

Definition re_sub (r : re) (repl : mobj -> string) (s : string) : string :=
  sub_from r repl true 0 s.

(** The same search with the backtracking written out: [mrun r start s k]
    is the first way of matching [r], in the order of [run], that the
    continuation [k] accepts. *)
Fixpoint first_some {A B : Type} (k : A -> option B) (l : list A)
  : option B :=
  match l with
  | [] => None
  | x :: l' =>
      match k x with
      | Some y => Some y
      | None => first_some k l'
      end
  end.

Fixpoint greedy {B : Type} (c : ascii -> bool) (s : string)
         (k : string -> string -> option B) : option B :=
  match s with
  | String a s' =>
      if c a
      then match greedy c s' (fun p r => k (String a p) r) with
           | Some y => Some y
           | None => k EmptyString s
           end
      else k EmptyString s
  | EmptyString => k EmptyString EmptyString
  end.

Fixpoint lazy {B : Type} (c : ascii -> bool) (s : string)
         (k : string -> string -> option B) : option B :=
  match k EmptyString s with
  | Some y => Some y
  | None =>
      match s with
      | String a s' =>
          if c a then lazy c s' (fun p r => k (String a p) r) else None
      | EmptyString => None
      end
  end.

Fixpoint mrun {B : Type} (r : re) (start : bool) (s : string)
         (k : hit -> option B) : option B :=
  match r with
  | Lit p =>
      match strip_prefix p s with
      | Some rest => k (p, rest, [])
      | None => None
      end
  | Chr c =>
      match s with
      | String a rest =>
          if c a then k (String a EmptyString, rest, []) else None
      | EmptyString => None
      end
  | Rep g n c =>
      (if g then greedy c s else lazy c s)
        (fun p r => if long_enough n (p, r) then k (p, r, []) else None)
  | Grp name r1 =>
      mrun r1 start s
           (fun h : hit =>
              let '(m, rest, cs) := h in k (m, rest, (name, m) :: cs))
  | Opt r1 =>
      match mrun r1 start s k with
      | Some y => Some y
      | None => k (EmptyString, s, [])
      end
  | Seq r1 r2 =>
      mrun r1 start s
           (fun h1 : hit =>
              let '(m1, rest1, cs1) := h1 in
              mrun r2 (start && is_empty m1) rest1
                   (fun h2 : hit =>
                      let '(m2, rest2, cs2) := h2 in
                      k ((m1 ++ m2)%string, rest2, cs2 ++ cs1)))
  | Bol => if start then k (EmptyString, s, []) else None
  | Eol => if at_eol s then k (EmptyString, s, []) else None
  end.

Definition mobj_of (h : hit) : option mobj :=
  let '(m, _, cs) := h in Some (MObj m cs).

(** Every character of [s] is in the class [c]. *)
Fixpoint all_in (c : ascii -> bool) (s : string) : bool :=
  match s with
  | EmptyString => true
  | String a s' => c a && all_in c s'
  end.

(** [s] begins with a character of the class [c]. *)
Definition starts_in (c : ascii -> bool) (s : string) : bool :=
  match s with
  | String a _ => c a
  | EmptyString => false
  end.

(** [p in s] *)
Fixpoint contains (p s : string) : bool :=
  match strip_prefix p s with
  | Some _ => true
  | None =>
      match s with
      | String _ s' => contains p s'
      | EmptyString => false
      end
  end.

End Re.

Import Re.

Infix "+>" := Seq (at level 60, right associativity).

(** ** Numbers *)

Local Open Scope Z_scope.

Definition digit_val (c : ascii) : Z := Z.of_nat (nat_of_ascii c) - 48.

Fixpoint int_acc (acc : Z) (s : string) : Z :=
  match s with
  | EmptyString => acc
  | String c s' => int_acc (10 * acc + digit_val c) s'
  end.

(** [int(s)] on a string of decimal digits. *)
Definition int (s : string) : Z := int_acc 0 s.

(** [str(n)] *)
Definition str_nat (n : nat) : string := NilEmpty.string_of_uint (Nat.to_uint n).

(** The value of [float(n)] for an int [n >= 0]: [n] rounded to 53
    significant bits, ties to even. *)
Definition round53 (n : Z) : Z :=
  let k := Z.log2 n in
  if k <? 53 then n
  else
    let sh := k - 52 in
    let q := Z.shiftr n sh in
    let r := n - Z.shiftl q sh in
    let half := Z.shiftl 1 (sh - 1) in
    let q' := if (half <? r) || ((r =? half) && Z.odd q) then q + 1 else q in
    Z.shiftl q' sh.

(** [n + 0.5] for an int [n >= 0], as binary64 computes it: [n] becomes
    the float [round53 n] ([OverflowError] from 2^1024 on); below 2^52 the
    sum is exact, between 2^52 and 2^53 it is a tie that goes to the even
    neighbour, and above it is absorbed. *)
Definition int_add_half (n : Z) : result Q :=
  let f := round53 n in
  if 2 ^ 1024 <=? f then Raise OverflowError
  else if f <? 2 ^ 52 then Ok (inject_Z f + (1 # 2))%Q
  else if f <? 2 ^ 53 then Ok (inject_Z (if Z.even f then f else f + 1))
  else Ok (inject_Z f).

Definition Qlt_bool (x y : Q) : bool :=
  match (x ?= y)%Q with Lt => true | _ => false end.

(** [(a1, b1) < (a2, b2)] on Python tuples: the first position where the
    two differ decides. *)
Definition tuple_lt (a b : Q * Z) : bool :=
  if Qeq_bool (fst a) (fst b) then (snd a <? snd b)%Z
  else Qlt_bool (fst a) (fst b).

(** ** [unpack_wl.py]: class [PakFile], parsing and ordering *)

Definition re_pak : re :=
  Bol +> Opt (Grp "dir_prefix" (Rep true 0 is_any +> Chr is_slash))
  +> Lit "pakchunk" +> Grp "datagroup" (Rep true 1 is_digit)
  +> Opt (Grp "optional" (Lit "optional"))
  +> Lit "-WindowsNoEditor"
  +> Opt (Grp "4" (Lit "_" +> Grp "patchnum" (Rep true 1 is_digit) +> Lit "_P"))
  +> Lit ".pak" +> Eol.

Definition audio_nums : list Z := [2; 3; 48; 49; 50; 51; 52; 53]%Z.

Record PakFile : Type := mkPakFile {
  filename : string;
  paknum : Q;
  patchnum : Z;
  size : Z
}.

(** [PakFile.__init__]; [stat] stands for [os.stat(...).st_size]. *)
Definition PakFile_init (stat : string -> result Z) (fn : string)
  : result PakFile :=
  match re_match re_pak fn with
  | Some m =>
      match group m "datagroup" with
      | None => Raise TypeError
      | Some dg =>
          pk <- (match group m "optional" with
                 | Some _ => int_add_half (int dg)
                 | None => Ok (inject_Z (int dg))
                 end) ;;
          let pn := match group m "patchnum" with
                    | Some p => int p
                    | None => (-1)%Z
                    end in
          sz <- stat fn ;;
          Ok (mkPakFile fn pk pn sz)
      end
  | None => Raise (RuntimeError ("Unknown pak file: " ++ fn)%string)
  end.

(** [x in audio_nums]: some element equal to [x] as a number. *)
Definition is_audio_only (pf : PakFile) : bool :=
  existsb (fun a => Qeq_bool (paknum pf) (inject_Z a)) audio_nums.

(** [PakFile.__lt__] *)
Definition PakFile_lt (a b : PakFile) : bool :=
  tuple_lt (paknum a, patchnum a) (paknum b, patchnum b).

(** What the file name says, read off the groups of [re_pak]: the number
    after [pakchunk], whether [optional] follows it, and the number of
    the patch suffix when there is one. *)
Definition datagroup_of (fn : string) : option Z :=
  match re_match re_pak fn with
  | Some m => option_map int (group m "datagroup")
  | None => None
  end.

Definition optional_of (fn : string) : bool :=
  match re_match re_pak fn with
  | Some m => match group m "optional" with Some _ => true | None => false end
  | None => false
  end.

Definition patch_of (fn : string) : option Z :=
  match re_match re_pak fn with
  | Some m => option_map int (group m "patchnum")
  | None => None
  end.

(** ** [paksort.py]: its own [PakFile] *)

Module Paksort.

Definition pak_re : re :=
  Bol +> Lit "pakchunk" +> Grp "1" (Rep true 1 is_digit)
  +> Opt (Grp "2" (Lit "optional"))
  +> Lit "-WindowsNoEditor"
  +> Opt (Grp "3" (Lit "_" +> Grp "4" (Rep true 1 is_digit) +> Lit "_P"))
  +> Lit ".pak" +> Eol.

(** The field [order_num] is left out: nothing reads it. *)
Record PakFile : Type := mkPakFile {
  filename : string;
  paknum : Q;
  patchnum : Z
}.

Definition truthy (o : option string) : bool :=
  match o with
  | Some (String _ _) => true
  | _ => false
  end.

Definition PakFile_init (fn : string) : result PakFile :=
  match re_match pak_re fn with
  | Some m =>
      match group m "1" with
      | None => Raise TypeError
      | Some dg =>
          pk <- (if truthy (group m "2") then int_add_half (int dg)
                 else Ok (inject_Z (int dg))) ;;
          pn <- (if truthy (group m "3")
                 then match group m "4" with
                      | Some p => Ok (int p + 1)%Z
                      | None => Raise TypeError
                      end
                 else Ok 0%Z) ;;
          Ok (mkPakFile fn pk pn)
      end
  | None => Raise (RuntimeError ("Unknown pak file: " ++ fn)%string)
  end.

Definition PakFile_lt (a b : PakFile) : bool :=
  tuple_lt (paknum a, patchnum a) (paknum b, patchnum b).

Definition datagroup_of (fn : string) : option Z :=
  match re_match pak_re fn with
  | Some m => option_map int (group m "1")
  | None => None
  end.

Definition optional_of (fn : string) : bool :=
  match re_match pak_re fn with
  | Some m => truthy (group m "2")
  | None => false
  end.

Definition patch_of (fn : string) : option Z :=
  match re_match pak_re fn with
  | Some m => if truthy (group m "3") then option_map int (group m "4")
              else None
  | None => None
  end.

End Paksort.

(** ** [unpack_wl.py]: class [CaseFix] *)

(** [dir_name], [from_name] and [to_name] are spliced into the pattern and
    into the replacement template; they are taken as literal text, which
    is what they are as long as they are made of letters, digits, [_]
    and [/], as in the one rule of [hardcoded_path_fixes]. *)
Record CaseFix : Type := mkCaseFix {
  dir_name : string;
  from_name : string;
  to_name : string;
  directory : bool
}.

Definition re_from (self : CaseFix) : re :=
  if directory self
  then Bol +> Lit (dir_name self ++ "/" ++ from_name self ++ "/")%string
       +> Grp "remaining" (Rep true 0 is_any) +> Eol
  else Bol +> Lit (dir_name self ++ "/" ++ from_name self ++ ".")%string
       +> Grp "ext" (Rep true 1 is_word) +> Eol.

Definition group_or_empty (m : mobj) (name : string) : string :=
  match group m name with Some v => v | None => EmptyString end.

Definition re_to (self : CaseFix) (m : mobj) : string :=
  if directory self
  then (dir_name self ++ "/" ++ to_name self ++ "/"
        ++ group_or_empty m "remaining")%string
  else (dir_name self ++ "/" ++ to_name self ++ "."
        ++ group_or_empty m "ext")%string.

(** [CaseFix.apply] *)
Definition apply (self : CaseFix) (fn : string) : string :=
  re_sub (re_from self) (re_to self) fn.

(** ** [unpack_wl.py]: the patterns and tables of [PakFile] *)

Definition re_unpack_mount : re :=
  Lit "Display: Mount point " +> Grp "mountpoint" (Rep true 0 is_any) +> Eol.

Definition dq : string := String (ascii_of_nat 34) EmptyString.

Definition re_unpack_file : re :=
  Lit ("Display: " ++ dq)%string +> Grp "filename" (Rep true 0 is_any)
  +> Lit (dq ++ " offset")%string.

(** What the two normalising patterns share: the group [firstpart], a
    run of word characters, then the marker, then the group [lastpart],
    the rest of the line, then white space up to the end. *)
Definition re_wrapped (marker : string) : re :=
  Grp "firstpart" (Rep true 1 is_word) +> Lit marker
  +> Grp "lastpart" (Rep true 0 is_any) +> Rep true 0 is_space +> Eol.

Definition re_junk : re := Grp "junk" (Rep true 0 is_any +> Lit "/").

Definition re_normalize_plugins : re :=
  Bol +> re_wrapped "/Plugins/".

Definition re_normalize_content : re :=
  Bol +> Opt re_junk +> re_wrapped "/Content/".

Definition re_extract : re :=
  Lit ("Display: Extracted " ++ dq)%string
  +> Grp "filename" (Rep false 0 is_any) +> Lit (dq ++ " to ")%string.

(** A [dict[str, str]]: keys are unique and keep their insertion order. *)
Definition dict : Type := list (string * string).

Fixpoint dict_get (k : string) (d : dict) : option string :=
  match d with
  | [] => None
  | (k', v) :: d' => if String.eqb k' k then Some v else dict_get k d'
  end.

(** [d[k] = v] *)
Fixpoint dict_set (k v : string) (d : dict) : dict :=
  match d with
  | [] => [(k, v)]
  | (k', v') :: d' =>
      if String.eqb k' k then (k, v) :: d' else (k', v') :: dict_set k v d'
  end.

Definition content_firstpart_overrides : dict :=
  [("OakGame", "Game"); ("Wwise", "WwiseEditor")].

Definition hardcoded_path_fixes : list CaseFix :=
  [mkCaseFix "Game/Maps/Dungeons/Boss/Climb" "D_Boss_Climb_P"
             "D_Boss_Climb_p" false].

(** ** [PakFile.get_filename_mapping] *)

(** The plugin step of the loop body: [real_filename] after the first
    [if]. *)
Definition strip_plugins (real_filename : string) : string :=
  match re_match re_normalize_plugins real_filename with
  | Some pluginmatch => group_or_empty pluginmatch "lastpart"
  | None => real_filename
  end.

(** [firstpart] after the look-up in [content_firstpart_overrides]. *)
Definition effective_root (firstpart : string) : string :=
  match dict_get firstpart content_firstpart_overrides with
  | Some o => o
  | None => firstpart
  end.

(** The content step: [real_filename] after the second [if]. *)
Definition rewrite_content (real_filename : string) : string :=
  match re_match re_normalize_content real_filename with
  | Some contentmatch =>
      let firstpart := group_or_empty contentmatch "firstpart" in
      let lastpart := group_or_empty contentmatch "lastpart" in
      let firstpart := effective_root firstpart in
      (firstpart ++ "/" ++ lastpart)%string
  | None => real_filename
  end.

Definition apply_fixes (real_filename : string) : string :=
  fold_left (fun f fx => apply fx f) hardcoded_path_fixes real_filename.

(** The three steps in the order of the loop body: both [if]s are run,
    one after the other, then the fixes. *)
Definition normalize (real_filename : string) : string :=
  apply_fixes (rewrite_content (strip_plugins real_filename)).

(** The state of the loop: the local [mountpoint], [None] while nothing
    has been assigned to it, and the mapping built so far. *)
Definition lister_state : Type := (option string * dict)%type.

Definition set_mountpoint (mountpoint : string) : string :=
  match strip_prefix "../../../" mountpoint with
  | Some rest => rest
  | None => if String.eqb mountpoint "/" then EmptyString else mountpoint
  end.

(** One turn of the loop.  Reading [mountpoint] before any assignment
    raises [UnboundLocalError]; once assigned it is a [str], so the test
    [mountpoint is None] is never true. *)
Definition lister_step (st : lister_state) (line : string)
  : result lister_state :=
  let '(mountpoint, filename_mapping) := st in
  match re_search re_unpack_mount line with
  | Some m => Ok (Some (set_mountpoint (group_or_empty m "mountpoint")),
                  filename_mapping)
  | None =>
      match re_search re_unpack_file line with
      | Some m =>
          match mountpoint with
          | None => Raise (UnboundLocalError "mountpoint")
          | Some mp =>
              let fname := group_or_empty m "filename" in
              let real_filename := normalize (mp ++ fname)%string in
              Ok (mountpoint, dict_set fname real_filename filename_mapping)
          end
      | None => Ok st
      end
  end.

Fixpoint lister_loop (st : lister_state) (lines : list string)
  : result lister_state :=
  match lines with
  | [] => Ok st
  | line :: rest => st' <- lister_step st line ;; lister_loop st' rest
  end.

(** [launch] stands for [launch_unrealpak]: from the command line to the
    lines of the tool's standard output, each as [readline] returns it,
    or the [RuntimeError] of a tool that cannot be started. *)
Definition get_filename_mapping (launch : list string -> result (list string))
           (self : PakFile) (crypto : string) : result dict :=
  lines <- launch [filename self; "-list"; ("-cryptokeys=" ++ crypto)%string] ;;
  st <- lister_loop (None, []) lines ;;
  Ok (snd st).

(** The two shapes of line the loop tells apart; a line in which both
    patterns are found counts as a mount line, as the [if]/[elif] has it. *)
Definition is_mount_line (line : string) : bool :=
  match re_search re_unpack_mount line with Some _ => true | None => false end.

Definition is_file_line (line : string) : bool :=
  negb (is_mount_line line)
  && match re_search re_unpack_file line with Some _ => true | None => false end.

(** Lines as the tool writes them in listing mode. *)
Definition mount_line (mountpoint : string) : string :=
  ("LogPakFile: Display: Mount point " ++ mountpoint
   ++ String nl EmptyString)%string.

Definition file_line (name : string) : string :=
  ("LogPakFile: Display: " ++ dq ++ name ++ dq
   ++ " offset: 0, size: 1 bytes" ++ String nl EmptyString)%string.

(** ** The file system

    A tree of directories and regular files, on one device, without
    symbolic links or permissions, with POSIX path names ([os.path] is
    [posixpath], [os.path.sep] is [/]).  The functions below are the
    [os], [os.path] and [shutil] calls of [delete_empty_dirs],
    [normalize_pak_files] and [PakFile.extract]. *)

#[warnings="-register-all"]
Inductive node : Type :=
| File (data : string)
| Dir (entries : list (string * node)).

Record FS : Type := mkFS { root : node; cwd : list string }.

Fixpoint find_entry (c : string) (es : list (string * node)) : option node :=
  match es with
  | [] => None
  | (k, x) :: es' => if String.eqb k c then Some x else find_entry c es'
  end.

Fixpoint get (n : node) (p : list string) : option node :=
  match p with
  | [] => Some n
  | c :: p' =>
      match n with
      | Dir es =>
          match find_entry c es with
          | Some x => get x p'
          | None => None
          end
      | File _ => None
      end
  end.

Fixpoint drop_entry (c : string) (es : list (string * node))
  : list (string * node) :=
  match es with
  | [] => []
  | (k, x) :: es' =>
      if String.eqb k c then drop_entry c es' else (k, x) :: drop_entry c es'
  end.

(** The names of a directory are distinct; [drop_entry] removes every
    entry of a name so that this need not be assumed of a [node]. *)
Fixpoint alter_entry (f : option node -> option node) (c : string)
         (es : list (string * node)) : list (string * node) :=
  match es with
  | [] => match f None with Some y => [(c, y)] | None => [] end
  | (k, x) :: es' =>
      if String.eqb k c
      then match f (Some x) with
           | Some y => (k, y) :: es'
           | None => drop_entry c es'
           end
      else (k, x) :: alter_entry f c es'
  end.

(** Change, create or remove the entry at path [p]. *)
Fixpoint alter_at (f : option node -> option node) (p : list string)
         (n : node) : node :=
  match p with
  | [] => n
  | c :: p' =>
      match n with
      | File _ => n
      | Dir es =>
          match p' with
          | [] => Dir (alter_entry f c es)
          | _ :: _ => Dir (alter_entry (option_map (alter_at f p')) c es)
          end
      end
  end.

Definition del (p : list string) (n : node) : node :=
  alter_at (fun _ => None) p n.

Definition put (p : list string) (x : node) (n : node) : node :=
  alter_at (fun _ => Some x) p n.

Definition is_dir (o : option node) : bool :=
  match o with Some (Dir _) => true | _ => false end.

Definition is_some {A : Type} (o : option A) : bool :=
  match o with Some _ => true | None => false end.

Definition slash : ascii := "/"%char.

Fixpoint split_slash (s : string) : list string :=
  match s with
  | EmptyString => [EmptyString]
  | String c s' =>
      if Ascii.eqb c slash then EmptyString :: split_slash s'
      else match split_slash s' with
           | h :: t => String c h :: t
           | [] => [String c EmptyString]
           end
  end.

(** Path lookup: follow the components from [cur]; every component is
    looked up in a directory.  The result is the canonical path; its last
    name may be missing from its directory. *)
Fixpoint walk (rt : node) (cur : list string) (comps : list string)
  : option (list string) :=
  match comps with
  | [] => Some cur
  | c :: cs =>
      if is_dir (get rt cur) then
        if String.eqb c "" || String.eqb c "." then walk rt cur cs
        else if String.eqb c ".." then walk rt (removelast cur) cs
        else walk rt (cur ++ [c]) cs
      else None
  end.

Definition is_abs (path : string) : bool :=
  match path with String c _ => Ascii.eqb c slash | EmptyString => false end.

Definition resolve (fs : FS) (path : string) : option (list string) :=
  if is_empty path then None
  else walk (root fs) (if is_abs path then [] else cwd fs) (split_slash path).

Definition lookup (fs : FS) (path : string) : option node :=
  match resolve fs path with
  | Some p => get (root fs) p
  | None => None
  end.

Definition os_path_exists (path : string) (fs : FS) : bool :=
  is_some (lookup fs path).

Definition os_path_isdir (path : string) (fs : FS) : bool :=
  is_dir (lookup fs path).

Fixpoint ends_with_slash (s : string) : bool :=
  match s with
  | EmptyString => false
  | String c EmptyString => Ascii.eqb c slash
  | String _ s' => ends_with_slash s'
  end.

(** [os.path.join(a, b)] *)
Definition os_path_join (a b : string) : string :=
  if is_abs b then b
  else if is_empty a || ends_with_slash a then (a ++ b)%string
  else (a ++ "/" ++ b)%string.

Fixpoint contains_slash (s : string) : bool :=
  match s with
  | EmptyString => false
  | String c s' => Ascii.eqb c slash || contains_slash s'
  end.

(** [p[:p.rfind('/') + 1]] and [p[p.rfind('/') + 1:]] *)
Fixpoint head_part (s : string) : string :=
  match s with
  | EmptyString => EmptyString
  | String c s' => if contains_slash s then String c (head_part s') else EmptyString
  end.

Fixpoint tail_part (s : string) : string :=
  match s with
  | EmptyString => EmptyString
  | String c s' => if contains_slash s then tail_part s' else s
  end.

Fixpoint rstrip_slash (s : string) : string :=
  match s with
  | EmptyString => EmptyString
  | String c s' =>
      let r := rstrip_slash s' in
      if Ascii.eqb c slash && is_empty r then EmptyString else String c r
  end.

(** [os.path.dirname] *)
Definition os_path_dirname (p : string) : string :=
  let head := head_part p in
  if is_empty (rstrip_slash head) then head else rstrip_slash head.

(** [os.path.basename] *)
Definition os_path_basename (p : string) : string := tail_part p.

(** [os.listdir] *)
Definition os_listdir (path : string) (fs : FS) : result (list string) :=
  match lookup fs path with
  | Some (Dir es) => Ok (map fst es)
  | Some (File _) => Raise (NotADirectoryError path)
  | None => Raise (FileNotFoundError path)
  end.

(** [os.rmdir] *)
Definition os_rmdir (path : string) (fs : FS) : result FS :=
  match resolve fs path with
  | Some p =>
      match get (root fs) p with
      | Some (Dir []) =>
          match p with
          | [] => Raise (OSError path)
          | _ :: _ => Ok (mkFS (del p (root fs)) (cwd fs))
          end
      | Some (Dir (_ :: _)) => Raise (OSError path)
      | Some (File _) => Raise (NotADirectoryError path)
      | None => Raise (FileNotFoundError path)
      end
  | None => Raise (FileNotFoundError path)
  end.

(** [os.makedirs(name, exist_ok=True)]: every missing directory on the
    way is created; a regular file on the way is an error. *)
Fixpoint mkdirs (name : string) (rt : node) (cur : list string)
         (comps : list string) : result node :=
  match comps with
  | [] =>
      if is_dir (get rt cur) then Ok rt else Raise (FileExistsError name)
  | c :: cs =>
      match get rt cur with
      | Some (Dir _) =>
          if String.eqb c "" || String.eqb c "." then mkdirs name rt cur cs
          else if String.eqb c ".." then mkdirs name rt (removelast cur) cs
          else
            match get rt (cur ++ [c]) with
            | Some _ => mkdirs name rt (cur ++ [c]) cs
            | None => mkdirs name (put (cur ++ [c]) (Dir []) rt) (cur ++ [c]) cs
            end
      | Some (File _) => Raise (NotADirectoryError name)
      | None => Raise (FileNotFoundError name)
      end
  end.

Definition os_makedirs (name : string) (fs : FS) : result FS :=
  if is_empty name then Raise (FileNotFoundError name)
  else
    rt <- mkdirs name (root fs) (if is_abs name then [] else cwd fs)
                 (split_slash name) ;;
    Ok (mkFS rt (cwd fs)).

Fixpoint is_prefix (p q : list string) : bool :=
  match p, q with
  | [], _ => true
  | a :: p', b :: q' => String.eqb a b && is_prefix p' q'
  | _ :: _, [] => false
  end.

Definition path_eqb (p q : list string) : bool :=
  is_prefix p q && is_prefix q p.

(** [os.rename] *)
Definition os_rename (src dst : string) (fs : FS) : result FS :=
  match resolve fs src, resolve fs dst with
  | Some ps, Some pd =>
      match get (root fs) ps with
      | None => Raise (FileNotFoundError src)
      | Some x =>
          if path_eqb ps pd then Ok fs
          else if is_prefix ps pd then Raise (OSError src)
          else
            match get (root fs) pd, x with
            | Some (Dir (_ :: _)), Dir _ => Raise (OSError dst)
            | Some (Dir _), File _ => Raise (IsADirectoryError dst)
            | Some (File _), Dir _ => Raise (NotADirectoryError dst)
            | _, _ => Ok (mkFS (put pd x (del ps (root fs))) (cwd fs))
            end
      end
  | _, _ => Raise (FileNotFoundError src)
  end.

Definition samefile (a b : string) (fs : FS) : bool :=
  match resolve fs a, resolve fs b with
  | Some pa, Some pb =>
      path_eqb pa pb && is_some (get (root fs) pa)
  | _, _ => false
  end.

(** [shutil.move]; on one device the copy that follows a failed
    [os.rename] cannot do better than the rename did. *)
Definition shutil_move (src dst : string) (fs : FS) : result FS :=
  if os_path_isdir dst fs then
    if samefile src dst fs then os_rename src dst fs
    else
      let real_dst := os_path_join dst (os_path_basename (rstrip_slash src)) in
      if os_path_exists real_dst fs
      then Raise (ShutilError ("Destination path '" ++ real_dst
                               ++ "' already exists")%string)
      else os_rename src real_dst fs
  else os_rename src dst fs.

(** ** [PakFile.extract]

    The calls of [print] are left out, and with them [time.time()] and
    [last_report_time], which only decide when a progress line is
    printed. *)

Definition truthy {A : Type} (o : option (list A)) : bool :=
  match o with Some (_ :: _) => true | _ => false end.

Definition mem (x : string) (l : list string) : bool :=
  existsb (String.eqb x) l.

Definition not_in (x : string) (o : option (list string)) : bool :=
  match o with Some l => negb (mem x l) | None => true end.

(** The [for] loop: the number of confirmations read, or the error of an
    unexpected file name. *)
Fixpoint extract_loop (expected_filenames : option (list string))
         (files_unpacked : nat) (lines : list string) : result nat :=
  match lines with
  | [] => Ok files_unpacked
  | line :: rest =>
      match re_search re_extract line with
      | Some m =>
          let fname := group_or_empty m "filename" in
          if truthy expected_filenames && not_in fname expected_filenames
          then Raise (RuntimeError ("Unexpected filename extracted: "
                                    ++ fname)%string)
          else extract_loop expected_filenames (S files_unpacked) rest
      | None => extract_loop expected_filenames files_unpacked rest
      end
  end.

Definition count_mismatch (total_files files_unpacked : nat) : exn :=
  RuntimeError ("Expected " ++ str_nat total_files ++ " files, only found "
                ++ str_nat files_unpacked)%string.

(** What follows the loop: the check of the count. *)
Definition check_count (total_files : option nat) (files_unpacked : nat)
  : result unit :=
  match total_files with
  | Some (S _ as t) =>
      if negb (Nat.eqb files_unpacked t)
      then Raise (count_mismatch t files_unpacked)
      else Ok tt
  | _ => Ok tt
  end.

(** The body of [extract] from [files_unpacked = 0] on, over the lines
    the tool wrote. *)
Definition extract_lines (expected_filenames : option (list string))
           (lines : list string) : result unit :=
  let total_files :=
    if truthy expected_filenames
    then option_map (@List.length string) expected_filenames
    else None in
  files_unpacked <- extract_loop expected_filenames 0 lines ;;
  check_count total_files files_unpacked.

(** [launch] stands for [launch_unrealpak] in extraction mode: the lines
    the tool wrote and the file system it left. *)
Definition extract
           (launch : list string -> FS -> result (list string * FS))
           (self : PakFile) (destination crypto : string)
           (expected_filenames : option (list string)) (fs : FS)
  : result FS :=
  fs1 <- (if negb (os_path_exists destination fs)
          then os_makedirs destination fs else Ok fs) ;;
  out <- launch [filename self; "-extract"; destination;
                 ("-cryptokeys=" ++ crypto)%string] fs1 ;;
  _ <- extract_lines expected_filenames (fst out) ;;
  Ok (snd out).

(** The confirmation lines of the tool's output: those in which
    [re_extract] is found. *)
Definition is_confirmation (line : string) : bool :=
  is_some (re_search re_extract line).

Definition count_confirmed (lines : list string) : nat :=
  List.length (filter is_confirmation lines).

(** A confirmation line as the tool writes it. *)
Definition confirmation (name : string) : string :=
  ("LogPakFile: Display: Extracted " ++ dq ++ name ++ dq
   ++ " to C:/out/" ++ name ++ String nl EmptyString)%string.

(** ** [delete_empty_dirs] and [normalize_pak_files] *)

Fixpoint remove_name (x : string) (l : list string) : list string :=
  match l with
  | [] => []
  | y :: l' => if String.eqb y x then l' else y :: remove_name x l'
  end.

(** The [for] loop of [delete_empty_dirs]; [self] is the recursive
    call. *)
Fixpoint ded_loop (self : string -> FS -> result (bool * FS))
         (folder : string) (names : list string) (file_set : list string)
         (fs : FS) : result (list string * FS) :=
  match names with
  | [] => Ok (file_set, fs)
  | fname :: rest =>
      let full_filename := os_path_join folder fname in
      if negb (os_path_isdir full_filename fs)
      then ded_loop self folder rest file_set fs
      else
        r <- self full_filename fs ;;
        let '(deleted_root, fs') := r in
        ded_loop self folder rest
                 (if deleted_root then remove_name fname file_set else file_set)
                 fs'
  end.

(** [depth] bounds the nesting of the recursive calls, as the
    interpreter's recursion limit does. *)
Fixpoint delete_empty_dirs (depth : nat) (folder : string)
         (delete_root : bool) (fs : FS) : result (bool * FS) :=
  match depth with
  | O => Raise RecursionError
  | S depth' =>
      all_files <- os_listdir folder fs ;;
      r <- ded_loop (fun f => delete_empty_dirs depth' f true)
                    folder all_files all_files fs ;;
      let '(file_set, fs1) := r in
      if (List.length file_set =? 0)%nat && delete_root
      then fs2 <- os_rmdir folder fs1 ;; Ok (true, fs2)
      else Ok (false, fs1)
  end.

(** The body of the [for] loop of [normalize_pak_files]; with
    [os.path.sep] being [/], the two calls of [replace] change nothing. *)
Definition move_one (temp_folder final_folder : string)
           (item : string * string) (fs : FS) : result FS :=
  let '(temp_filename, final_filename) := item in
  let temp_filename_full := os_path_join temp_folder temp_filename in
  if os_path_exists temp_filename_full fs then
    let final_filename_full := os_path_join final_folder final_filename in
    let final_dirname := os_path_dirname final_filename_full in
    fs' <- os_makedirs final_dirname fs ;;
    shutil_move temp_filename_full final_filename_full fs'
  else Ok fs.

Fixpoint move_all (temp_folder final_folder : string)
         (items : dict) (fs : FS) : result FS :=
  match items with
  | [] => Ok fs
  | item :: rest =>
      fs' <- move_one temp_folder final_folder item fs ;;
      move_all temp_folder final_folder rest fs'
  end.

Definition normalize_pak_files (depth : nat)
           (temp_folder final_folder : string) (filename_mapping : dict)
           (fs : FS) : result FS :=
  fs1 <- move_all temp_folder final_folder filename_mapping fs ;;
  r <- delete_empty_dirs depth temp_folder true fs1 ;;
  if fst r then Ok (snd r)
  else Raise (RuntimeError ("Could not delete temporary folder "
                            ++ temp_folder)%string).

(** A raw name as the tool lists them: a relative path name whose first
    segment is a name, neither empty (so not [/...]) nor [.] nor [..]. *)
Definition first_segment (path : string) : string :=
  hd EmptyString (split_slash path).

Definition relative_name (path : string) : bool :=
  let c := first_segment path in
  negb (String.eqb c "" || String.eqb c "." || String.eqb c "..").

(** The raw name of an item of the mapping names nothing under the
    staging directory: the test of the loop of [normalize_pak_files]
    fails for it. *)
Definition absent (temp_folder : string) (fs : FS) (item : string * string)
  : Prop :=
  os_path_exists (os_path_join temp_folder (fst item)) fs = false.

(** * More of the two scripts *)

From Stdlib Require Import Permutation Sorted.

(** ** [sorted] and the main program of [paksort.py] *)

(** [sorted(l)] for elements compared with [lt]: Python's sort is stable
    and looks at the elements through [<] only; where [<] is a strict
    weak order these two facts determine the result, which the stable
    insertion sort below computes. *)
Fixpoint insert_by {A : Type} (lt : A -> A -> bool) (x : A) (l : list A)
  : list A :=
  match l with
  | [] => [x]
  | y :: l' => if lt x y then x :: l else y :: insert_by lt x l'
  end.

Definition sorted_by {A : Type} (lt : A -> A -> bool) (l : list A) : list A :=
  fold_left (fun acc x => insert_by lt x acc) l [].

(** [s.lstrip()], [s.rstrip()] and [s.strip()] *)
Fixpoint lstrip (s : string) : string :=
  match s with
  | String a s' => if is_space a then lstrip s' else s
  | EmptyString => EmptyString
  end.

Fixpoint rstrip (s : string) : string :=
  match s with
  | String a s' =>
      let r := rstrip s' in
      if is_space a && is_empty r then EmptyString else String a r
  | EmptyString => EmptyString
  end.

Definition strip (s : string) : string := rstrip (lstrip s).

Module PaksortMain.

(** The first loop of the main program: one [PakFile] for each line of
    the standard input. *)
Fixpoint read_files (lines : list string) : result (list Paksort.PakFile) :=
  match lines with
  | [] => Ok []
  | line :: rest =>
      pf <- Paksort.PakFile_init (strip line) ;;
      files <- read_files rest ;;
      Ok (pf :: files)
  end.

(** The main program: from the lines of the standard input to the names
    printed, one for each line of output. *)
Definition main (stdin : list string) : result (list string) :=
  files <- read_files stdin ;;
  Ok (map Paksort.filename (sorted_by Paksort.PakFile_lt files)).

End PaksortMain.

(** The order in which the main program of [unpack_wl.py] takes the
    archives: [for pakfile in sorted(all_pak_files)]. *)
Definition processing_order (all_pak_files : list PakFile) : list PakFile :=
  sorted_by PakFile_lt all_pak_files.

(** Neither of two archives is before the other. *)
Definition unordered {A : Type} (lt : A -> A -> bool) (a b : A) : bool :=
  negb (lt a b) && negb (lt b a).

(** ** The names the tool confirms *)

(** The file names of the confirmation lines, in the order of the
    output. *)
Fixpoint confirmed_names (lines : list string) : list string :=
  match lines with
  | [] => []
  | line :: rest =>
      match re_search re_extract line with
      | Some m => group_or_empty m "filename" :: confirmed_names rest
      | None => confirmed_names rest
      end
  end.

Definition unexpected (name : string) : exn :=
  RuntimeError ("Unexpected filename extracted: " ++ name)%string.

(** ** What a listing holds *)

(** No file line comes before the first mount line. *)
Fixpoint mount_first (lines : list string) : bool :=
  match lines with
  | [] => true
  | line :: rest =>
      if is_mount_line line then true
      else if is_file_line line then false
      else mount_first rest
  end.

(** The names of the file lines and the mount points of the mount lines,
    as the loop of [get_filename_mapping] reads them. *)
Fixpoint file_names (lines : list string) : list string :=
  match lines with
  | [] => []
  | line :: rest =>
      match re_search re_unpack_mount line with
      | Some _ => file_names rest
      | None =>
          match re_search re_unpack_file line with
          | Some m => group_or_empty m "filename" :: file_names rest
          | None => file_names rest
          end
      end
  end.

Fixpoint mount_points (lines : list string) : list string :=
  match lines with
  | [] => []
  | line :: rest =>
      match re_search re_unpack_mount line with
      | Some m =>
          set_mountpoint (group_or_empty m "mountpoint") :: mount_points rest
      | None => mount_points rest
      end
  end.

(** A line the loop of [get_filename_mapping] does something with. *)
Definition is_listing_line (line : string) : bool :=
  is_mount_line line || is_file_line line.

(** ** The two shapes of a [CaseFix] *)

(** [s[n:]] *)
Fixpoint drop (n : nat) (s : string) : string :=
  match n, s with
  | O, _ => s
  | S k, String _ s' => drop k s'
  | S _, EmptyString => EmptyString
  end.

(** The literal text the pattern of a [CaseFix] begins with, and the
    text the replacement puts in its place. *)
Definition fix_from (self : CaseFix) : string :=
  (dir_name self ++ "/" ++ from_name self
   ++ (if directory self then "/" else "."))%string.

Definition fix_to (self : CaseFix) : string :=
  (dir_name self ++ "/" ++ to_name self
   ++ (if directory self then "/" else "."))%string.

(** The class of the characters that may follow it: the rest of the
    line for a directory rule, an extension of word characters for a
    file rule. *)
Definition fix_tail (self : CaseFix) : ascii -> bool :=
  if directory self then is_any else is_word.

Definition lf : string := String nl EmptyString.

(** ** The names of archives *)

(** An archive name without its directory, from its parts: the digits of
    the datagroup, the word [optional] or not, the digits of the patch
    suffix, if any. *)
Definition patch_suffix (patch : option string) : string :=
  match patch with
  | Some p => ("_" ++ p ++ "_P")%string
  | None => EmptyString
  end.

Definition pak_stem (d : string) (optional : bool) (patch : option string)
  : string :=
  ("pakchunk" ++ d ++ (if optional then "optional" else "")
   ++ "-WindowsNoEditor" ++ patch_suffix patch ++ ".pak")%string.

(** What [re_pak] and [pak_re] have in common: the pattern of the name
    behind the directory, with the names of its four groups. *)
Definition re_pak_tail (g_suffix g_patchnum : string) : re :=
  Opt (Grp g_suffix
           (Lit "_" +> Grp g_patchnum (Rep true 1 is_digit) +> Lit "_P"))
  +> Lit ".pak" +> Eol.

Definition re_pak_name (g_datagroup g_optional g_suffix g_patchnum : string)
  : re :=
  Lit "pakchunk" +> Grp g_datagroup (Rep true 1 is_digit)
  +> Opt (Grp g_optional (Lit "optional"))
  +> Lit "-WindowsNoEditor"
  +> re_pak_tail g_suffix g_patchnum.

(** The groups of a match of that pattern, last group first. *)
Definition pak_name_groups (g_datagroup g_optional g_suffix g_patchnum : string)
           (d : string) (optional : bool) (patch : option string) : caps :=
  match patch with
  | Some p => [(g_suffix, patch_suffix patch); (g_patchnum, p)]
  | None => []
  end
  ++ (if optional then [(g_optional, "optional")] else [])
  ++ [(g_datagroup, d)].

(** The last character of [s] is in the class [c]. *)
Fixpoint last_in (c : ascii -> bool) (s : string) : bool :=
  match s with
  | EmptyString => false
  | String a EmptyString => c a
  | String _ s' => last_in c s'
  end.

(** A directory in front of an archive name, as [re_pak] takes it: one
    line of text, empty or ending with a slash or a backslash. *)
Definition dir_prefix_ok (prefix : string) : bool :=
  all_in is_any prefix && (is_empty prefix || last_in is_slash prefix).

Definition digits_ok (d : string) : bool :=
  negb (is_empty d) && all_in is_digit d.

Definition patch_ok (patch : option string) : bool :=
  match patch with
  | Some p => digits_ok p
  | None => true
  end.

(** ** Directory trees

    What [delete_empty_dirs] does to a tree is said with the functions
    below.  A name of a directory entry is not empty, holds no slash and
    is neither [.] nor [..]; the names of one directory are distinct. *)

Definition proper_name (c : string) : bool :=
  negb (String.eqb c "" || String.eqb c "." || String.eqb c ".."
        || contains_slash c).

Fixpoint distinct (l : list string) : bool :=
  match l with
  | [] => true
  | x :: l' => negb (mem x l') && distinct l'
  end.

Fixpoint wf (n : node) : bool :=
  match n with
  | File _ => true
  | Dir es =>
      distinct (map fst es)
      && forallb (fun e => proper_name (fst e) && wf (snd e)) es
  end.

(** There is a regular file in or under [n]. *)
Fixpoint has_file (n : node) : bool :=
  match n with
  | File _ => true
  | Dir es => existsb (fun e => has_file (snd e)) es
  end.

(** [n] without the directories under it that hold no regular file. *)
Fixpoint prune (n : node) : node :=
  match n with
  | File data => File data
  | Dir es =>
      Dir (flat_map (fun e => if has_file (snd e)
                              then [(fst e, prune (snd e))] else [])
                    es)
  end.

(** The nesting of the directories of [n]. *)
Fixpoint height (n : node) : nat :=
  match n with
  | File _ => O
  | Dir es => S (fold_right (fun e m => Nat.max (height (snd e)) m) O es)
  end.

(** No component of [path] is [..]. *)
Definition plain_path (path : string) : bool :=
  forallb (fun c => negb (String.eqb c "..")) (split_slash path).

(** The entries [delete_empty_dirs] leaves of a directory, and the names
    it leaves in [file_set]. *)
Definition pruned (es : list (string * node)) : list (string * node) :=
  flat_map (fun e => if has_file (snd e)
                     then [(fst e, prune (snd e))] else [])
           es.

Definition kept_names (es : list (string * node)) : list string :=
  map fst (filter (fun e => has_file (snd e)) es).

(** * Properties *)

(** ** The model on concrete inputs *)

Example re_pak_groups :
  option_map groups
    (re_match re_pak "C:\x\pakchunk10optional-WindowsNoEditor_12_P.pak")
  = Some [("4", "_12_P"); ("patchnum", "12"); ("optional", "optional");
          ("datagroup", "10"); ("dir_prefix", "C:\x\")].
Proof. vm_compute; reflexivity. Qed.

Example re_pak_needs_digits :
  re_match re_pak "pakchunk-WindowsNoEditor.pak" = None.
Proof. vm_compute; reflexivity. Qed.

Example re_extract_is_lazy :
  option_map groups
    (re_search re_extract
       ("LogPakFile: Display: Extracted " ++ dq ++ "a" ++ dq ++ " to "
        ++ dq ++ "b" ++ dq ++ " to c")%string)
  = Some [("filename", "a")].
Proof. vm_compute; reflexivity. Qed.

Example re_unpack_file_is_greedy :
  option_map groups
    (re_search re_unpack_file
       ("LogPakFile: Display: " ++ dq ++ "a" ++ dq ++ " offset " ++ dq ++ "b"
        ++ dq ++ " offset: 3")%string)
  = Some [("filename", ("a" ++ dq ++ " offset " ++ dq ++ "b")%string)].
Proof. vm_compute; reflexivity. Qed.

Example re_unpack_mount_stops_at_newline :
  option_map groups
    (re_search re_unpack_mount (mount_line "../../../OakGame/"))
  = Some [("mountpoint", "../../../OakGame/")].
Proof. vm_compute; reflexivity. Qed.

Example content_trailing_space :
  option_map groups
    (re_match re_normalize_content
       ("a/Content/b" ++ String (ascii_of_nat 9) " " ++ String nl "")%string)
  = Some [("lastpart", ("b" ++ String (ascii_of_nat 9) " ")%string);
          ("firstpart", "a")].
Proof. vm_compute; reflexivity. Qed.

Example content_second_line :
  re_match re_normalize_content ("a/Content/b" ++ String nl "c")%string = None.
Proof. vm_compute; reflexivity. Qed.

Example case_fix_applies :
  normalize "OakGame/Content/Maps/Dungeons/Boss/Climb/D_Boss_Climb_P.umap"
  = "Game/Maps/Dungeons/Boss/Climb/D_Boss_Climb_p.umap".
Proof. vm_compute; reflexivity. Qed.

Example plugin_path :
  normalize "SomePlugin/Plugins/Weapons/Gun.uasset" = "Weapons/Gun.uasset".
Proof. vm_compute; reflexivity. Qed.

Example plugin_needs_one_leading_segment :
  normalize "X/Y/Plugins/Weapons/Gun.uasset" = "X/Y/Plugins/Weapons/Gun.uasset".
Proof. vm_compute; reflexivity. Qed.

Example half_is_exact_below_2_52 :
  int_add_half 4503599627370495 = Ok (9007199254740991 # 2).
Proof. vm_compute; reflexivity. Qed.

Example half_is_rounded_from_2_52 :
  int_add_half 4503599627370496 = Ok (inject_Z 4503599627370496)
  /\ int_add_half 4503599627370497 = Ok (inject_Z 4503599627370498)
  /\ int_add_half 9007199254740993 = Ok (inject_Z 9007199254740992).
Proof. repeat split; vm_compute; reflexivity. Qed.

(** A merge that has something to move: the file goes to its place, the
    emptied directories and the staging directory are removed. *)
Example merge_moves_files :
  normalize_pak_files 1000 "/out/_unpack_wl_tmp" "/out"
    [("Foo/Bar.uasset", "Game/Foo/Bar.uasset")]
    (mkFS (Dir [("out",
                 Dir [("_unpack_wl_tmp",
                       Dir [("Foo", Dir [("Bar.uasset", File "new");
                                         ("Empty", Dir [])])]);
                      ("Game", Dir [("Foo", Dir [("Bar.uasset", File "old")])])
                     ])]) [])
  = Ok (mkFS (Dir [("out",
                    Dir [("Game",
                          Dir [("Foo", Dir [("Bar.uasset", File "new")])])])])
             []).
Proof. vm_compute; reflexivity. Qed.

(** A staged file without an entry in the mapping stays, and the merge
    fails. *)
Example merge_incomplete :
  normalize_pak_files 1000 "/out/_unpack_wl_tmp" "/out"
    [("Foo/Bar.uasset", "Game/Foo/Bar.uasset")]
    (mkFS (Dir [("out",
                 Dir [("_unpack_wl_tmp",
                       Dir [("Foo", Dir [("Baz.uasset", File "new")])])])])
          [])
  = Raise (RuntimeError
             "Could not delete temporary folder /out/_unpack_wl_tmp").
Proof. vm_compute; reflexivity. Qed.

(** ** Numbers and the order of keys *)

Lemma Qlt_bool_iff (x y : Q) : Qlt_bool x y = true <-> (x < y)%Q.
Proof.
  unfold Qlt_bool. rewrite Qlt_alt.
  destruct (x ?= y)%Q; split; congruence.
Qed.

Lemma tuple_lt_spec (a b : Q * Z) :
  tuple_lt a b = true <->
  ((fst a < fst b)%Q \/ ((fst a == fst b)%Q /\ snd a < snd b)).
Proof.
  unfold tuple_lt.
  destruct (Qeq_bool (fst a) (fst b)) eqn:E.
  - apply Qeq_bool_iff in E. rewrite Z.ltb_lt. split.
    + intros H. right. split; [exact E|exact H].
    + intros [H | [_ H]].
      * rewrite E in H. now apply Qlt_irrefl in H.
      * exact H.
  - rewrite Qlt_bool_iff. split.
    + now left.
    + intros [H | [H _]]; [exact H|].
      apply Qeq_bool_iff in H. congruence.
Qed.

Lemma tuple_lt_trans (a b c : Q * Z) :
  tuple_lt a b = true -> tuple_lt b c = true -> tuple_lt a c = true.
Proof.
  rewrite !tuple_lt_spec.
  intros [H1 | [H1 K1]] [H2 | [H2 K2]].
  - left. now apply Qlt_trans with (fst b).
  - left. now rewrite <- H2.
  - left. now rewrite H1.
  - right. split.
    + now rewrite H1.
    + lia.
Qed.

Lemma round53_small (n : Z) : n < 2 ^ 53 -> round53 n = n.
Proof.
  intros H. unfold round53.
  assert (L : Z.log2 n < 53).
  { destruct (Z.le_gt_cases n 0) as [Hn | Hn].
    - rewrite Z.log2_nonpos by exact Hn. lia.
    - apply Z.log2_lt_pow2; assumption. }
  apply Z.ltb_lt in L. now rewrite L.
Qed.

Lemma int_add_half_small (n : Z) :
  n < 2 ^ 52 -> int_add_half n = Ok (inject_Z n + (1 # 2))%Q.
Proof.
  intros H. unfold int_add_half.
  assert (P : 2 ^ 52 < 2 ^ 53) by reflexivity.
  assert (P' : 2 ^ 52 < 2 ^ 1024) by reflexivity.
  rewrite round53_small by lia.
  destruct (2 ^ 1024 <=? n) eqn:E1.
  - apply Z.leb_le in E1. lia.
  - destruct (n <? 2 ^ 52) eqn:E2; [reflexivity|].
    apply Z.ltb_ge in E2. lia.
Qed.

(** Whatever [n + 0.5] is, it is none of the small integers. *)
Lemma int_add_half_not_small (n a : Z) (q : Q) :
  int_add_half n = Ok q -> a < 2 ^ 52 -> Qeq_bool q (inject_Z a) = false.
Proof.
  unfold int_add_half. intros H Ha.
  assert (P : 2 ^ 52 < 2 ^ 53) by reflexivity.
  destruct (Qeq_bool q (inject_Z a)) eqn:E; [|reflexivity].
  apply Qeq_bool_iff in E. exfalso.
  set (f := round53 n) in *.
  destruct (2 ^ 1024 <=? f); [discriminate|].
  destruct (f <? 2 ^ 52) eqn:E2.
  - injection H as <-. unfold Qeq in E. simpl in E. lia.
  - apply Z.ltb_ge in E2.
    destruct (f <? 2 ^ 53).
    + injection H as <-. unfold Qeq in E. simpl in E.
      destruct (Z.even f); lia.
    + injection H as <-. unfold Qeq in E. simpl in E. lia.
Qed.

Lemma in_audio_nums (n : Z) :
  existsb (fun a => Qeq_bool (inject_Z n) (inject_Z a)) audio_nums = true
  <-> In n audio_nums.
Proof.
  rewrite existsb_exists. split.
  - intros [a [Ha E]]. apply Qeq_bool_iff in E.
    unfold Qeq in E. simpl in E. assert (n = a) by lia. now subst.
  - intros H. exists n. split; [exact H|]. now apply Qeq_bool_iff.
Qed.

(** ** Parsing and classification of archive names *)

Lemma init_inv (stat : string -> result Z) (fn : string) (pf : PakFile) :
  PakFile_init stat fn = Ok pf ->
  exists m dg sz,
    re_match re_pak fn = Some m /\ group m "datagroup" = Some dg /\
    stat fn = Ok sz /\
    (match group m "optional" with
     | Some _ => int_add_half (int dg)
     | None => Ok (inject_Z (int dg))
     end) = Ok (paknum pf) /\
    patchnum pf = match group m "patchnum" with
                  | Some p => int p
                  | None => -1
                  end.
Proof.
  unfold PakFile_init.
  destruct (re_match re_pak fn) as [m|]; [|discriminate].
  destruct (group m "datagroup") as [dg|] eqn:G; [|discriminate].
  destruct (match group m "optional" with
            | Some _ => int_add_half (int dg)
            | None => Ok (inject_Z (int dg))
            end) as [pk|] eqn:E; [|discriminate].
  simpl. destruct (stat fn) as [sz|]; [|discriminate].
  simpl. intros H. injection H as <-.
  exists m, dg, sz. simpl. repeat split; auto.
Qed.

Lemma paksort_init_inv (fn : string) (pf : Paksort.PakFile) :
  Paksort.PakFile_init fn = Ok pf ->
  exists m dg,
    re_match Paksort.pak_re fn = Some m /\ group m "1" = Some dg /\
    (if Paksort.truthy (group m "2") then int_add_half (int dg)
     else Ok (inject_Z (int dg))) = Ok (Paksort.paknum pf) /\
    (if Paksort.truthy (group m "3")
     then match group m "4" with
          | Some p => Ok (int p + 1)
          | None => Raise TypeError
          end
     else Ok 0) = Ok (Paksort.patchnum pf).
Proof.
  unfold Paksort.PakFile_init.
  destruct (re_match Paksort.pak_re fn) as [m|]; [|discriminate].
  destruct (group m "1") as [dg|] eqn:G; [|discriminate].
  destruct (if Paksort.truthy (group m "2") then _ else _) as [pk|] eqn:E2;
    [|discriminate].
  simpl.
  destruct (if Paksort.truthy (group m "3") then _ else _) as [pn|] eqn:E3;
    [|discriminate].
  simpl. intros H. injection H as <-.
  exists m, dg. simpl. repeat split; auto.
Qed.

(** C3, as the claim states it, fails: [pakchunk2optional-...] has
    datagroup 2, which is in the audio set, and is not audio-only. *)
Lemma is_audio_only_counterexample :
  ~ (forall stat fn pf d,
        PakFile_init stat fn = Ok pf -> datagroup_of fn = Some d ->
        (is_audio_only pf = true <-> In d audio_nums)).
Proof.
  intros H.
  specialize (H (fun _ => Ok 0) "pakchunk2optional-WindowsNoEditor.pak"
                (mkPakFile "pakchunk2optional-WindowsNoEditor.pak"
                           (5 # 2) (-1) 0) 2 eq_refl eq_refl).
  destruct H as [_ H].
  assert (I : In 2 audio_nums) by (simpl; auto).
  apply H in I. discriminate I.
Qed.

(** C3, amended: for every archive name that parses, [is_audio_only] is
    true exactly when the name does not carry [optional] and its
    datagroup number is one of 2, 3, 48, 49, 50, 51, 52, 53. *)
Theorem is_audio_only_iff (stat : string -> result Z) (fn : string)
        (pf : PakFile) (d : Z) :
  PakFile_init stat fn = Ok pf ->
  datagroup_of fn = Some d ->
  (is_audio_only pf = true <-> optional_of fn = false /\ In d audio_nums).
Proof.
  intros Hi Hd.
  destruct (init_inv _ _ _ Hi) as (m & dg & sz & Hm & Hg & _ & Hpk & _).
  unfold datagroup_of in Hd. unfold optional_of.
  rewrite Hm in *. rewrite Hg in Hd. simpl in Hd. injection Hd as <-.
  unfold is_audio_only.
  destruct (group m "optional") as [o|].
  - split; [|intros [K _]; discriminate K].
    intros K. apply existsb_exists in K. destruct K as [a [Ha K]].
    rewrite (int_add_half_not_small _ a _ Hpk) in K; [discriminate|].
    simpl in Ha. repeat (destruct Ha as [<- | Ha]; [reflexivity|]).
    destruct Ha.
  - injection Hpk as <-. rewrite in_audio_nums. tauto.
Qed.

Lemma is_audio_only_iff_witness :
  is_audio_only (mkPakFile "pakchunk48-WindowsNoEditor_3_P.pak" 48 3 7) = true
  <-> optional_of "pakchunk48-WindowsNoEditor_3_P.pak" = false
      /\ In 48 audio_nums.
Proof.
  apply (is_audio_only_iff (fun _ => Ok 7)
                           "pakchunk48-WindowsNoEditor_3_P.pak");
    vm_compute; reflexivity.
Defined.

(** C5, as the claim states it, fails in [paksort.py], whose [PakFile]
    stores 0 for a name without patch suffix. *)
Lemma patchnum_paksort_counterexample :
  ~ (forall fn pf,
        Paksort.PakFile_init fn = Ok pf -> Paksort.patch_of fn = None ->
        Paksort.patchnum pf = -1).
Proof.
  intros H.
  specialize (H "pakchunk0-WindowsNoEditor.pak"
                (Paksort.mkPakFile "pakchunk0-WindowsNoEditor.pak" 0 0)
                eq_refl eq_refl).
  discriminate H.
Qed.

(** C5, amended: for every archive name that parses and carries no patch
    suffix, the patch number of the descriptor of [unpack_wl.py] is -1;
    the one of [paksort.py] is 0 (and, with a suffix [_P_P], it is P + 1
    there, P in [unpack_wl.py]). *)
Theorem patchnum_without_suffix :
  (forall stat fn pf,
      PakFile_init stat fn = Ok pf -> patch_of fn = None -> patchnum pf = -1)
  /\ (forall fn pf,
         Paksort.PakFile_init fn = Ok pf -> Paksort.patch_of fn = None ->
         Paksort.patchnum pf = 0)
  /\ (forall stat fn pf p,
         PakFile_init stat fn = Ok pf -> patch_of fn = Some p ->
         patchnum pf = p)
  /\ (forall fn pf p,
         Paksort.PakFile_init fn = Ok pf -> Paksort.patch_of fn = Some p ->
         Paksort.patchnum pf = p + 1).
Proof.
  repeat split.
  - intros stat fn pf Hi Hp.
    destruct (init_inv _ _ _ Hi) as (m & dg & sz & Hm & _ & _ & _ & Hpn).
    unfold patch_of in Hp. rewrite Hm in Hp. rewrite Hpn.
    destruct (group m "patchnum"); [discriminate Hp|reflexivity].
  - intros fn pf Hi Hp.
    destruct (paksort_init_inv _ _ Hi) as (m & dg & Hm & _ & _ & Hpn).
    unfold Paksort.patch_of in Hp. rewrite Hm in Hp.
    destruct (Paksort.truthy (group m "3")).
    + destruct (group m "4"); [discriminate Hp|discriminate Hpn].
    + now injection Hpn.
  - intros stat fn pf p Hi Hp.
    destruct (init_inv _ _ _ Hi) as (m & dg & sz & Hm & _ & _ & _ & Hpn).
    unfold patch_of in Hp. rewrite Hm in Hp. rewrite Hpn.
    destruct (group m "patchnum"); [|discriminate Hp].
    simpl in Hp. now injection Hp.
  - intros fn pf p Hi Hp.
    destruct (paksort_init_inv _ _ Hi) as (m & dg & Hm & _ & _ & Hpn).
    unfold Paksort.patch_of in Hp. rewrite Hm in Hp.
    destruct (Paksort.truthy (group m "3")); [|discriminate Hp].
    destruct (group m "4"); [|discriminate Hp].
    simpl in Hp. injection Hp as <-. now injection Hpn.
Qed.

Lemma patchnum_without_suffix_witness :
  patchnum (mkPakFile "Paks/pakchunk7-WindowsNoEditor.pak" 7 (-1) 10) = -1
  /\ Paksort.patchnum
       (Paksort.mkPakFile "pakchunk7-WindowsNoEditor.pak" 7 0) = 0.
Proof.
  split.
  - apply (proj1 patchnum_without_suffix (fun _ => Ok 10)
                 "Paks/pakchunk7-WindowsNoEditor.pak");
      vm_compute; reflexivity.
  - apply (proj1 (proj2 patchnum_without_suffix)
                 "pakchunk7-WindowsNoEditor.pak");
      vm_compute; reflexivity.
Defined.

(** ** The order of archives *)

Lemma paknum_key (m : mobj) (dg : string) (q : Q) :
  int dg < 2 ^ 52 ->
  (match group m "optional" with
   | Some _ => int_add_half (int dg)
   | None => Ok (inject_Z (int dg))
   end) = Ok q ->
  q = (match group m "optional" with
       | Some _ => inject_Z (int dg) + (1 # 2)
       | None => inject_Z (int dg)
       end)%Q.
Proof.
  intros Hd. destruct (group m "optional").
  - rewrite int_add_half_small by exact Hd. congruence.
  - congruence.
Qed.

Lemma half_after (d p : Z) :
  tuple_lt (inject_Z d, p) ((inject_Z d + (1 # 2))%Q, p) = true
  /\ tuple_lt ((inject_Z d + (1 # 2))%Q, p) (inject_Z d, p) = false.
Proof.
  split.
  - apply tuple_lt_spec. left. simpl. unfold Qlt. simpl. lia.
  - destruct (tuple_lt _ _) eqn:E; [|reflexivity].
    apply tuple_lt_spec in E. simpl in E.
    destruct E as [E | [E _]]; unfold Qlt, Qeq in E; simpl in E; lia.
Qed.

(** C4, as the claim states it, fails where binary64 cannot hold
    datagroup + 0.5: at datagroup 2^52 the sum is rounded back to 2^52,
    the two keys are equal and neither archive sorts before the other. *)
Lemma optional_order_counterexample :
  ~ (forall stat fa fb a b d,
        PakFile_init stat fa = Ok a -> PakFile_init stat fb = Ok b ->
        datagroup_of fa = Some d -> datagroup_of fb = Some d ->
        patch_of fa = patch_of fb ->
        optional_of fa = false -> optional_of fb = true ->
        PakFile_lt a b = true).
Proof.
  intros H.
  assert (A : PakFile_init (fun _ => Ok 0)
                "pakchunk4503599627370496-WindowsNoEditor.pak"
              = Ok (mkPakFile "pakchunk4503599627370496-WindowsNoEditor.pak"
                              4503599627370496 (-1) 0))
    by (vm_compute; reflexivity).
  assert (B : PakFile_init (fun _ => Ok 0)
                "pakchunk4503599627370496optional-WindowsNoEditor.pak"
              = Ok (mkPakFile
                      "pakchunk4503599627370496optional-WindowsNoEditor.pak"
                      4503599627370496 (-1) 0))
    by (vm_compute; reflexivity).
  specialize (H _ _ _ _ _ 4503599627370496 A B).
  assert (K : PakFile_lt
                (mkPakFile "pakchunk4503599627370496-WindowsNoEditor.pak"
                           4503599627370496 (-1) 0)
                (mkPakFile
                   "pakchunk4503599627370496optional-WindowsNoEditor.pak"
                   4503599627370496 (-1) 0) = false)
    by (vm_compute; reflexivity).
  rewrite H in K; [discriminate K| | | | |]; vm_compute; reflexivity.
Qed.

(** C4, amended: in both scripts [<] on archives is the lexicographic
    order of the keys (paknum, patchnum) and is transitive; for an
    archive name with datagroup below 2^52 the first component of the
    key is datagroup + 0.5 if the name carries [optional] and datagroup
    otherwise; and of two archives with the same datagroup below 2^52
    and the same patch number that differ only in [optional], the
    optional one sorts strictly after the other. *)
Theorem archive_order :
  (forall a b : PakFile,
      PakFile_lt a b = true <->
      ((paknum a < paknum b)%Q
       \/ ((paknum a == paknum b)%Q /\ patchnum a < patchnum b)))
  /\ (forall a b c : PakFile,
         PakFile_lt a b = true -> PakFile_lt b c = true ->
         PakFile_lt a c = true)
  /\ (forall a b c : Paksort.PakFile,
         Paksort.PakFile_lt a b = true -> Paksort.PakFile_lt b c = true ->
         Paksort.PakFile_lt a c = true)
  /\ (forall stat fn pf d,
         PakFile_init stat fn = Ok pf -> datagroup_of fn = Some d ->
         d < 2 ^ 52 ->
         paknum pf = (if optional_of fn then inject_Z d + (1 # 2)
                      else inject_Z d)%Q)
  /\ (forall stat fa fb a b d,
         PakFile_init stat fa = Ok a -> PakFile_init stat fb = Ok b ->
         datagroup_of fa = Some d -> datagroup_of fb = Some d ->
         patch_of fa = patch_of fb ->
         optional_of fa = false -> optional_of fb = true ->
         d < 2 ^ 52 ->
         PakFile_lt a b = true /\ PakFile_lt b a = false)
  /\ (forall fa fb a b d,
         Paksort.PakFile_init fa = Ok a -> Paksort.PakFile_init fb = Ok b ->
         Paksort.datagroup_of fa = Some d ->
         Paksort.datagroup_of fb = Some d ->
         Paksort.patch_of fa = Paksort.patch_of fb ->
         Paksort.optional_of fa = false -> Paksort.optional_of fb = true ->
         d < 2 ^ 52 ->
         Paksort.PakFile_lt a b = true /\ Paksort.PakFile_lt b a = false).
Proof.
  assert (K : forall stat fn pf d,
             PakFile_init stat fn = Ok pf -> datagroup_of fn = Some d ->
             d < 2 ^ 52 ->
             paknum pf = (if optional_of fn then inject_Z d + (1 # 2)
                          else inject_Z d)%Q).
  { intros stat fn pf d Hi Hd Hlt.
    destruct (init_inv _ _ _ Hi) as (m & dg & sz & Hm & Hg & _ & Hpk & _).
    unfold datagroup_of in Hd. unfold optional_of.
    rewrite Hm in *. rewrite Hg in Hd. simpl in Hd. injection Hd as <-.
    rewrite (paknum_key _ _ _ Hlt Hpk).
    destruct (group m "optional"); reflexivity. }
  split; [intros a b; apply (tuple_lt_spec (_, _) (_, _))|].
  split; [intros a b c; apply tuple_lt_trans|].
  split; [intros a b c; apply tuple_lt_trans|].
  split; [exact K|].
  split.
  - intros stat fa fb a b d Ha Hb Da Db Hp Oa Ob Hlt.
    assert (Pa : patchnum a = patchnum b).
    { destruct (init_inv _ _ _ Ha) as (ma & ? & ? & Hma & _ & _ & _ & Pa).
      destruct (init_inv _ _ _ Hb) as (mb & ? & ? & Hmb & _ & _ & _ & Pb).
      unfold patch_of in Hp. rewrite Hma, Hmb in Hp. rewrite Pa, Pb.
      destruct (group ma "patchnum"), (group mb "patchnum");
        simpl in Hp; congruence. }
    unfold PakFile_lt.
    rewrite (K _ _ _ _ Ha Da Hlt), (K _ _ _ _ Hb Db Hlt), Oa, Ob, Pa.
    apply half_after.
  - intros fa fb a b d Ha Hb Da Db Hp Oa Ob Hlt.
    destruct (paksort_init_inv _ _ Ha) as (ma & dga & Hma & Ga & Ka & Pa).
    destruct (paksort_init_inv _ _ Hb) as (mb & dgb & Hmb & Gb & Kb & Pb).
    unfold Paksort.datagroup_of, Paksort.optional_of, Paksort.patch_of in *.
    rewrite Hma in *. rewrite Hmb in *.
    rewrite Ga in Da. rewrite Gb in Db. simpl in Da, Db.
    injection Da as Da. injection Db as Db.
    rewrite Oa in Ka. rewrite Ob in Kb. rewrite Da in Ka. rewrite Db in Kb.
    rewrite int_add_half_small in Kb by exact Hlt.
    injection Ka as Ka. injection Kb as Kb.
    assert (P : Paksort.patchnum a = Paksort.patchnum b).
    { destruct (Paksort.truthy (group ma "3")),
               (Paksort.truthy (group mb "3")),
               (group ma "4"), (group mb "4");
        simpl in Hp; try discriminate; try congruence. }
    unfold Paksort.PakFile_lt. rewrite <- Ka, <- Kb, P.
    apply half_after.
Qed.

Lemma archive_order_witness :
  (PakFile_lt (mkPakFile "pakchunk0-WindowsNoEditor.pak" 0 (-1) 1)
              (mkPakFile "pakchunk0-WindowsNoEditor_1_P.pak" 0 1 1) = true ->
   PakFile_lt (mkPakFile "pakchunk0-WindowsNoEditor_1_P.pak" 0 1 1)
              (mkPakFile "pakchunk0optional-WindowsNoEditor.pak"
                         (1 # 2) (-1) 1) = true ->
   PakFile_lt (mkPakFile "pakchunk0-WindowsNoEditor.pak" 0 (-1) 1)
              (mkPakFile "pakchunk0optional-WindowsNoEditor.pak"
                         (1 # 2) (-1) 1) = true)
  /\ (PakFile_lt (mkPakFile "pakchunk3-WindowsNoEditor_2_P.pak" 3 2 1)
                 (mkPakFile "pakchunk3optional-WindowsNoEditor_2_P.pak"
                            (7 # 2) 2 1) = true
      /\ PakFile_lt (mkPakFile "pakchunk3optional-WindowsNoEditor_2_P.pak"
                               (7 # 2) 2 1)
                    (mkPakFile "pakchunk3-WindowsNoEditor_2_P.pak" 3 2 1)
         = false).
Proof.
  split.
  - intros H1 H2. exact (proj1 (proj2 archive_order) _ _ _ H1 H2).
  - apply (proj1 (proj2 (proj2 (proj2 (proj2 archive_order))))
                 (fun _ => Ok 1)
                 "pakchunk3-WindowsNoEditor_2_P.pak"
                 "pakchunk3optional-WindowsNoEditor_2_P.pak" _ _ 3);
      vm_compute; reflexivity.
Defined.

(** ** The extractor *)

Lemma extract_loop_count (e : option (list string)) (lines : list string) :
  forall k n,
    extract_loop e k lines = Ok n -> n = (k + count_confirmed lines)%nat.
Proof.
  induction lines as [|line rest IH]; intros k n H.
  - simpl in H. injection H as <-. unfold count_confirmed. simpl. lia.
  - simpl in H. unfold count_confirmed, is_confirmation in *. simpl.
    destruct (re_search re_extract line) as [m|]; simpl.
    + destruct (truthy e && not_in (group_or_empty m "filename") e);
        [discriminate H|].
      apply IH in H. lia.
    + now apply IH in H.
Qed.

Lemma extract_loop_unchecked (e : option (list string)) (lines : list string) :
  truthy e = false ->
  forall k, extract_loop e k lines = Ok (k + count_confirmed lines)%nat.
Proof.
  intros He. induction lines as [|line rest IH]; intros k.
  - unfold count_confirmed. simpl. f_equal. lia.
  - simpl. unfold count_confirmed, is_confirmation in *. simpl.
    destruct (re_search re_extract line) as [m|]; simpl.
    + rewrite He. simpl. rewrite IH. f_equal. lia.
    + apply IH.
Qed.

(** C6, as the claim states it, fails for an expected set that is empty:
    one confirmation against zero expected names is no error. *)
Lemma count_check_counterexample :
  ~ (forall expected lines n,
        extract_loop (Some expected) 0 lines = Ok n ->
        (extract_lines (Some expected) lines
         = Raise (count_mismatch (List.length expected) n)
         <-> n <> List.length expected)).
Proof.
  intros H.
  specialize (H [] [confirmation "a.uasset"] 1%nat eq_refl).
  destruct H as [_ H].
  assert (K : extract_lines (Some []) [confirmation "a.uasset"] = Ok tt)
    by reflexivity.
  rewrite H in K; [discriminate K|]. simpl. lia.
Qed.

(** C6, amended: whenever the extractor is given an expected set that is
    not empty and the tool's output has been read to its end, with [n]
    confirmation lines, extraction fails with the count mismatch exactly
    when [n] differs from the size of the expected set, and succeeds
    otherwise; 5 confirmations against 6 expected names raise the
    error. *)
Theorem count_check
        (launch : list string -> FS -> result (list string * FS))
        (self : PakFile) (destination crypto : string)
        (expected : list string) (fs fs1 fs2 : FS)
        (lines : list string) (n : nat) :
  expected <> [] ->
  (if negb (os_path_exists destination fs)
   then os_makedirs destination fs else Ok fs) = Ok fs1 ->
  launch [filename self; "-extract"; destination;
          ("-cryptokeys=" ++ crypto)%string] fs1 = Ok (lines, fs2) ->
  extract_loop (Some expected) 0 lines = Ok n ->
  n = count_confirmed lines
  /\ (extract launch self destination crypto (Some expected) fs
      = Raise (count_mismatch (List.length expected) n)
      <-> n <> List.length expected)
  /\ (n = List.length expected ->
      extract launch self destination crypto (Some expected) fs = Ok fs2)
  /\ (n = 5%nat -> List.length expected = 6%nat ->
      extract launch self destination crypto (Some expected) fs
      = Raise (RuntimeError "Expected 6 files, only found 5")).
Proof.
  intros Hne H1 H2 Hl.
  assert (E : extract launch self destination crypto (Some expected) fs
              = if Nat.eqb n (List.length expected) then Ok fs2
                else Raise (count_mismatch (List.length expected) n)).
  { unfold extract. rewrite H1. cbn [bind]. rewrite H2. cbn [bind fst snd].
    unfold extract_lines. rewrite Hl. cbn [bind].
    destruct expected as [|x l]; [congruence|].
    cbn [truthy option_map check_count List.length].
    destruct (Nat.eqb n (S (List.length l))); reflexivity. }
  split; [apply (extract_loop_count _ _ _ _ Hl)|].
  rewrite E. repeat split.
  - destruct (Nat.eqb_spec n (List.length expected)); [discriminate|auto].
  - destruct (Nat.eqb_spec n (List.length expected)); [contradiction|auto].
  - intros ->. now rewrite Nat.eqb_refl.
  - intros -> ->. reflexivity.
Qed.

Lemma count_check_witness :
  extract (fun _ fs => Ok (map confirmation ["a"; "b"; "c"; "d"; "e"], fs))
          (mkPakFile "pakchunk0-WindowsNoEditor.pak" 0 (-1) 1)
          "/stage" "crypto.json"
          (Some ["a"; "b"; "c"; "d"; "e"; "f"])
          (mkFS (Dir []) [])
  = Raise (RuntimeError "Expected 6 files, only found 5").
Proof.
  refine (proj2 (proj2 (proj2
            (count_check _ _ _ _ ["a"; "b"; "c"; "d"; "e"; "f"] _
               (mkFS (Dir [("stage", Dir [])]) [])
               (mkFS (Dir [("stage", Dir [])]) [])
               (map confirmation ["a"; "b"; "c"; "d"; "e"]) 5%nat
               _ _ _ _))) eq_refl eq_refl).
  - discriminate.
  - vm_compute; reflexivity.
  - reflexivity.
  - vm_compute; reflexivity.
Defined.

(** C10: with an expected collection that is empty, [extract] does what
    it does without one: no name read from the tool is rejected, the
    count is not checked, and whatever the number of confirmation lines
    the result is the one of the start of the tool. *)
Theorem empty_expected_is_unchecked
        (launch : list string -> FS -> result (list string * FS))
        (self : PakFile) (destination crypto : string) (fs : FS)
        (lines : list string) :
  extract launch self destination crypto (Some []) fs
  = extract launch self destination crypto None fs
  /\ extract launch self destination crypto (Some []) fs
     = (fs1 <- (if negb (os_path_exists destination fs)
                then os_makedirs destination fs else Ok fs) ;;
        out <- launch [filename self; "-extract"; destination;
                       ("-cryptokeys=" ++ crypto)%string] fs1 ;;
        Ok (snd out))
  /\ extract_loop (Some []) 0 lines = Ok (count_confirmed lines)
  /\ extract_lines (Some []) lines = Ok tt
  /\ extract_lines None lines = Ok tt.
Proof.
  assert (L : forall e, truthy e = false ->
                        forall l, extract_lines e l = Ok tt).
  { intros e He l. unfold extract_lines.
    rewrite (extract_loop_unchecked e l He). rewrite He. reflexivity. }
  repeat split.
  - unfold extract.
    destruct (if negb (os_path_exists destination fs) then _ else _)
      as [fs1|]; [|reflexivity].
    cbn [bind]. destruct (launch _ fs1) as [out|]; [|reflexivity].
    cbn [bind]. now rewrite !L.
  - unfold extract.
    destruct (if negb (os_path_exists destination fs) then _ else _)
      as [fs1|]; [|reflexivity].
    cbn [bind]. destruct (launch _ fs1) as [out|]; [|reflexivity].
    cbn [bind]. now rewrite L.
  - apply (extract_loop_unchecked (Some []) lines eq_refl 0%nat).
  - now apply L.
  - now apply L.
Qed.

(** ** The lister *)

Lemma lister_loop_unbound (before : list string) (line : string)
      (after : list string) :
  Forall (fun l => is_mount_line l = false) before ->
  is_file_line line = true ->
  forall d, lister_loop (None, d) (before ++ line :: after)
            = Raise (UnboundLocalError "mountpoint").
Proof.
  intros Hb Hl. induction Hb as [|l before Hm _ IH]; intros d.
  - cbn [app lister_loop].
    unfold lister_step, is_file_line, is_mount_line in *.
    destruct (re_search re_unpack_mount line); [discriminate Hl|].
    destruct (re_search re_unpack_file line); [reflexivity|discriminate Hl].
  - cbn [app lister_loop]. unfold lister_step. unfold is_mount_line in Hm.
    destruct (re_search re_unpack_mount l); [discriminate Hm|].
    destruct (re_search re_unpack_file l); [reflexivity|].
    cbn [bind]. apply IH.
Qed.

(** C7: when the tool's listing has a file line before any mount line,
    [get_filename_mapping] raises (the read of the local [mountpoint],
    which nothing has assigned yet, is an [UnboundLocalError]) and
    returns no mapping. *)
Theorem file_line_before_mount
        (launch : list string -> result (list string))
        (self : PakFile) (crypto : string)
        (before : list string) (line : string) (after : list string) :
  launch [filename self; "-list"; ("-cryptokeys=" ++ crypto)%string]
  = Ok (before ++ line :: after) ->
  Forall (fun l => is_mount_line l = false) before ->
  is_file_line line = true ->
  get_filename_mapping launch self crypto
  = Raise (UnboundLocalError "mountpoint").
Proof.
  intros Hl Hb Hf. unfold get_filename_mapping. rewrite Hl. cbn [bind].
  now rewrite (lister_loop_unbound before line after Hb Hf).
Qed.

Lemma file_line_before_mount_witness :
  get_filename_mapping
    (fun _ => Ok ["LogPakFile: Display: Using command line for crypto";
                  file_line "Foo/Bar.uasset";
                  mount_line "../../../OakGame/Content/"])
    (mkPakFile "pakchunk0-WindowsNoEditor.pak" 0 (-1) 1) "crypto.json"
  = Raise (UnboundLocalError "mountpoint").
Proof.
  apply (file_line_before_mount _ _ _
           ["LogPakFile: Display: Using command line for crypto"]
           (file_line "Foo/Bar.uasset")
           [mount_line "../../../OakGame/Content/"]).
  - reflexivity.
  - repeat constructor.
  - vm_compute; reflexivity.
Defined.

(** ** Path normalisation *)

(** C8: [OakGame/Content/Foo/Bar.uasset] is normalised to
    [Game/Foo/Bar.uasset]: the plugin pattern does not match, the content
    pattern does, with root name [OakGame], which the override table
    maps to [Game]; the lister records that path for the file. *)
Theorem normalize_OakGame_Content :
  normalize "OakGame/Content/Foo/Bar.uasset" = "Game/Foo/Bar.uasset"
  /\ re_match re_normalize_plugins "OakGame/Content/Foo/Bar.uasset" = None
  /\ (exists m,
         re_match re_normalize_content "OakGame/Content/Foo/Bar.uasset"
         = Some m
         /\ group m "junk" = None
         /\ group m "firstpart" = Some "OakGame"
         /\ group m "lastpart" = Some "Foo/Bar.uasset")
  /\ dict_get "OakGame" content_firstpart_overrides = Some "Game"
  /\ lister_loop (None, [])
                 [mount_line "../../../OakGame/Content/";
                  file_line "Foo/Bar.uasset"]
     = Ok (Some "OakGame/Content/",
           [("Foo/Bar.uasset", "Game/Foo/Bar.uasset")]).
Proof.
  split; [vm_compute; reflexivity|].
  split; [vm_compute; reflexivity|].
  split.
  - eexists. split; [vm_compute; reflexivity|].
    repeat split.
  - split; vm_compute; reflexivity.
Qed.

(** ** The matcher: backtracking as a list and as a search *)

Lemma first_some_app {A B : Type} (k : A -> option B) (l1 l2 : list A) :
  first_some k (l1 ++ l2)
  = match first_some k l1 with
    | Some y => Some y
    | None => first_some k l2
    end.
Proof.
  induction l1 as [|x l1 IH]; simpl; [reflexivity|].
  destruct (k x); [reflexivity|exact IH].
Qed.

Lemma first_some_map {A A' B : Type} (g : A -> A') (k : A' -> option B)
      (l : list A) :
  first_some k (map g l) = first_some (fun x => k (g x)) l.
Proof.
  induction l as [|x l IH]; simpl; [reflexivity|].
  destruct (k (g x)); [reflexivity|exact IH].
Qed.

Lemma first_some_ext {A B : Type} (k k' : A -> option B) (l : list A) :
  (forall x, k x = k' x) -> first_some k l = first_some k' l.
Proof.
  intros E. induction l as [|x l IH]; simpl; [reflexivity|].
  rewrite E, IH. reflexivity.
Qed.

Lemma first_some_flat_map {A A' B : Type} (g : A -> list A')
      (k : A' -> option B) (l : list A) :
  first_some k (flat_map g l) = first_some (fun x => first_some k (g x)) l.
Proof.
  induction l as [|x l IH]; simpl; [reflexivity|].
  rewrite first_some_app, IH. reflexivity.
Qed.

Lemma first_some_filter {A B : Type} (P : A -> bool) (k : A -> option B)
      (l : list A) :
  first_some k (filter P l)
  = first_some (fun x => if P x then k x else None) l.
Proof.
  induction l as [|x l IH]; simpl; [reflexivity|].
  destruct (P x); simpl; rewrite IH; reflexivity.
Qed.

Lemma filter_rev_comm {A : Type} (P : A -> bool) (l : list A) :
  filter P (rev l) = rev (filter P l).
Proof.
  induction l as [|x l IH]; simpl; [reflexivity|].
  rewrite filter_app, IH. simpl. destruct (P x); simpl.
  - reflexivity.
  - now rewrite app_nil_r.
Qed.

Lemma greedy_ext {B : Type} (c : ascii -> bool) (s : string) :
  forall k k' : string -> string -> option B,
    (forall p r, k p r = k' p r) -> greedy c s k = greedy c s k'.
Proof.
  induction s as [|a s IH]; intros k k' E; simpl.
  - apply E.
  - rewrite (IH (fun p r => k (String a p) r) (fun p r => k' (String a p) r))
      by (intros; apply E).
    now rewrite E.
Qed.

Lemma first_some_rev_splits {B : Type} (c : ascii -> bool) (s : string) :
  forall k : string * string -> option B,
    first_some k (rev (splits c s)) = greedy c s (fun p r => k (p, r)).
Proof.
  induction s as [|a s IH]; intros k.
  - simpl. now destruct (k (EmptyString, EmptyString)).
  - cbn [splits greedy rev]. rewrite first_some_app.
    destruct (c a).
    + rewrite <- map_rev, first_some_map, IH. cbn [fst snd first_some].
      destruct (greedy c s _); [reflexivity|].
      now destruct (k (EmptyString, String a s)).
    + simpl. now destruct (k (EmptyString, String a s)).
Qed.

Lemma first_some_splits {B : Type} (c : ascii -> bool) (s : string) :
  forall k : string * string -> option B,
    first_some k (splits c s) = lazy c s (fun p r => k (p, r)).
Proof.
  induction s as [|a s IH]; intros k.
  - simpl. now destruct (k (EmptyString, EmptyString)).
  - cbn [splits lazy first_some].
    destruct (k (EmptyString, String a s)); [reflexivity|].
    destruct (c a); [|reflexivity].
    rewrite first_some_map, IH. reflexivity.
Qed.

Lemma mrun_run {B : Type} (r : re) :
  forall (start : bool) (s : string) (k : hit -> option B),
    mrun r start s k = first_some k (run r start s).
Proof.
  induction r as [p|c|g n c|name r IH|r IH|r1 IH1 r2 IH2| |];
    intros start s k; cbn [mrun run].
  - destruct (strip_prefix p s); simpl; [now destruct (k _)|reflexivity].
  - destruct s as [|a s]; [reflexivity|].
    destruct (c a); simpl; [now destruct (k _)|reflexivity].
  - unfold rep_hits. rewrite first_some_map. destruct g.
    + rewrite <- filter_rev_comm, first_some_filter, first_some_rev_splits.
      reflexivity.
    + rewrite first_some_filter, first_some_splits. reflexivity.
  - rewrite IH, first_some_map. apply first_some_ext.
    intros [[m rest] cs]. reflexivity.
  - rewrite IH, first_some_app. simpl.
    destruct (first_some k (run r start s)); [reflexivity|].
    now destruct (k _).
  - rewrite IH1, first_some_flat_map. apply first_some_ext.
    intros [[m1 rest1] cs1]. rewrite IH2, first_some_map.
    apply first_some_ext. intros [[m2 rest2] cs2]. reflexivity.
  - destruct start; simpl; [now destruct (k _)|reflexivity].
  - destruct (at_eol s); simpl; [now destruct (k _)|reflexivity].
Qed.

Lemma re_match_mrun (r : re) (s : string) :
  re_match r s = mrun r true s mobj_of.
Proof.
  rewrite mrun_run. unfold re_match, first_hit.
  destruct (run r true s) as [|[[m rest] cs] l]; reflexivity.
Qed.

(** ** Strings *)

Lemma append_nil_r (s : string) : (s ++ "")%string = s.
Proof. induction s as [|a s IH]; simpl; [reflexivity|now rewrite IH]. Qed.

Lemma append_assoc (a b c : string) :
  ((a ++ b) ++ c)%string = (a ++ b ++ c)%string.
Proof. induction a as [|x a IH]; simpl; [reflexivity|now rewrite IH]. Qed.

Lemma strip_prefix_app (p s : string) : strip_prefix p (p ++ s) = Some s.
Proof.
  induction p as [|a p IH]; simpl; [reflexivity|].
  now rewrite Ascii.eqb_refl.
Qed.

Lemma strip_prefix_sound (p : string) :
  forall s r, strip_prefix p s = Some r -> s = (p ++ r)%string.
Proof.
  induction p as [|a p IH]; intros s r H; simpl in *.
  - congruence.
  - destruct s as [|b s]; [discriminate|].
    destruct (Ascii.eqb_spec a b) as [->|]; [|discriminate].
    now rewrite (IH _ _ H).
Qed.

Lemma contains_cons (p : string) (a : ascii) (s : string) :
  contains p s = true -> contains p (String a s) = true.
Proof.
  intros H. cbn [contains].
  destruct (strip_prefix p (String a s)); [reflexivity|exact H].
Qed.

Lemma contains_app_r (p x y : string) :
  contains p y = true -> contains p (x ++ y) = true.
Proof.
  intros H. induction x as [|a x IH]; [exact H|].
  simpl append. now apply contains_cons.
Qed.

Lemma contains_here (p r : string) : contains p (p ++ r) = true.
Proof.
  destruct (p ++ r)%string eqn:E; cbn [contains];
    rewrite <- E, strip_prefix_app; reflexivity.
Qed.

(** ** The greedy repetition *)

Lemma greedy_longest {B : Type} (c : ascii -> bool) (w r : string) :
  all_in c w = true -> starts_in c r = false ->
  forall (k : string -> string -> option B) (y : B),
    k w r = Some y -> greedy c (w ++ r) k = Some y.
Proof.
  intros Hw Hr. induction w as [|a w IH]; intros k y Hk.
  - simpl. destruct r as [|b r]; [exact Hk|].
    simpl in *. now rewrite Hr.
  - simpl in *. apply andb_prop in Hw. destruct Hw as [Ha Hw].
    rewrite Ha. now rewrite (IH Hw (fun p r0 => k (String a p) r0) y Hk).
Qed.

Lemma greedy_all {B : Type} (c : ascii -> bool) (w : string)
      (k : string -> string -> option B) (y : B) :
  all_in c w = true -> k w "" = Some y -> greedy c w k = Some y.
Proof.
  intros Hw Hk. rewrite <- (append_nil_r w) at 1.
  now apply greedy_longest.
Qed.

Lemma greedy_prefix {B : Type} (c : ascii -> bool) (pre t : string) :
  all_in c pre = true ->
  forall (k : string -> string -> option B) (y : B),
    greedy c t (fun p r => k (pre ++ p)%string r) = Some y ->
    greedy c (pre ++ t) k = Some y.
Proof.
  intros Hp. induction pre as [|a pre IH]; intros k y H.
  - exact H.
  - simpl in *. apply andb_prop in Hp. destruct Hp as [Ha Hp].
    rewrite Ha. now rewrite (IH Hp (fun p r => k (String a p) r) y H).
Qed.

Lemma greedy_none {B : Type} (c : ascii -> bool) (t : string) :
  forall k : string -> string -> option B,
    (forall p r, t = (p ++ r)%string -> k p r = None) ->
    greedy c t k = None.
Proof.
  induction t as [|a t IH]; intros k H; simpl.
  - now apply H.
  - rewrite (IH (fun p r => k (String a p) r))
      by (intros p r ->; now apply H).
    rewrite (H "" (String a t) eq_refl). now destruct (c a).
Qed.

Lemma greedy_sound {B : Type} (c : ascii -> bool) (s : string) :
  forall (k : string -> string -> option B) (y : B),
    greedy c s k = Some y ->
    exists p r, s = (p ++ r)%string /\ k p r = Some y.
Proof.
  induction s as [|a s IH]; intros k y H; simpl in H.
  - now exists "", "".
  - destruct (c a); [|now exists "", (String a s)].
    destruct (greedy c s (fun p r => k (String a p) r)) as [z|] eqn:E.
    + injection H as <-. apply IH in E. destruct E as (p & r & -> & E).
      now exists (String a p), r.
    + now exists "", (String a s).
Qed.

(** ** The normalising patterns on paths of a given shape *)

Lemma long_enough_1 (w r : string) :
  w <> EmptyString -> long_enough 1 (w, r) = true.
Proof. destruct w; [congruence|reflexivity]. Qed.

Lemma starts_in_app (c : ascii -> bool) (m r : string) :
  m <> EmptyString -> starts_in c (m ++ r) = starts_in c m.
Proof. destruct m; [congruence|reflexivity]. Qed.

(** [w], the marker and [rest] are found as such. *)
Lemma wrapped_hit {B : Type} (marker w rest : string) (b : bool)
      (k : hit -> option B) (y : B) :
  w <> EmptyString -> all_in is_word w = true ->
  marker <> EmptyString -> starts_in is_word marker = false ->
  all_in is_any rest = true ->
  k ((w ++ marker ++ rest)%string, EmptyString,
     [("lastpart", rest); ("firstpart", w)]) = Some y ->
  mrun (re_wrapped marker) b (w ++ marker ++ rest) k = Some y.
Proof.
  intros Hw Aw Hm Sm Ar Hk. unfold re_wrapped. cbn [mrun].
  apply greedy_longest; [exact Aw|now rewrite starts_in_app|].
  rewrite long_enough_1 by exact Hw. rewrite strip_prefix_app.
  apply greedy_all; [exact Ar|].
  cbn. rewrite !append_nil_r. exact Hk.
Qed.

(** Where the pattern is found, the marker is in the string. *)
Lemma wrapped_contains {B : Type} (marker s : string) (b : bool)
      (k : hit -> option B) (y : B) :
  mrun (re_wrapped marker) b s k = Some y -> contains marker s = true.
Proof.
  unfold re_wrapped. cbn [mrun]. intros H.
  apply greedy_sound in H. destruct H as (p & r & -> & H).
  destruct (long_enough 1 (p, r)); [|discriminate H].
  destruct (strip_prefix marker r) as [r'|] eqn:E; [|discriminate H].
  apply strip_prefix_sound in E. subst r.
  apply contains_app_r, contains_here.
Qed.

Lemma mrun_junk {B : Type} (b : bool) (s : string) (k : hit -> option B) :
  mrun re_junk b s k
  = greedy is_any s
      (fun p r =>
         match strip_prefix "/" r with
         | Some r' => k ((p ++ "/")%string, r', [("junk", (p ++ "/")%string)])
         | None => None
         end).
Proof.
  unfold re_junk. cbn [mrun]. apply greedy_ext. intros p r.
  cbn [long_enough Nat.leb fst app].
  destruct (strip_prefix "/" r); reflexivity.
Qed.

(** Behind the last [/Content/] no path segment is followed by
    [/Content/] again. *)
Lemma no_later_split (w rest : string) :
  all_in is_word w = true ->
  contains "/Content/" ("Content/" ++ rest) = false ->
  forall p r',
    (w ++ "/Content/" ++ rest)%string = (p ++ "/" ++ r')%string ->
    contains "/Content/" r' = false.
Proof.
  intros Hw Hc. induction w as [|a w IH]; intros p r' E.
  - destruct p as [|b p]; cbn [append] in E, Hc.
    + injection E as <-. exact Hc.
    + injection E as _ E. destruct (contains "/Content/" r') eqn:K;
        [|reflexivity].
      rewrite E in Hc.
      rewrite (contains_app_r "/Content/" p (String "/" r')) in Hc;
        [discriminate Hc|].
      now apply contains_cons.
  - simpl in Hw. apply andb_prop in Hw. destruct Hw as [Ha Hw].
    destruct p as [|b p]; simpl in E.
    + injection E as -> _. discriminate Ha.
    + injection E as _ E. now apply (IH Hw p).
Qed.

Lemma later_fail {B : Type} (w rest : string)
      (F : string -> string -> option B) :
  all_in is_word w = true ->
  contains "/Content/" ("Content/" ++ rest) = false ->
  (forall p r y, F p r = Some y ->
                 exists r', strip_prefix "/" r = Some r'
                            /\ contains "/Content/" r' = true) ->
  greedy is_any (w ++ "/Content/" ++ rest) F = None.
Proof.
  intros Hw Hc HF. apply greedy_none. intros p r E.
  destruct (F p r) as [y|] eqn:K; [exfalso|reflexivity].
  destruct (HF _ _ _ K) as (r' & S & C).
  apply strip_prefix_sound in S. subst r.
  rewrite (no_later_split w rest Hw Hc p r' E) in C. discriminate C.
Qed.

Lemma ends_with_slash_inv (s : string) :
  ends_with_slash s = true -> exists s1, s = (s1 ++ "/")%string.
Proof.
  induction s as [|a s IH]; [discriminate|].
  destruct s as [|b s].
  - simpl. intros H. apply Ascii.eqb_eq in H. subst a. now exists "".
  - intros H. destruct (IH H) as (s1 & E). exists (String a s1).
    simpl. now rewrite <- E.
Qed.

Lemma all_in_app (c : ascii -> bool) (a b : string) :
  all_in c (a ++ b) = all_in c a && all_in c b.
Proof.
  induction a as [|x a IH]; simpl; [reflexivity|].
  now rewrite IH, andb_assoc.
Qed.

(** The content pattern on a path whose last [/Content/] follows a
    segment [w] of word characters: the junk is all that precedes [w]. *)
Lemma content_match (pre w rest : string) :
  is_empty pre || ends_with_slash pre = true ->
  all_in is_any pre = true ->
  w <> EmptyString -> all_in is_word w = true ->
  all_in is_any rest = true ->
  contains "/Content/" ("Content/" ++ rest) = false ->
  re_match re_normalize_content (pre ++ w ++ "/Content/" ++ rest)
  = Some (MObj (pre ++ w ++ "/Content/" ++ rest)
               ([("lastpart", rest); ("firstpart", w)]
                ++ if is_empty pre then [] else [("junk", pre)])).
Proof.
  intros Hpre Apre Hw Aw Ar Hc.
  rewrite re_match_mrun. unfold re_normalize_content.
  cbn [mrun andb is_empty]. rewrite mrun_junk.
  set (t0 := (w ++ "/Content/" ++ rest)%string).
  assert (LF : forall (F : string -> string -> option mobj),
             (forall p r y, F p r = Some y ->
                            exists r', strip_prefix "/" r = Some r'
                                       /\ contains "/Content/" r' = true) ->
             greedy is_any t0 F = None)
    by (intros F HF; now apply later_fail).
  destruct pre as [|a0 pre0].
  - cbn [append is_empty].
    rewrite LF.
    + subst t0.
      apply wrapped_hit; try assumption; try discriminate; reflexivity.
    + intros p r y H.
      destruct (strip_prefix "/" r) as [r'|]; [|discriminate H].
      exists r'. split; [reflexivity|].
      now apply wrapped_contains in H.
  - cbn [is_empty orb] in Hpre.
    destruct (ends_with_slash_inv _ Hpre) as (pre1 & E). rewrite E in *.
    clear E a0 pre0 Hpre.
    rewrite all_in_app in Apre. apply andb_prop in Apre.
    destruct Apre as [Apre _].
    rewrite !append_assoc.
    erewrite greedy_prefix; [reflexivity|exact Apre|].
    cbn [append greedy].
    change (is_any "/") with true. cbv iota.
    rewrite LF.
    + cbn [strip_prefix]. rewrite Ascii.eqb_refl. subst t0.
      apply wrapped_hit; try assumption; try discriminate; try reflexivity.
      rewrite append_nil_r. unfold mobj_of. rewrite append_assoc.
      replace (is_empty (pre1 ++ "/")) with false
        by (destruct pre1; reflexivity).
      reflexivity.
    + intros p r y H.
      destruct (strip_prefix "/" r) as [r'|]; [|discriminate H].
      exists r'. split; [reflexivity|].
      now apply wrapped_contains in H.
Qed.

Lemma plugins_match (w rest : string) :
  w <> EmptyString -> all_in is_word w = true ->
  all_in is_any rest = true ->
  re_match re_normalize_plugins (w ++ "/Plugins/" ++ rest)
  = Some (MObj (w ++ "/Plugins/" ++ rest)
               [("lastpart", rest); ("firstpart", w)]).
Proof.
  intros Hw Aw Ar. rewrite re_match_mrun. unfold re_normalize_plugins.
  cbn [mrun andb is_empty].
  apply wrapped_hit; try assumption; try discriminate; reflexivity.
Qed.

(** C2, as the claim states it, fails: on a plugin-wrapped path the
    content rewrite is applied as well, to what the plugin rewrite
    left. *)
Lemma plugins_exclusive_counterexample :
  ~ (forall w rest,
        w <> EmptyString -> all_in is_word w = true ->
        all_in is_any rest = true ->
        normalize (w ++ "/Plugins/" ++ rest) = apply_fixes rest).
Proof.
  intros H.
  specialize (H "OakGame" "DLC/Dandelion/Content/Foo.uasset").
  assert (K : normalize "OakGame/Plugins/DLC/Dandelion/Content/Foo.uasset"
              = "Dandelion/Foo.uasset") by (vm_compute; reflexivity).
  change ("OakGame" ++ "/Plugins/" ++ "DLC/Dandelion/Content/Foo.uasset")%string
    with "OakGame/Plugins/DLC/Dandelion/Content/Foo.uasset" in H.
  rewrite H in K; [|discriminate|reflexivity|reflexivity].
  vm_compute in K. discriminate K.
Qed.

(** C2, amended: for every raw path (one line of text) made of one
    leading segment of word characters, [/Plugins/] and a rest, the
    plugin rewrite leaves the rest, and the content rewrite of step 2 is
    then applied to that rest: the result is the rest itself only when
    the rest does not match the content pattern, and root/last (root
    name overridden as in step 2) when it does; the case fixes follow in
    both cases. *)
Theorem plugins_then_content (w rest : string) :
  w <> EmptyString -> all_in is_word w = true ->
  all_in is_any rest = true ->
  strip_plugins (w ++ "/Plugins/" ++ rest) = rest
  /\ normalize (w ++ "/Plugins/" ++ rest) = apply_fixes (rewrite_content rest)
  /\ (re_match re_normalize_content rest = None ->
      normalize (w ++ "/Plugins/" ++ rest) = apply_fixes rest)
  /\ (forall m,
         re_match re_normalize_content rest = Some m ->
         normalize (w ++ "/Plugins/" ++ rest)
         = apply_fixes (effective_root (group_or_empty m "firstpart")
                        ++ "/" ++ group_or_empty m "lastpart")%string).
Proof.
  intros Hw Aw Ar.
  assert (S : strip_plugins (w ++ "/Plugins/" ++ rest) = rest).
  { unfold strip_plugins. rewrite plugins_match by assumption. reflexivity. }
  assert (N : normalize (w ++ "/Plugins/" ++ rest)
              = apply_fixes (rewrite_content rest))
    by (unfold normalize; now rewrite S).
  repeat split; [exact S|exact N| |].
  - intros E. rewrite N. unfold rewrite_content. now rewrite E.
  - intros m E. rewrite N. unfold rewrite_content. now rewrite E.
Qed.

Lemma plugins_then_content_witness :
  strip_plugins "OakGame/Plugins/DLC/Dandelion/Content/Foo.uasset"
  = "DLC/Dandelion/Content/Foo.uasset"
  /\ normalize "OakGame/Plugins/DLC/Dandelion/Content/Foo.uasset"
     = apply_fixes (rewrite_content "DLC/Dandelion/Content/Foo.uasset").
Proof.
  destruct (plugins_then_content "OakGame" "DLC/Dandelion/Content/Foo.uasset")
    as (H1 & H2 & _).
  - discriminate.
  - reflexivity.
  - reflexivity.
  - split; [exact H1|exact H2].
Defined.

(** C9, as the claim states it, fails when the segment before the last
    [/Content/] has a character that is not a word character: the
    pattern then falls back on an earlier [/Content/]. *)
Lemma content_last_counterexample :
  ~ (forall pre seg rest,
        is_empty pre || ends_with_slash pre = true ->
        seg <> EmptyString -> contains_slash seg = false ->
        contains "/Content/" pre = true ->
        contains "/Content/" ("Content/" ++ rest) = false ->
        rewrite_content (pre ++ seg ++ "/Content/" ++ rest)
        = (effective_root seg ++ "/" ++ rest)%string).
Proof.
  intros H.
  specialize (H "A/Content/" "B-x" "C").
  assert (K : rewrite_content "A/Content/B-x/Content/C" = "A/B-x/Content/C")
    by (vm_compute; reflexivity).
  change ("A/Content/" ++ "B-x" ++ "/Content/" ++ "C")%string
    with "A/Content/B-x/Content/C" in H.
  rewrite H in K; [|reflexivity|discriminate|reflexivity|reflexivity
                   |reflexivity].
  vm_compute in K. discriminate K.
Qed.

(** C9, amended: when a raw path (one line of text) has several
    [/Content/] and the path segment right before the last of them is
    made of word characters only, the content rewrite splits at that
    last occurrence: that segment is the root name, all that precedes it
    is the junk and is dropped, and the result is the root name (after
    the override table), a slash and what follows the last
    [/Content/]. *)
Theorem content_split_at_last (pre w rest : string) :
  is_empty pre || ends_with_slash pre = true ->
  all_in is_any pre = true ->
  w <> EmptyString -> all_in is_word w = true ->
  all_in is_any rest = true ->
  contains "/Content/" ("Content/" ++ rest) = false ->
  (exists m,
      re_match re_normalize_content (pre ++ w ++ "/Content/" ++ rest) = Some m
      /\ group m "junk" = (if is_empty pre then None else Some pre)
      /\ group m "firstpart" = Some w
      /\ group m "lastpart" = Some rest)
  /\ rewrite_content (pre ++ w ++ "/Content/" ++ rest)
     = (effective_root w ++ "/" ++ rest)%string.
Proof.
  intros Hpre Apre Hw Aw Ar Hc.
  assert (M := content_match pre w rest Hpre Apre Hw Aw Ar Hc).
  split.
  - eexists. split; [exact M|].
    unfold group. cbn [groups]. destruct (is_empty pre); repeat split.
  - unfold rewrite_content. rewrite M. unfold group_or_empty, group.
    cbn [groups]. reflexivity.
Qed.

Lemma content_split_at_last_witness :
  rewrite_content "Mods/Content/Extra/OakGame/Content/Maps/Content/Town.umap"
  = "Maps/Town.umap".
Proof.
  apply (proj2 (content_split_at_last "Mods/Content/Extra/OakGame/Content/"
                                      "Maps" "Town.umap"
                                      eq_refl eq_refl
                                      ltac:(discriminate) eq_refl eq_refl
                                      eq_refl)).
Defined.

(** ** The file system: removing a directory *)

Lemma find_drop_entry (c c' : string) (es : list (string * node)) :
  find_entry c' (drop_entry c es)
  = if String.eqb c c' then None else find_entry c' es.
Proof.
  induction es as [|[k x] es IH]; simpl.
  - now destruct (String.eqb c c').
  - destruct (String.eqb_spec k c) as [->|Hk].
    + rewrite IH. destruct (String.eqb_spec c c'); reflexivity.
    + simpl. rewrite IH.
      destruct (String.eqb_spec k c') as [->|Hk'];
        destruct (String.eqb_spec c c'); congruence.
Qed.

Lemma find_alter_entry (f : option node -> option node) (c c' : string)
      (es : list (string * node)) :
  find_entry c' (alter_entry f c es)
  = if String.eqb c c' then f (find_entry c es) else find_entry c' es.
Proof.
  induction es as [|[k x] es IH]; simpl.
  - destruct (f None) as [y|]; simpl.
    + destruct (String.eqb c c'); reflexivity.
    + destruct (String.eqb c c'); reflexivity.
  - destruct (String.eqb_spec k c) as [->|Hk].
    + destruct (f (Some x)) as [y|]; simpl.
      * destruct (String.eqb c c'); reflexivity.
      * rewrite find_drop_entry. destruct (String.eqb c c'); reflexivity.
    + simpl. rewrite IH.
      destruct (String.eqb_spec k c') as [->|Hk'];
        destruct (String.eqb_spec c c'); congruence.
Qed.

(** What is found once [p] has been removed was there before, and was of
    the same kind. *)
Lemma get_del_before (p : list string) :
  forall (rt : node) (q : list string) (x : node),
    get (del p rt) q = Some x ->
    exists y, get rt q = Some y /\ is_dir (Some x) = is_dir (Some y).
Proof.
  unfold del. induction p as [|c p' IH]; intros rt q x H.
  - exists x. now split.
  - destruct rt as [d|es]; [exists x; now split|].
    destruct q as [|c' q'].
    + simpl in H. injection H as <-. exists (Dir es).
      split; [reflexivity|]. now destruct p'.
    + assert (E : get (alter_at (fun _ => None) (c :: p') (Dir es)) (c' :: q')
                  = match find_entry c'
                            (alter_entry
                               (match p' with
                                | [] => fun _ => None
                                | _ :: _ =>
                                    option_map (alter_at (fun _ => None) p')
                                end) c es) with
                    | Some z => get z q'
                    | None => None
                    end) by (destruct p'; reflexivity).
      rewrite E in H. clear E. rewrite find_alter_entry in H.
      simpl. destruct (String.eqb_spec c c') as [<-|Hc].
      * destruct p' as [|c2 p'']; [discriminate H|].
        destruct (find_entry c es) as [z|]; [|discriminate H].
        simpl in H. apply IH in H. exact H.
      * destruct (find_entry c' es) as [z|]; [|discriminate H].
        exists x. now split.
Qed.

Lemma get_del_self (p : list string) :
  p <> [] -> forall rt : node, get (del p rt) p = None.
Proof.
  unfold del. induction p as [|c p' IH]; intros Hp rt; [congruence|].
  destruct rt as [d|es]; [reflexivity|].
  assert (E : get (alter_at (fun _ => None) (c :: p') (Dir es)) (c :: p')
              = match find_entry c
                        (alter_entry
                           (match p' with
                            | [] => fun _ => None
                            | _ :: _ =>
                                option_map (alter_at (fun _ => None) p')
                            end) c es) with
                | Some z => get z p'
                | None => None
                end) by (destruct p'; reflexivity).
  rewrite E. clear E. rewrite find_alter_entry, String.eqb_refl.
  destruct p' as [|c2 p'']; [reflexivity|].
  destruct (find_entry c es) as [z|]; [|reflexivity].
  simpl option_map. cbv iota beta. apply IH. discriminate.
Qed.

Lemma is_dir_del_before (p : list string) (rt : node) (q : list string) :
  is_dir (get (del p rt) q) = true -> is_dir (get rt q) = true.
Proof.
  destruct (get (del p rt) q) as [x|] eqn:E; [|discriminate].
  destruct (get_del_before _ _ _ _ E) as (y & -> & K). congruence.
Qed.

Lemma walk_del_before (p : list string) (rt : node) (comps : list string) :
  forall cur q,
    walk (del p rt) cur comps = Some q -> walk rt cur comps = Some q.
Proof.
  induction comps as [|c cs IH]; intros cur q H; [exact H|].
  simpl in *.
  destruct (is_dir (get (del p rt) cur)) eqn:E; [|discriminate H].
  rewrite (is_dir_del_before _ _ _ E).
  destruct (String.eqb c "" || String.eqb c "."); [now apply IH|].
  destruct (String.eqb c ".."); now apply IH.
Qed.

Lemma exists_del_before (p : list string) (fs : FS) (path : string) :
  os_path_exists path (mkFS (del p (root fs)) (cwd fs)) = true ->
  os_path_exists path fs = true.
Proof.
  unfold os_path_exists, lookup, resolve. simpl.
  destruct (is_empty path); [discriminate|].
  destruct (walk (del p (root fs)) _ _) as [q|] eqn:E; [|discriminate].
  rewrite (walk_del_before _ _ _ _ _ E).
  destruct (get (del p (root fs)) q) as [x|] eqn:G; [|discriminate].
  destruct (get_del_before _ _ _ _ G) as (y & -> & _). reflexivity.
Qed.

Lemma lookup_del_self (p : list string) (fs : FS) (path : string) :
  resolve fs path = Some p -> p <> [] ->
  lookup (mkFS (del p (root fs)) (cwd fs)) path = None.
Proof.
  unfold lookup, resolve. simpl. intros H Hp.
  destruct (is_empty path); [discriminate|].
  destruct (walk (del p (root fs)) _ _) as [q|] eqn:E; [|reflexivity].
  apply walk_del_before in E. rewrite E in H. injection H as ->.
  now apply get_del_self.
Qed.

(** ** The merger on an empty staging directory *)

Lemma move_all_absent (temp_folder final_folder : string) (items : dict)
      (fs : FS) :
  Forall (absent temp_folder fs) items ->
  move_all temp_folder final_folder items fs = Ok fs.
Proof.
  induction 1 as [|[k v] items Hk _ IH]; [reflexivity|].
  simpl. unfold absent in Hk. simpl in Hk. rewrite Hk. exact IH.
Qed.

Lemma delete_empty_dirs_empty (depth : nat) (folder : string) (fs : FS)
      (p : list string) :
  resolve fs folder = Some p -> get (root fs) p = Some (Dir []) ->
  p <> [] ->
  delete_empty_dirs (S depth) folder true fs
  = Ok (true, mkFS (del p (root fs)) (cwd fs)).
Proof.
  intros Hr Hg Hp. simpl.
  unfold os_listdir, lookup. rewrite Hr, Hg. simpl.
  unfold os_rmdir. rewrite Hr, Hg.
  destruct p; [congruence|reflexivity].
Qed.

(** ** Raw names under an empty staging directory *)

Lemma split_slash_cons (s : string) :
  exists h t, split_slash s = h :: t.
Proof.
  induction s as [|c s (h & t & IH)]; simpl.
  - now exists "", [].
  - destruct (Ascii.eqb c slash); [now eexists; eexists|].
    rewrite IH. now eexists; eexists.
Qed.

Lemma split_slash_app (a b : string) :
  split_slash (a ++ String slash b) = split_slash a ++ split_slash b.
Proof.
  induction a as [|c a IH]; simpl.
  - reflexivity.
  - destruct (Ascii.eqb c slash); [now rewrite IH|].
    rewrite IH. destruct (split_slash_cons a) as (h & t & ->). reflexivity.
Qed.

Lemma walk_app (rt : node) (c1 c2 : list string) :
  forall cur,
    walk rt cur (c1 ++ c2)
    = match walk rt cur c1 with
      | Some q => walk rt q c2
      | None => None
      end.
Proof.
  induction c1 as [|c c1 IH]; intros cur; simpl; [reflexivity|].
  destruct (is_dir (get rt cur)); [|reflexivity].
  destruct (String.eqb c "" || String.eqb c "."); [apply IH|].
  destruct (String.eqb c ".."); apply IH.
Qed.

Lemma get_app (rt : node) (p q : list string) :
  get rt (p ++ q)
  = match get rt p with
    | Some n => get n q
    | None => None
    end.
Proof.
  revert rt. induction p as [|c p IH]; intros rt; simpl; [reflexivity|].
  destruct rt as [d|es]; [reflexivity|].
  destruct (find_entry c es); [apply IH|reflexivity].
Qed.

(** Below an empty directory a relative name leads nowhere. *)
Lemma walk_from_empty (rt : node) (p : list string) (k : string) :
  get rt p = Some (Dir []) -> relative_name k = true ->
  match walk rt p (split_slash k) with
  | Some q => get rt q
  | None => None
  end = None.
Proof.
  intros Hg Hk. unfold relative_name, first_segment in Hk.
  destruct (split_slash k) as [|c cs]; [discriminate Hk|].
  simpl in Hk. simpl. rewrite Hg. simpl.
  destruct (String.eqb c "" || String.eqb c ".") eqn:E1.
  - destruct (String.eqb c ""), (String.eqb c "."); discriminate.
  - destruct (String.eqb c "..") eqn:E2.
    + rewrite orb_true_r in Hk. discriminate Hk.
    + assert (N : get rt (p ++ [c]) = None)
        by (rewrite get_app, Hg; reflexivity).
      destruct cs as [|c' cs]; simpl; [exact N|].
      now rewrite N.
Qed.

Lemma is_abs_app (a b : string) :
  a <> EmptyString -> is_abs (a ++ b) = is_abs a.
Proof. destruct a; [congruence|reflexivity]. Qed.

Lemma is_empty_app (a b : string) :
  a <> EmptyString -> is_empty (a ++ b) = false.
Proof. destruct a; [congruence|reflexivity]. Qed.

Lemma relative_not_abs (k : string) : relative_name k = true -> is_abs k = false.
Proof.
  destruct k as [|c k]; [reflexivity|].
  unfold relative_name, first_segment. simpl.
  destruct (Ascii.eqb c slash); [discriminate|reflexivity].
Qed.

Lemma absent_in_empty (temp_folder : string) (fs : FS) (p : list string)
      (item : string * string) :
  resolve fs temp_folder = Some p -> get (root fs) p = Some (Dir []) ->
  relative_name (fst item) = true ->
  absent temp_folder fs item.
Proof.
  intros Hr Hg Hk. unfold absent. set (k := fst item) in *.
  unfold resolve in Hr.
  destruct temp_folder as [|c0 t0]; [discriminate Hr|].
  set (tmp := String c0 t0) in *.
  assert (Ht : tmp <> EmptyString) by discriminate.
  change (is_empty tmp) with false in Hr. cbv iota in Hr.
  unfold os_path_exists, lookup, resolve, os_path_join.
  rewrite (relative_not_abs _ Hk).
  change (is_empty tmp) with false. cbn [orb].
  destruct (ends_with_slash tmp) eqn:Es.
  - destruct (ends_with_slash_inv _ Es) as (t1 & E).
    rewrite is_empty_app, is_abs_app by exact Ht.
    rewrite E in Hr |- *. change (t1 ++ "/")%string
      with (t1 ++ String slash "")%string in *.
    rewrite append_assoc. cbn [append].
    rewrite split_slash_app in Hr |- *. rewrite walk_app in Hr |- *.
    destruct (walk (root fs) _ (split_slash t1)) as [q|]; [|reflexivity].
    simpl in Hr. destruct (is_dir (get (root fs) q)); [|discriminate Hr].
    injection Hr as ->.
    now rewrite (walk_from_empty _ _ _ Hg Hk).
  - change (tmp ++ "/" ++ k)%string with (tmp ++ String slash k)%string.
    rewrite is_empty_app, is_abs_app by exact Ht.
    rewrite split_slash_app, walk_app, Hr.
    now rewrite (walk_from_empty _ _ _ Hg Hk).
Qed.

(** C1, as the claim states it, fails: on an empty staging directory the
    merge removes the directory, so the file system is not what it was
    (and a second merge then finds no directory to list). *)
Lemma merge_noop_counterexample :
  ~ (forall temp_folder final_folder filename_mapping fs,
        lookup fs temp_folder = Some (Dir []) ->
        normalize_pak_files 1000 temp_folder final_folder filename_mapping fs
        = Ok fs).
Proof.
  intros H.
  specialize (H "/out/_unpack_wl_tmp" "/out"
                [("Foo/Bar.uasset", "Game/Foo/Bar.uasset")]
                (mkFS (Dir [("out", Dir [("Game", Dir []);
                                         ("_unpack_wl_tmp", Dir [])])]) [])
                eq_refl).
  assert (K : normalize_pak_files 1000 "/out/_unpack_wl_tmp" "/out"
                [("Foo/Bar.uasset", "Game/Foo/Bar.uasset")]
                (mkFS (Dir [("out", Dir [("Game", Dir []);
                                         ("_unpack_wl_tmp", Dir [])])]) [])
              = Ok (mkFS (Dir [("out", Dir [("Game", Dir [])])]) []))
    by (vm_compute; reflexivity).
  rewrite H in K. discriminate K.
Qed.

Lemma merge_absent (depth : nat)
      (temp_folder final_folder : string) (filename_mapping : dict)
      (fs : FS) (p : list string) :
  resolve fs temp_folder = Some p ->
  get (root fs) p = Some (Dir []) ->
  p <> [] ->
  Forall (absent temp_folder fs) filename_mapping ->
  let fs' := mkFS (del p (root fs)) (cwd fs) in
  move_all temp_folder final_folder filename_mapping fs = Ok fs
  /\ normalize_pak_files (S depth) temp_folder final_folder
                         filename_mapping fs = Ok fs'
  /\ fs' <> fs
  /\ os_path_exists temp_folder fs' = false
  /\ normalize_pak_files (S depth) temp_folder final_folder
                         filename_mapping fs'
     = Raise (FileNotFoundError temp_folder).
Proof.
  intros Hr Hg Hp Ha fs'.
  assert (M := move_all_absent temp_folder final_folder _ _ Ha).
  assert (L : lookup fs' temp_folder = None)
    by (apply lookup_del_self; assumption).
  split; [exact M|]. split; [|split; [|split]].
  - unfold normalize_pak_files. rewrite M. cbn [bind].
    rewrite (delete_empty_dirs_empty depth _ _ _ Hr Hg Hp). reflexivity.
  - intros E. assert (G := get_del_self p Hp (root fs)).
    change (del p (root fs)) with (root fs') in G.
    rewrite E, Hg in G. discriminate G.
  - unfold os_path_exists. now rewrite L.
  - assert (M' : move_all temp_folder final_folder filename_mapping fs'
                 = Ok fs').
    { apply move_all_absent.
      apply Forall_impl with (2 := Ha). intros item Hi. unfold absent in *.
      destruct (os_path_exists _ fs') eqn:E; [|reflexivity].
      apply exists_del_before in E. congruence. }
    unfold normalize_pak_files. rewrite M'. cbn [bind].
    cbn [delete_empty_dirs]. unfold os_listdir. rewrite L. reflexivity.
Qed.

(** A raw name that is not a relative name can name something although
    the staging directory is empty: the empty name is the staging
    directory itself, which is then moved away. *)
Example merge_empty_raw_name :
  move_all "/out/_unpack_wl_tmp" "/out" [("", "Game/Foo")]
    (mkFS (Dir [("out", Dir [("_unpack_wl_tmp", Dir [])])]) [])
  = Ok (mkFS (Dir [("out", Dir [("Game", Dir [("Foo", Dir [])])])]) []).
Proof. vm_compute; reflexivity. Qed.

(** C1, amended: on a staging directory that exists and is empty (and is
    not the root of the file system), and for every name mapping whose
    raw names are relative names, the merge succeeds and moves nothing,
    but removes the staging directory itself; this changes the file
    system, and a second merge in a row raises [FileNotFoundError], the
    directory being gone until the extractor makes it again. *)
Theorem merge_on_empty_staging (depth : nat)
        (temp_folder final_folder : string) (filename_mapping : dict)
        (fs : FS) (p : list string) :
  resolve fs temp_folder = Some p ->
  get (root fs) p = Some (Dir []) ->
  p <> [] ->
  Forall (fun item => relative_name (fst item) = true) filename_mapping ->
  let fs' := mkFS (del p (root fs)) (cwd fs) in
  move_all temp_folder final_folder filename_mapping fs = Ok fs
  /\ normalize_pak_files (S depth) temp_folder final_folder
                         filename_mapping fs = Ok fs'
  /\ fs' <> fs
  /\ os_path_exists temp_folder fs' = false
  /\ normalize_pak_files (S depth) temp_folder final_folder
                         filename_mapping fs'
     = Raise (FileNotFoundError temp_folder).
Proof.
  intros Hr Hg Hp Hk. apply merge_absent; try assumption.
  apply Forall_impl with (2 := Hk). intros item Hi.
  now apply (absent_in_empty temp_folder fs p).
Qed.

Lemma merge_on_empty_staging_witness :
  normalize_pak_files 1000 "_unpack_wl_tmp" "/out"
    [("Foo/Bar.uasset", "Game/Foo/Bar.uasset"); ("Baz.umap", "Game/Baz.umap")]
    (mkFS (Dir [("out", Dir [("Game", Dir [("Old.uasset", File "v1")]);
                             ("_unpack_wl_tmp", Dir [])])]) ["out"])
  = Ok (mkFS (Dir [("out", Dir [("Game", Dir [("Old.uasset", File "v1")])])])
             ["out"])
  /\ normalize_pak_files 1000 "_unpack_wl_tmp" "/out"
       [("Foo/Bar.uasset", "Game/Foo/Bar.uasset");
        ("Baz.umap", "Game/Baz.umap")]
       (mkFS (Dir [("out", Dir [("Game", Dir [("Old.uasset", File "v1")])])])
             ["out"])
     = Raise (FileNotFoundError "_unpack_wl_tmp").
Proof.
  assert (H := merge_on_empty_staging 999 "_unpack_wl_tmp" "/out"
    [("Foo/Bar.uasset", "Game/Foo/Bar.uasset"); ("Baz.umap", "Game/Baz.umap")]
    (mkFS (Dir [("out", Dir [("Game", Dir [("Old.uasset", File "v1")]);
                             ("_unpack_wl_tmp", Dir [])])]) ["out"])
    ["out"; "_unpack_wl_tmp"]).
  destruct H as (_ & H1 & _ & _ & H2).
  - reflexivity.
  - reflexivity.
  - discriminate.
  - repeat constructor.
  - split; [exact H1|exact H2].
Defined.

(** * Properties of the rest of the code *)

(** ** The order of keys is a strict weak order *)

Lemma tuple_lt_irrefl (a : Q * Z) : tuple_lt a a = false.
Proof.
  destruct (tuple_lt a a) eqn:E; [|reflexivity].
  apply tuple_lt_spec in E. destruct E as [E | [_ E]].
  - now apply Qlt_irrefl in E.
  - lia.
Qed.

Lemma tuple_lt_asym (a b : Q * Z) :
  tuple_lt a b = true -> tuple_lt b a = false.
Proof.
  intros H. destruct (tuple_lt b a) eqn:E; [|reflexivity].
  assert (K := tuple_lt_trans _ _ _ H E).
  now rewrite tuple_lt_irrefl in K.
Qed.

Lemma tuple_unordered (a b : Q * Z) :
  tuple_lt a b = false -> tuple_lt b a = false ->
  (fst a == fst b)%Q /\ snd a = snd b.
Proof.
  intros H1 H2.
  assert (N1 : ~ ((fst a < fst b)%Q
                  \/ ((fst a == fst b)%Q /\ snd a < snd b)))
    by (rewrite <- tuple_lt_spec; congruence).
  assert (N2 : ~ ((fst b < fst a)%Q
                  \/ ((fst b == fst a)%Q /\ snd b < snd a)))
    by (rewrite <- tuple_lt_spec; congruence).
  destruct (Q_dec (fst a) (fst b)) as [[L | G] | E].
  - exfalso. apply N1. now left.
  - exfalso. apply N2. now left.
  - split; [exact E|].
    destruct (Z.lt_trichotomy (snd a) (snd b)) as [L | [K | G]].
    + exfalso. apply N1. now right.
    + exact K.
    + exfalso. apply N2. right. split; [now symmetry|exact G].
Qed.

Lemma tuple_equal_unordered (a b : Q * Z) :
  (fst a == fst b)%Q -> snd a = snd b ->
  tuple_lt a b = false /\ tuple_lt b a = false.
Proof.
  intros E K. split.
  - destruct (tuple_lt a b) eqn:H; [|reflexivity].
    apply tuple_lt_spec in H. destruct H as [H | [_ H]].
    + rewrite E in H. now apply Qlt_irrefl in H.
    + lia.
  - destruct (tuple_lt b a) eqn:H; [|reflexivity].
    apply tuple_lt_spec in H. destruct H as [H | [_ H]].
    + rewrite E in H. now apply Qlt_irrefl in H.
    + lia.
Qed.

Lemma tuple_unordered_iff (a b : Q * Z) :
  (tuple_lt a b = false /\ tuple_lt b a = false)
  <-> ((fst a == fst b)%Q /\ snd a = snd b).
Proof.
  split.
  - intros [H1 H2]. now apply tuple_unordered.
  - intros [H1 H2]. now apply tuple_equal_unordered.
Qed.

(** "Not after" is transitive. *)
Lemma tuple_le_trans (a b c : Q * Z) :
  tuple_lt b a = false -> tuple_lt c b = false -> tuple_lt c a = false.
Proof.
  intros H1 H2. destruct (tuple_lt c a) eqn:E; [|reflexivity].
  exfalso.
  destruct (tuple_lt a b) eqn:Eab.
  - rewrite (tuple_lt_trans _ _ _ E Eab) in H2. discriminate H2.
  - destruct (tuple_unordered _ _ Eab H1) as [Q1 Z1].
    apply tuple_lt_spec in E.
    assert (K : tuple_lt c b = true).
    { apply tuple_lt_spec. destruct E as [E | [E E']].
      - left. now rewrite <- Q1.
      - right. split; [now rewrite <- Q1|lia]. }
    rewrite K in H2. discriminate H2.
Qed.

(** X1: in both scripts [<] on archives is a strict weak order on the
    keys: no archive is before itself, two archives are never each
    before the other, and neither is before the other exactly when
    their keys (paknum, patchnum) are equal. *)
Theorem pakfile_lt_strict_weak :
  (forall a : PakFile, PakFile_lt a a = false)
  /\ (forall a b : PakFile, PakFile_lt a b = true -> PakFile_lt b a = false)
  /\ (forall a b : PakFile,
         (PakFile_lt a b = false /\ PakFile_lt b a = false)
         <-> ((paknum a == paknum b)%Q /\ patchnum a = patchnum b))
  /\ (forall a : Paksort.PakFile, Paksort.PakFile_lt a a = false)
  /\ (forall a b : Paksort.PakFile,
         Paksort.PakFile_lt a b = true -> Paksort.PakFile_lt b a = false)
  /\ (forall a b : Paksort.PakFile,
         (Paksort.PakFile_lt a b = false /\ Paksort.PakFile_lt b a = false)
         <-> ((Paksort.paknum a == Paksort.paknum b)%Q
              /\ Paksort.patchnum a = Paksort.patchnum b)).
Proof.
  split; [intros a; apply tuple_lt_irrefl|].
  split; [intros a b; apply tuple_lt_asym|].
  split; [intros a b; apply (tuple_unordered_iff (_, _) (_, _))|].
  split; [intros a; apply tuple_lt_irrefl|].
  split; [intros a b; apply tuple_lt_asym|].
  intros a b; apply (tuple_unordered_iff (_, _) (_, _)).
Qed.

Lemma pakfile_lt_strict_weak_witness :
  PakFile_lt (mkPakFile "pakchunk1-WindowsNoEditor_2_P.pak" 1 2 0)
             (mkPakFile "pakchunk1-WindowsNoEditor.pak" 1 (-1) 0) = false.
Proof.
  apply (proj1 (proj2 pakfile_lt_strict_weak)). vm_compute; reflexivity.
Defined.

(** ** [sorted] on a strict weak order *)

Section Sorting.

Variable A : Type.
Variable lt : A -> A -> bool.

Hypothesis lt_asym : forall a b, lt a b = true -> lt b a = false.
Hypothesis le_trans : forall a b c,
    lt b a = false -> lt c b = false -> lt c a = false.

Let le (a b : A) : Prop := lt b a = false.

Lemma insert_by_perm (x : A) (l : list A) :
  Permutation (insert_by lt x l) (x :: l).
Proof.
  induction l as [|y l IH]; simpl; [reflexivity|].
  destruct (lt x y); [reflexivity|].
  rewrite IH. apply perm_swap.
Qed.

Lemma insert_by_sorted (x : A) (l : list A) :
  StronglySorted le l -> StronglySorted le (insert_by lt x l).
Proof.
  induction 1 as [|y l Hs IH Hy]; simpl.
  - constructor; constructor.
  - destruct (lt x y) eqn:E.
    + constructor; [now constructor|].
      assert (Hxy : le x y) by (apply lt_asym; exact E).
      constructor; [exact Hxy|].
      apply Forall_impl with (2 := Hy). intros z Hz.
      unfold le in *. now apply le_trans with y.
    + constructor; [exact IH|].
      rewrite insert_by_perm. constructor; [exact E|exact Hy].
Qed.

Lemma fold_insert_perm (l : list A) :
  forall acc,
    Permutation (fold_left (fun acc x => insert_by lt x acc) l acc)
                (acc ++ l).
Proof.
  induction l as [|x l IH]; intros acc; simpl.
  - now rewrite app_nil_r.
  - rewrite IH, insert_by_perm. apply Permutation_middle.
Qed.

Lemma fold_insert_sorted (l : list A) :
  forall acc,
    StronglySorted le acc ->
    StronglySorted le (fold_left (fun acc x => insert_by lt x acc) l acc).
Proof.
  induction l as [|x l IH]; intros acc H; simpl; [exact H|].
  apply IH. now apply insert_by_sorted.
Qed.

Lemma sorted_by_perm (l : list A) : Permutation (sorted_by lt l) l.
Proof. unfold sorted_by. now rewrite fold_insert_perm. Qed.

Lemma sorted_by_sorted (l : list A) : StronglySorted le (sorted_by lt l).
Proof. apply fold_insert_sorted. constructor. Qed.

(** Stability: the elements unordered with [z] keep their order. *)
Lemma unordered_lt_l (z x y : A) :
  unordered lt z x = true -> lt x y = true -> lt z y = true.
Proof.
  unfold unordered. intros U H. apply andb_prop in U.
  destruct U as [U1 U2]. apply negb_true_iff in U1, U2.
  destruct (lt z y) eqn:E; [reflexivity|].
  rewrite (le_trans _ _ _ E U2) in H. discriminate H.
Qed.

Lemma insert_by_stable (z x : A) (l : list A) :
  StronglySorted le l ->
  filter (unordered lt z) (insert_by lt x l)
  = filter (unordered lt z) l ++ (if unordered lt z x then [x] else []).
Proof.
  induction 1 as [|y l Hs IH Hy]; simpl; [reflexivity|].
  destruct (lt x y) eqn:E; simpl.
  - destruct (unordered lt z x) eqn:U.
    + assert (Hzy : lt z y = true) by (eapply unordered_lt_l; eassumption).
      assert (N : forall w, le y w -> unordered lt z w = false).
      { intros w Hw. unfold unordered.
        destruct (lt z w) eqn:Ezw; [reflexivity|].
        unfold le in Hw. rewrite (le_trans _ _ _ Hw Ezw) in Hzy.
        discriminate Hzy. }
      rewrite (N y) by (unfold le; destruct (lt y y) eqn:K;
                        [now rewrite (lt_asym _ _ K) in K|reflexivity]).
      assert (F : filter (unordered lt z) l = []).
      { clear IH Hs. induction Hy as [|w l Hw _ IHl]; simpl; [reflexivity|].
        now rewrite (N w Hw). }
      rewrite F. reflexivity.
    + now rewrite app_nil_r.
  - rewrite IH. now destruct (unordered lt z y).
Qed.

Lemma fold_insert_stable (z : A) (l : list A) :
  forall acc,
    StronglySorted le acc ->
    filter (unordered lt z) (fold_left (fun acc x => insert_by lt x acc) l acc)
    = filter (unordered lt z) acc ++ filter (unordered lt z) l.
Proof.
  induction l as [|x l IH]; intros acc H; simpl.
  - now rewrite app_nil_r.
  - rewrite IH by now apply insert_by_sorted.
    rewrite insert_by_stable by exact H.
    rewrite <- app_assoc. now destruct (unordered lt z x).
Qed.

Lemma sorted_by_stable (z : A) (l : list A) :
  filter (unordered lt z) (sorted_by lt l) = filter (unordered lt z) l.
Proof. unfold sorted_by. rewrite fold_insert_stable; [reflexivity|constructor]. Qed.

End Sorting.

(** ** The order of processing and the main program of [paksort.py] *)

Lemma PakFile_lt_asym (a b : PakFile) :
  PakFile_lt a b = true -> PakFile_lt b a = false.
Proof. apply tuple_lt_asym. Qed.

Lemma PakFile_le_trans (a b c : PakFile) :
  PakFile_lt b a = false -> PakFile_lt c b = false -> PakFile_lt c a = false.
Proof. apply (tuple_le_trans (_, _) (_, _) (_, _)). Qed.

Lemma Paksort_lt_asym (a b : Paksort.PakFile) :
  Paksort.PakFile_lt a b = true -> Paksort.PakFile_lt b a = false.
Proof. apply tuple_lt_asym. Qed.

Lemma Paksort_le_trans (a b c : Paksort.PakFile) :
  Paksort.PakFile_lt b a = false -> Paksort.PakFile_lt c b = false ->
  Paksort.PakFile_lt c a = false.
Proof. apply (tuple_le_trans (_, _) (_, _) (_, _)). Qed.

(** X2: the main program of [unpack_wl.py] takes the archives in an
    order that holds each of them once, in which no archive comes before
    one whose key is smaller, and in which archives that [<] does not
    order keep the order in which they were found. *)
Theorem processing_order_sorted (all_pak_files : list PakFile) :
  Permutation (processing_order all_pak_files) all_pak_files
  /\ StronglySorted (fun a b => PakFile_lt b a = false)
                    (processing_order all_pak_files)
  /\ (forall z,
         filter (unordered PakFile_lt z) (processing_order all_pak_files)
         = filter (unordered PakFile_lt z) all_pak_files).
Proof.
  unfold processing_order. split; [|split].
  - apply sorted_by_perm.
  - apply sorted_by_sorted; [exact PakFile_lt_asym|exact PakFile_le_trans].
  - intros z.
    apply sorted_by_stable; [exact PakFile_lt_asym|exact PakFile_le_trans].
Qed.

Lemma paksort_init_filename (fn : string) (pf : Paksort.PakFile) :
  Paksort.PakFile_init fn = Ok pf -> Paksort.filename pf = fn.
Proof.
  unfold Paksort.PakFile_init.
  destruct (re_match Paksort.pak_re fn) as [m|]; [|discriminate].
  destruct (group m "1") as [dg|]; [|discriminate].
  destruct (if Paksort.truthy (group m "2") then _ else _) as [pk|];
    [|discriminate].
  cbn [bind].
  destruct (if Paksort.truthy (group m "3") then _ else _) as [pn|];
    [|discriminate].
  cbn [bind]. intros H. injection H as <-. reflexivity.
Qed.

Lemma read_files_ok (lines : list string) :
  forall files,
    PaksortMain.read_files lines = Ok files ->
    map Paksort.filename files = map strip lines
    /\ Forall (fun pf => Paksort.PakFile_init (Paksort.filename pf) = Ok pf)
              files.
Proof.
  induction lines as [|line rest IH]; intros files H; simpl in H.
  - injection H as <-. split; constructor.
  - destruct (Paksort.PakFile_init (strip line)) as [pf|] eqn:E;
      [|discriminate H].
    cbn [bind] in H.
    destruct (PaksortMain.read_files rest) as [fs|]; [|discriminate H].
    cbn [bind] in H. injection H as <-.
    destruct (IH fs eq_refl) as [I1 I2].
    assert (F := paksort_init_filename _ _ E).
    split.
    + simpl. now rewrite F, I1.
    + constructor; [now rewrite F|exact I2].
Qed.

(** X3: when the main program of [paksort.py] prints, it prints the
    lines it read, stripped, each once, in an order in which no name
    comes before one whose key is smaller; names whose keys are equal
    keep the order of the input. *)
Theorem paksort_main_output (stdin out : list string) :
  PaksortMain.main stdin = Ok out ->
  Permutation out (map strip stdin)
  /\ exists files,
      out = map Paksort.filename files
      /\ Forall (fun pf => Paksort.PakFile_init (Paksort.filename pf) = Ok pf)
                files
      /\ StronglySorted (fun a b => Paksort.PakFile_lt b a = false) files
      /\ exists read,
          PaksortMain.read_files stdin = Ok read
          /\ forall z,
              filter (unordered Paksort.PakFile_lt z) files
              = filter (unordered Paksort.PakFile_lt z) read.
Proof.
  unfold PaksortMain.main. intros H.
  destruct (PaksortMain.read_files stdin) as [files|] eqn:R; [|discriminate H].
  cbn [bind] in H. injection H as <-.
  destruct (read_files_ok _ _ R) as [N I].
  assert (P : Permutation (sorted_by Paksort.PakFile_lt files) files)
    by apply sorted_by_perm.
  split.
  - rewrite <- N. now apply Permutation_map.
  - exists (sorted_by Paksort.PakFile_lt files).
    split; [reflexivity|]. split.
    + apply (Permutation_Forall (Permutation_sym P)). exact I.
    + split.
      * apply sorted_by_sorted;
          [exact Paksort_lt_asym|exact Paksort_le_trans].
      * exists files. split; [reflexivity|]. intros z.
        apply sorted_by_stable;
          [exact Paksort_lt_asym|exact Paksort_le_trans].
Qed.

Lemma paksort_main_output_witness :
  Permutation
    ["pakchunk0-WindowsNoEditor.pak"; "pakchunk0-WindowsNoEditor_0_P.pak";
     "pakchunk0optional-WindowsNoEditor.pak"; "pakchunk1-WindowsNoEditor.pak"]
    (map strip
         [String nl "pakchunk1-WindowsNoEditor.pak";
          "pakchunk0optional-WindowsNoEditor.pak  ";
          "pakchunk0-WindowsNoEditor_0_P.pak";
          String " " "pakchunk0-WindowsNoEditor.pak"]).
Proof.
  apply (paksort_main_output
           [String nl "pakchunk1-WindowsNoEditor.pak";
            "pakchunk0optional-WindowsNoEditor.pak  ";
            "pakchunk0-WindowsNoEditor_0_P.pak";
            String " " "pakchunk0-WindowsNoEditor.pak"]).
  vm_compute; reflexivity.
Defined.


(** ** The extractor: what is checked of the tool's output *)

Lemma count_confirmed_names (lines : list string) :
  count_confirmed lines = List.length (confirmed_names lines).
Proof.
  unfold count_confirmed, is_confirmation.
  induction lines as [|line rest IH]; simpl; [reflexivity|].
  destruct (re_search re_extract line); simpl; now rewrite IH.
Qed.

Lemma extract_loop_spec (expected : list string) (lines : list string) :
  expected <> [] ->
  forall k,
    extract_loop (Some expected) k lines
    = match find (fun f => negb (mem f expected)) (confirmed_names lines) with
      | Some f => Raise (unexpected f)
      | None => Ok (k + List.length (confirmed_names lines))%nat
      end.
Proof.
  intros Hne. assert (T : truthy (Some expected) = true)
    by (destruct expected; [congruence|reflexivity]).
  induction lines as [|line rest IH]; intros k;
    cbn [extract_loop confirmed_names].
  - simpl. f_equal. lia.
  - destruct (re_search re_extract line) as [m|]; [|apply IH].
    rewrite T. cbn [andb not_in find].
    destruct (negb (mem (group_or_empty m "filename") expected));
      [reflexivity|].
    rewrite IH. destruct (find _ _); [reflexivity|].
    simpl. f_equal. lia.
Qed.

Lemma extract_after_launch
      (launch : list string -> FS -> result (list string * FS))
      (self : PakFile) (destination crypto : string)
      (expected : option (list string)) (fs fs1 fs2 : FS)
      (lines : list string) :
  (if negb (os_path_exists destination fs)
   then os_makedirs destination fs else Ok fs) = Ok fs1 ->
  launch [filename self; "-extract"; destination;
          ("-cryptokeys=" ++ crypto)%string] fs1 = Ok (lines, fs2) ->
  extract launch self destination crypto expected fs
  = (_ <- extract_lines expected lines ;; Ok fs2).
Proof.
  intros H1 H2. unfold extract. rewrite H1. cbn [bind]. rewrite H2.
  reflexivity.
Qed.

(** X5: given an expected set that is not empty, the extractor raises
    "Unexpected filename extracted" for the first name the tool confirms
    that is not in the set, whatever the tool writes after it and
    whatever the counts are. *)
Theorem extract_unexpected
        (launch : list string -> FS -> result (list string * FS))
        (self : PakFile) (destination crypto : string)
        (expected : list string) (fs fs1 fs2 : FS)
        (before : list string) (line : string) (after : list string)
        (name : string) :
  expected <> [] ->
  (if negb (os_path_exists destination fs)
   then os_makedirs destination fs else Ok fs) = Ok fs1 ->
  launch [filename self; "-extract"; destination;
          ("-cryptokeys=" ++ crypto)%string] fs1
  = Ok (before ++ line :: after, fs2) ->
  Forall (fun f => mem f expected = true) (confirmed_names before) ->
  option_map (fun m => group_or_empty m "filename")
             (re_search re_extract line) = Some name ->
  mem name expected = false ->
  extract launch self destination crypto (Some expected) fs
  = Raise (unexpected name).
Proof.
  intros Hne H1 H2 Hb Hl Hn.
  rewrite (extract_after_launch _ _ _ _ _ _ _ _ _ H1 H2).
  unfold extract_lines. rewrite (extract_loop_spec _ _ Hne).
  assert (C : forall l1 l2,
             confirmed_names (l1 ++ l2)
             = confirmed_names l1 ++ confirmed_names l2).
  { induction l1 as [|x l1 IH]; intros l2; simpl; [reflexivity|].
    destruct (re_search re_extract x); simpl; now rewrite IH. }
  rewrite C. cbn [confirmed_names].
  destruct (re_search re_extract line) as [m|]; [|discriminate Hl].
  simpl in Hl. injection Hl as Hl. rewrite Hl.
  assert (F : forall l r,
             Forall (fun f => mem f expected = true) l ->
             find (fun f => negb (mem f expected)) (l ++ r)
             = find (fun f => negb (mem f expected)) r).
  { induction 1 as [|x l Hx _ IH]; simpl; [reflexivity|].
    now rewrite Hx. }
  rewrite (F _ _ Hb). cbn [find]. rewrite Hn. reflexivity.
Qed.

Lemma extract_unexpected_witness :
  extract (fun _ fs => Ok (map confirmation ["a"; "x"; "b"; "c"], fs))
          (mkPakFile "pakchunk0-WindowsNoEditor.pak" 0 (-1) 1)
          "/stage" "crypto.json" (Some ["a"; "b"]) (mkFS (Dir []) [])
  = Raise (RuntimeError "Unexpected filename extracted: x").
Proof.
  apply (extract_unexpected _ _ _ _ ["a"; "b"] _
           (mkFS (Dir [("stage", Dir [])]) [])
           (mkFS (Dir [("stage", Dir [])]) [])
           [confirmation "a"] (confirmation "x")
           [confirmation "b"; confirmation "c"] "x").
  - discriminate.
  - vm_compute; reflexivity.
  - reflexivity.
  - vm_compute. repeat constructor.
  - vm_compute; reflexivity.
  - vm_compute; reflexivity.
Defined.

(** X6: given an expected set that is not empty, extraction succeeds
    exactly when every name the tool confirms is in the set and the
    number of confirmations is the size of the set; a name that is
    confirmed twice counts twice, and it is not checked that every
    expected name was confirmed. *)
Theorem extract_succeeds_iff
        (launch : list string -> FS -> result (list string * FS))
        (self : PakFile) (destination crypto : string)
        (expected : list string) (fs fs1 fs2 : FS) (lines : list string) :
  expected <> [] ->
  (if negb (os_path_exists destination fs)
   then os_makedirs destination fs else Ok fs) = Ok fs1 ->
  launch [filename self; "-extract"; destination;
          ("-cryptokeys=" ++ crypto)%string] fs1 = Ok (lines, fs2) ->
  (extract launch self destination crypto (Some expected) fs = Ok fs2
   <-> (Forall (fun f => mem f expected = true) (confirmed_names lines)
        /\ List.length (confirmed_names lines) = List.length expected))
  /\ (forall fs', extract launch self destination crypto (Some expected) fs
                  = Ok fs' -> fs' = fs2).
Proof.
  intros Hne H1 H2.
  rewrite (extract_after_launch _ _ _ _ _ _ _ _ _ H1 H2).
  unfold extract_lines. rewrite (extract_loop_spec _ _ Hne).
  assert (T : truthy (Some expected) = true)
    by (destruct expected; [congruence|reflexivity]).
  rewrite T. cbn [option_map plus].
  assert (F : forall l,
             find (fun f => negb (mem f expected)) l = None
             <-> Forall (fun f => mem f expected = true) l).
  { induction l as [|x l IH]; simpl.
    - split; [constructor|reflexivity].
    - destruct (mem x expected) eqn:E; simpl.
      + rewrite IH. split; [now constructor|now inversion 1].
      + split; [discriminate|]. inversion 1. congruence. }
  destruct (find _ (confirmed_names lines)) as [f|] eqn:Ef; cbn [bind].
  - split; [|discriminate]. split; [discriminate|].
    intros [K _]. apply F in K. congruence.
  - apply F in Ef. unfold check_count.
    destruct expected as [|x l]; [congruence|]. cbn [List.length].
    destruct (Nat.eqb_spec (List.length (confirmed_names lines))
                           (S (List.length l))) as [E|E]; cbn [negb bind].
    + split; [tauto|]. intros fs' H. now injection H.
    + split; [|discriminate]. split; [discriminate|]. tauto.
Qed.

Lemma extract_succeeds_iff_witness :
  extract (fun _ fs => Ok (map confirmation ["a"; "a"], fs))
          (mkPakFile "pakchunk0-WindowsNoEditor.pak" 0 (-1) 1)
          "/stage" "crypto.json" (Some ["a"; "b"]) (mkFS (Dir []) [])
  = Ok (mkFS (Dir [("stage", Dir [])]) []).
Proof.
  refine (proj2 (proj1 (extract_succeeds_iff
                          (fun _ fs => Ok (map confirmation ["a"; "a"], fs))
                          (mkPakFile "pakchunk0-WindowsNoEditor.pak" 0 (-1) 1)
                          "/stage" "crypto.json" ["a"; "b"]
                          (mkFS (Dir []) [])
                          (mkFS (Dir [("stage", Dir [])]) [])
                          (mkFS (Dir [("stage", Dir [])]) [])
                          (map confirmation ["a"; "a"]) _ _ _)) _).
  - discriminate.
  - vm_compute; reflexivity.
  - reflexivity.
  - split; vm_compute; [repeat constructor|reflexivity].
Defined.

(** ** The lister: when it succeeds and what it returns *)

Lemma lister_loop_bound (lines : list string) :
  forall mp d, exists mp' d', lister_loop (Some mp, d) lines = Ok (Some mp', d').
Proof.
  induction lines as [|line rest IH]; intros mp d; cbn [lister_loop].
  - now exists mp, d.
  - unfold lister_step.
    destruct (re_search re_unpack_mount line) as [m|]; cbn [bind].
    + apply IH.
    + destruct (re_search re_unpack_file line) as [m|]; cbn [bind]; apply IH.
Qed.

Lemma lister_loop_mount_first (lines : list string) :
  forall d,
    (exists st, lister_loop (None, d) lines = Ok st)
    <-> mount_first lines = true.
Proof.
  induction lines as [|line rest IH]; intros d;
    cbn [lister_loop mount_first].
  - split; [reflexivity|]. intros _. now eexists.
  - unfold lister_step, is_file_line, is_mount_line.
    destruct (re_search re_unpack_mount line) as [m|]; cbn [bind negb andb].
    + split; [reflexivity|]. intros _.
      destruct (lister_loop_bound
                  rest (set_mountpoint (group_or_empty m "mountpoint")) d)
        as (mp' & d' & E).
      rewrite E. now eexists.
    + destruct (re_search re_unpack_file line) as [m|]; cbn [bind].
      * split; [intros [st H]; discriminate H|discriminate].
      * apply IH.
Qed.

(** X7: the listing of an archive succeeds exactly when, in the tool's
    output, no file line comes before the first mount line; otherwise it
    raises [UnboundLocalError]. *)
Theorem listing_succeeds_iff
        (launch : list string -> result (list string))
        (self : PakFile) (crypto : string) (lines : list string) :
  launch [filename self; "-list"; ("-cryptokeys=" ++ crypto)%string]
  = Ok lines ->
  ((exists d, get_filename_mapping launch self crypto = Ok d)
   <-> mount_first lines = true)
  /\ (mount_first lines = false ->
      get_filename_mapping launch self crypto
      = Raise (UnboundLocalError "mountpoint")).
Proof.
  intros Hl. unfold get_filename_mapping. rewrite Hl. cbn [bind].
  split.
  - split.
    + intros [d H]. apply (lister_loop_mount_first lines []).
      destruct (lister_loop (None, []) lines) as [st|] eqn:E;
        [|discriminate H].
      exists st. exact E.
    + intros Hm. apply (lister_loop_mount_first lines []) in Hm.
      destruct Hm as [st E]. exists (snd st).
      exact (f_equal (fun r => st' <- r ;; Ok (snd st')) E).
  - intros Hm.
    assert (K : forall d, lister_loop (None, d) lines
                          = Raise (UnboundLocalError "mountpoint")).
    { clear Hl. induction lines as [|line rest IH]; intros d;
        [discriminate Hm|].
      cbn [lister_loop mount_first] in *.
      unfold lister_step, is_file_line, is_mount_line in *.
      destruct (re_search re_unpack_mount line); [discriminate Hm|].
      cbn [negb andb] in Hm.
      destruct (re_search re_unpack_file line); cbn [bind];
        [reflexivity|now apply IH]. }
    now rewrite K.
Qed.

Lemma listing_succeeds_iff_witness :
  exists d,
    get_filename_mapping
      (fun _ => Ok [mount_line "../../../OakGame/Content/";
                    file_line "Foo/Bar.uasset"; file_line "Foo/Baz.uasset"])
      (mkPakFile "pakchunk0-WindowsNoEditor.pak" 0 (-1) 1) "crypto.json"
    = Ok d.
Proof.
  apply (proj1 (listing_succeeds_iff
                  (fun _ => Ok [mount_line "../../../OakGame/Content/";
                                file_line "Foo/Bar.uasset";
                                file_line "Foo/Baz.uasset"])
                  _ "crypto.json" _ eq_refl)).
  vm_compute; reflexivity.
Defined.

Lemma dict_set_keys (k v : string) (d : dict) (k' : string) :
  In k' (map fst (dict_set k v d)) <-> k' = k \/ In k' (map fst d).
Proof.
  induction d as [|[k0 v0] d IH]; simpl.
  - intuition.
  - destruct (String.eqb_spec k0 k) as [->|Hk]; simpl.
    + intuition.
    + rewrite IH. intuition.
Qed.

Lemma dict_set_nodup (k v : string) (d : dict) :
  NoDup (map fst d) -> NoDup (map fst (dict_set k v d)).
Proof.
  induction d as [|[k0 v0] d IH]; simpl; intros H.
  - constructor; [intros []|constructor].
  - destruct (String.eqb_spec k0 k) as [->|Hk]; simpl; [exact H|].
    inversion H as [|? ? Hn Hd]. subst. constructor; [|now apply IH].
    rewrite dict_set_keys. intros [E | I]; [congruence|contradiction].
Qed.

Lemma dict_set_items (k v : string) (d : dict) (k' v' : string) :
  In (k', v') (dict_set k v d) -> (k' = k /\ v' = v) \/ In (k', v') d.
Proof.
  induction d as [|[k0 v0] d IH]; simpl.
  - intros [E | []]. injection E as <- <-. now left.
  - destruct (String.eqb_spec k0 k) as [->|Hk]; simpl.
    + intros [E | I]; [injection E as <- <-; now left|now right; right].
    + intros [E | I]; [now right; left|].
      destruct (IH I) as [L | R]; [now left|now right; right].
Qed.

Lemma dict_get_set (k v : string) (d : dict) (k' : string) :
  dict_get k' (dict_set k v d)
  = if String.eqb k k' then Some v else dict_get k' d.
Proof.
  induction d as [|[k0 v0] d IH]; simpl.
  - reflexivity.
  - destruct (String.eqb_spec k0 k) as [->|Hk]; simpl.
    + now destruct (String.eqb k k').
    + rewrite IH. destruct (String.eqb_spec k0 k') as [->|Hk'];
        [|reflexivity].
      destruct (String.eqb_spec k k'); [congruence|reflexivity].
Qed.

Lemma lister_loop_inv (lines : list string) :
  forall mo d mo' d',
    lister_loop (mo, d) lines = Ok (mo', d') ->
    NoDup (map fst d) ->
    NoDup (map fst d')
    /\ (forall k, In k (map fst d') <->
                  In k (map fst d) \/ In k (file_names lines))
    /\ (forall k v, In (k, v) d' ->
                    In (k, v) d
                    \/ exists mp,
                        (mo = Some mp \/ In mp (mount_points lines))
                        /\ v = normalize (mp ++ k)).
Proof.
  induction lines as [|line rest IH]; intros mo d mo' d' H Hd;
    cbn [lister_loop file_names mount_points] in *.
  - injection H as <- <-. split; [exact Hd|]. split.
    + intros k. split; [now left|]. intros [L | []]. exact L.
    + intros k v I. now left.
  - unfold lister_step in H.
    destruct (re_search re_unpack_mount line) as [m|]; cbn [bind] in H.
    + destruct (IH _ _ _ _ H Hd) as (N & K & V).
      split; [exact N|]. split; [exact K|].
      intros k v I. destruct (V k v I) as [L | (mp & [E | Im] & Ev)].
      * now left.
      * injection E as <-. right. eexists. split; [right; now left|exact Ev].
      * right. exists mp. split; [right; now right|exact Ev].
    + destruct (re_search re_unpack_file line) as [m|]; cbn [bind] in H.
      * destruct mo as [mp0|]; [|discriminate H]. cbn [bind] in H.
        destruct (IH _ _ _ _ H (dict_set_nodup _ _ _ Hd)) as (N & K & V).
        split; [exact N|]. split.
        -- intros k1. rewrite K, dict_set_keys. simpl. intuition.
        -- intros k1 v I. destruct (V k1 v I) as [L | (mp & Hmp & Ev)].
           ++ apply dict_set_items in L. destruct L as [[-> ->] | L].
              ** right. exists mp0. split; [now left|reflexivity].
              ** now left.
           ++ right. exists mp. split; [exact Hmp|exact Ev].
      * apply (IH _ _ _ _ H Hd).
Qed.

(** X8: the mapping a listing returns has each name of a file line as a
    key, once, and no other key; the value of a key is the normalised
    path of that name behind one of the mount points the tool
    announced. *)
Theorem listing_mapping
        (launch : list string -> result (list string))
        (self : PakFile) (crypto : string) (lines : list string) (d : dict) :
  launch [filename self; "-list"; ("-cryptokeys=" ++ crypto)%string]
  = Ok lines ->
  get_filename_mapping launch self crypto = Ok d ->
  NoDup (map fst d)
  /\ (forall k, In k (map fst d) <-> In k (file_names lines))
  /\ (forall k v, In (k, v) d ->
                  exists mp, In mp (mount_points lines)
                             /\ v = normalize (mp ++ k)).
Proof.
  intros Hl. unfold get_filename_mapping. rewrite Hl. cbn [bind].
  destruct (lister_loop (None, []) lines) as [[mo' d']|] eqn:E;
    [|discriminate].
  cbn [bind snd]. intros H. injection H as <-.
  destruct (lister_loop_inv _ _ _ _ _ E (NoDup_nil _)) as (N & K & V).
  split; [exact N|]. split.
  - intros k. rewrite K. simpl. intuition.
  - intros k v I. destruct (V k v I) as [[] | (mp & [Em | Im] & Ev)].
    + discriminate Em.
    + now exists mp.
Qed.

Lemma listing_mapping_witness :
  NoDup (map fst [("Foo/Bar.uasset", "Game/Foo/Bar.uasset");
                  ("Foo/Baz.uasset", "Game/Foo/Baz.uasset")]).
Proof.
  refine (proj1 (listing_mapping
                   (fun _ => Ok [mount_line "../../../OakGame/Content/";
                                 file_line "Foo/Bar.uasset";
                                 file_line "Foo/Baz.uasset";
                                 file_line "Foo/Bar.uasset"])
                   (mkPakFile "pakchunk0-WindowsNoEditor.pak" 0 (-1) 1)
                   "crypto.json"
                   [mount_line "../../../OakGame/Content/";
                    file_line "Foo/Bar.uasset";
                    file_line "Foo/Baz.uasset";
                    file_line "Foo/Bar.uasset"]
                   [("Foo/Bar.uasset", "Game/Foo/Bar.uasset");
                    ("Foo/Baz.uasset", "Game/Foo/Baz.uasset")]
                   eq_refl _)).
  vm_compute; reflexivity.
Defined.

Lemma lister_loop_filter (lines : list string) :
  forall st,
    lister_loop st (filter is_listing_line lines) = lister_loop st lines.
Proof.
  induction lines as [|line rest IH]; intros st; [reflexivity|].
  cbn [filter]. unfold is_listing_line, is_file_line, is_mount_line.
  cbn [lister_loop]. unfold lister_step. destruct st as [mo d].
  destruct (re_search re_unpack_mount line) as [m|] eqn:Em;
    cbn [negb andb orb].
  - cbn [lister_loop]. unfold lister_step. rewrite Em. cbn [bind]. apply IH.
  - destruct (re_search re_unpack_file line) as [m|] eqn:Ef.
    + cbn [lister_loop]. unfold lister_step. rewrite Em, Ef.
      destruct mo; cbn [bind]; [apply IH|reflexivity].
    + cbn [bind]. apply IH.
Qed.

(** X9: what the tool writes besides mount lines and file lines has no
    influence on the listing: the result is the one for the output with
    all other lines removed. *)
Theorem listing_ignores_other_lines
        (launch : list string -> result (list string))
        (self : PakFile) (crypto : string) :
  get_filename_mapping launch self crypto
  = get_filename_mapping
      (fun args => lines <- launch args ;; Ok (filter is_listing_line lines))
      self crypto.
Proof.
  unfold get_filename_mapping.
  destruct (launch _) as [lines|]; cbn [bind]; [|reflexivity].
  now rewrite lister_loop_filter.
Qed.

(** ** Paths the normalising patterns do not match *)

Lemma plugins_match_contains (s : string) (m : mobj) :
  re_match re_normalize_plugins s = Some m -> contains "/Plugins/" s = true.
Proof.
  rewrite re_match_mrun. unfold re_normalize_plugins.
  cbn [mrun andb is_empty]. apply wrapped_contains.
Qed.

Lemma content_match_contains (s : string) (m : mobj) :
  re_match re_normalize_content s = Some m -> contains "/Content/" s = true.
Proof.
  rewrite re_match_mrun. unfold re_normalize_content.
  cbn [mrun andb is_empty]. rewrite mrun_junk.
  destruct (greedy is_any s _) as [y|] eqn:G.
  - intros _. apply greedy_sound in G. destruct G as (p & r & -> & G).
    destruct (strip_prefix "/" r) as [r'|] eqn:E; [|discriminate G].
    apply strip_prefix_sound in E. subst r.
    apply wrapped_contains in G.
    apply contains_app_r. now apply contains_app_r.
  - apply wrapped_contains.
Qed.

(** X10: a path in which neither [/Plugins/] nor [/Content/] occurs is
    left as it is by the two rewrites: only the case fixes are applied
    to it. *)
Theorem normalize_passes_through (s : string) :
  contains "/Plugins/" s = false -> contains "/Content/" s = false ->
  strip_plugins s = s /\ rewrite_content s = s /\ normalize s = apply_fixes s.
Proof.
  intros Hp Hc.
  assert (P : strip_plugins s = s).
  { unfold strip_plugins.
    destruct (re_match re_normalize_plugins s) as [m|] eqn:E; [|reflexivity].
    apply plugins_match_contains in E. congruence. }
  assert (C : rewrite_content s = s).
  { unfold rewrite_content.
    destruct (re_match re_normalize_content s) as [m|] eqn:E; [|reflexivity].
    apply content_match_contains in E. congruence. }
  split; [exact P|]. split; [exact C|].
  unfold normalize. now rewrite P, C.
Qed.

Lemma normalize_passes_through_witness :
  normalize "Engine/Config/BaseEngine.ini"
  = apply_fixes "Engine/Config/BaseEngine.ini".
Proof.
  apply (normalize_passes_through "Engine/Config/BaseEngine.ini");
    reflexivity.
Defined.

(** ** [CaseFix.apply] *)

Lemma greedy_sound_all {B : Type} (c : ascii -> bool) (s : string) :
  forall (k : string -> string -> option B) (y : B),
    greedy c s k = Some y ->
    exists p r, s = (p ++ r)%string /\ all_in c p = true /\ k p r = Some y.
Proof.
  induction s as [|a s IH]; intros k y H; simpl in H.
  - now exists "", "".
  - destruct (c a) eqn:Ca; [|now exists "", (String a s)].
    destruct (greedy c s (fun p r => k (String a p) r)) as [z|] eqn:E.
    + injection H as <-. apply IH in E.
      destruct E as (p & r & -> & Ap & E).
      exists (String a p), r. simpl. now rewrite Ca, Ap.
    + now exists "", (String a s).
Qed.

Lemma sub_from_anchored (r' : re) (repl : mobj -> string) (s : string) :
  forall k, sub_from (Bol +> r') repl false k s = drop k s.
Proof.
  induction s as [|a s IH]; intros [|k]; simpl; try reflexivity.
  - now rewrite IH.
  - apply IH.
Qed.

Lemma re_sub_anchored (r' : re) (repl : mobj -> string) (s : string) :
  re_sub (Bol +> r') repl s
  = match re_match (Bol +> r') s with
    | Some m => (repl m ++ drop (String.length (whole m)) s)%string
    | None => s
    end.
Proof.
  unfold re_sub, re_match. destruct s as [|a s].
  - cbn [sub_from]. destruct (first_hit _) as [m|]; [|reflexivity].
    destruct (String.length (whole m)); simpl; now rewrite append_nil_r.
  - cbn [sub_from]. destruct (first_hit _) as [m|].
    + destruct (String.length (whole m)) as [|k].
      * now rewrite sub_from_anchored.
      * now rewrite sub_from_anchored.
    + now rewrite sub_from_anchored.
Qed.

Lemma drop_length_app (s t : string) : drop (String.length s) (s ++ t) = t.
Proof. induction s as [|a s IH]; [reflexivity|exact IH]. Qed.

Lemma at_eol_inv (r : string) : at_eol r = true -> r = EmptyString \/ r = lf.
Proof.
  destruct r as [|c [|c' r]]; simpl; try discriminate.
  - now left.
  - intros H. apply Ascii.eqb_eq in H. subst c. now right.
Qed.

(** The pattern of a [CaseFix], in either shape, as a search. *)
Lemma re_from_mrun (self : CaseFix) (s : string) :
  re_match (re_from self) s
  = match strip_prefix (fix_from self) s with
    | Some rest =>
        greedy (fix_tail self) rest
               (fun p r =>
                  if (if directory self then true
                      else negb (is_empty p)) && at_eol r
                  then Some (MObj (fix_from self ++ p)
                                  [(if directory self then "remaining"
                                    else "ext", p)])
                  else None)
    | None => None
    end.
Proof.
  rewrite re_match_mrun. unfold re_from, fix_from, fix_tail.
  destruct (directory self); cbn [mrun andb is_empty].
  - destruct (strip_prefix _ s) as [rest|]; [|reflexivity].
    apply greedy_ext. intros p r. cbn [long_enough Nat.leb fst].
    destruct (at_eol r); [|reflexivity].
    cbn [mobj_of app append]. now rewrite !append_nil_r.
  - destruct (strip_prefix _ s) as [rest|]; [|reflexivity].
    apply greedy_ext. intros p r. unfold long_enough. cbn [fst].
    destruct p as [|a p]; [reflexivity|]. cbn [String.length Nat.leb negb].
    destruct (at_eol r); [|reflexivity].
    cbn [mobj_of app append]. now rewrite !append_nil_r.
Qed.

Lemma apply_spec (self : CaseFix) (fn : string) :
  apply self fn
  = match re_match (re_from self) fn with
    | Some m => (re_to self m ++ drop (String.length (whole m)) fn)%string
    | None => fn
    end.
Proof.
  unfold apply. unfold re_from.
  destruct (directory self); apply re_sub_anchored.
Qed.

Lemma re_to_spec (self : CaseFix) (p : string) :
  re_to self (MObj (fix_from self ++ p)
                   [(if directory self then "remaining" else "ext", p)])
  = (fix_to self ++ p)%string.
Proof.
  unfold re_to, fix_to, group_or_empty, group.
  destruct (directory self); cbn [groups]; unfold assoc;
    rewrite String.eqb_refl; now rewrite !append_assoc.
Qed.

Lemma apply_on_shape (self : CaseFix) (p r : string) :
  all_in (fix_tail self) p = true ->
  (if directory self then true else negb (is_empty p)) = true ->
  r = EmptyString \/ r = lf ->
  apply self (fix_from self ++ p ++ r) = (fix_to self ++ p ++ r)%string.
Proof.
  intros Ap Hp Hr. rewrite apply_spec, re_from_mrun, strip_prefix_app.
  assert (S : starts_in (fix_tail self) r = false).
  { destruct Hr as [-> | ->]; [reflexivity|].
    unfold fix_tail. now destruct (directory self). }
  erewrite greedy_longest; [|exact Ap|exact S|].
  2:{ rewrite Hp. destruct Hr as [-> | ->]; reflexivity. }
  cbn [whole]. rewrite re_to_spec.
  rewrite <- append_assoc, drop_length_app. now rewrite append_assoc.
Qed.

Lemma apply_off_shape (self : CaseFix) (fn : string) :
  apply self fn <> fn ->
  exists p r,
    fn = (fix_from self ++ p ++ r)%string
    /\ all_in (fix_tail self) p = true
    /\ (if directory self then true else negb (is_empty p)) = true
    /\ (r = EmptyString \/ r = lf).
Proof.
  intros H. rewrite apply_spec, re_from_mrun in H.
  destruct (strip_prefix (fix_from self) fn) as [rest|] eqn:E;
    [|congruence].
  apply strip_prefix_sound in E. subst fn.
  destruct (greedy _ rest _) as [m|] eqn:G; [|congruence].
  apply greedy_sound_all in G. destruct G as (p & r & -> & Ap & G).
  exists p, r. split; [reflexivity|]. split; [exact Ap|].
  destruct (if directory self then true else negb (is_empty p));
    [|discriminate G].
  split; [reflexivity|]. apply at_eol_inv.
  now destruct (at_eol r).
Qed.

Lemma file_rule_spec (self : CaseFix) :
  directory self = false ->
  (forall ext,
      ext <> EmptyString -> all_in is_word ext = true ->
      apply self (dir_name self ++ "/" ++ from_name self ++ "." ++ ext)
      = (dir_name self ++ "/" ++ to_name self ++ "." ++ ext)%string
      /\ apply self (dir_name self ++ "/" ++ from_name self ++ "." ++ ext
                     ++ lf)
         = (dir_name self ++ "/" ++ to_name self ++ "." ++ ext ++ lf)%string)
  /\ (forall fn,
         apply self fn <> fn ->
         exists ext,
           ext <> EmptyString /\ all_in is_word ext = true
           /\ (fn = (dir_name self ++ "/" ++ from_name self ++ "." ++ ext)%string
               \/ fn = (dir_name self ++ "/" ++ from_name self ++ "." ++ ext
                        ++ lf)%string)).
Proof.
  intros Hd.
  assert (F : fix_from self = (dir_name self ++ "/" ++ from_name self ++ ".")%string)
    by (unfold fix_from; now rewrite Hd).
  assert (T : fix_to self = (dir_name self ++ "/" ++ to_name self ++ ".")%string)
    by (unfold fix_to; now rewrite Hd).
  assert (C : fix_tail self = is_word) by (unfold fix_tail; now rewrite Hd).
  assert (Sh : forall x r, (fix_from self ++ x ++ r)%string
                           = (dir_name self ++ "/" ++ from_name self
                              ++ "." ++ x ++ r)%string)
    by (intros; rewrite F; now rewrite !append_assoc).
  assert (Sh' : forall x r, (fix_to self ++ x ++ r)%string
                            = (dir_name self ++ "/" ++ to_name self
                               ++ "." ++ x ++ r)%string)
    by (intros; rewrite T; now rewrite !append_assoc).
  split.
  - intros ext Hne Aw.
    assert (Hp : (if directory self then true else negb (is_empty ext)) = true)
      by (rewrite Hd; now destruct ext).
    rewrite <- C in Aw. split.
    + assert (K := apply_on_shape self ext "" Aw Hp (or_introl eq_refl)).
      rewrite Sh, Sh', append_nil_r in K. exact K.
    + assert (K := apply_on_shape self ext lf Aw Hp (or_intror eq_refl)).
      rewrite Sh, Sh' in K. exact K.
  - intros fn H. apply apply_off_shape in H.
    destruct H as (p & r & -> & Ap & Hp & Hr).
    rewrite Hd in Hp. rewrite C in Ap. exists p.
    split; [now destruct p|]. split; [exact Ap|].
    rewrite Sh. destruct Hr as [-> | ->]; [left|right].
    + now rewrite append_nil_r.
    + reflexivity.
Qed.





(** X13: the case fixes of the normaliser change one file name only:
    a path other than
    [Game/Maps/Dungeons/Boss/Climb/D_Boss_Climb_P.ext] comes out of them
    as it went in, and in that one the [P] becomes [p]. *)
Theorem apply_fixes_only_climb :
  (forall ext,
      ext <> EmptyString -> all_in is_word ext = true ->
      apply_fixes ("Game/Maps/Dungeons/Boss/Climb/D_Boss_Climb_P." ++ ext)
      = ("Game/Maps/Dungeons/Boss/Climb/D_Boss_Climb_p." ++ ext)%string)
  /\ (forall fn,
         apply_fixes fn <> fn ->
         exists ext,
           ext <> EmptyString /\ all_in is_word ext = true
           /\ (fn = ("Game/Maps/Dungeons/Boss/Climb/D_Boss_Climb_P."
                     ++ ext)%string
               \/ fn = ("Game/Maps/Dungeons/Boss/Climb/D_Boss_Climb_P."
                        ++ ext ++ lf)%string)).
Proof.
  destruct (file_rule_spec
              (mkCaseFix "Game/Maps/Dungeons/Boss/Climb" "D_Boss_Climb_P"
                         "D_Boss_Climb_p" false) eq_refl) as [P N].
  split.
  - intros ext Hne Aw. exact (proj1 (P ext Hne Aw)).
  - intros fn H. exact (N fn H).
Qed.

Lemma apply_fixes_only_climb_witness :
  apply_fixes "Game/Maps/Dungeons/Boss/Climb/D_Boss_Climb_P.uexp"
  = "Game/Maps/Dungeons/Boss/Climb/D_Boss_Climb_p.uexp".
Proof.
  apply (proj1 apply_fixes_only_climb "uexp"); [discriminate|reflexivity].
Defined.

(** ** Archive names of the grammar *)

Lemma re_pak_shape :
  re_pak = Bol +> Opt (Grp "dir_prefix" (Rep true 0 is_any +> Chr is_slash))
           +> re_pak_name "datagroup" "optional" "4" "patchnum".
Proof. reflexivity. Qed.

Lemma pak_re_shape :
  Paksort.pak_re = Bol +> re_pak_name "1" "2" "3" "4".
Proof. reflexivity. Qed.

Lemma pak_tail_hit {B : Type} (gs gp : string) (patch : option string)
      (b : bool) (k : hit -> option B) (y : B) :
  match patch with
  | Some p => p <> EmptyString /\ all_in is_digit p = true
  | None => True
  end ->
  k ((patch_suffix patch ++ ".pak")%string, EmptyString,
     match patch with
     | Some p => [(gs, patch_suffix patch); (gp, p)]
     | None => []
     end) = Some y ->
  mrun (re_pak_tail gs gp) b (patch_suffix patch ++ ".pak") k = Some y.
Proof.
  intros Hp Hk. unfold re_pak_tail.
  destruct patch as [p|]; cbn [patch_suffix] in *.
  - destruct Hp as [Hne Ad]. cbn [mrun].
    rewrite !append_assoc. rewrite strip_prefix_app.
    rewrite (greedy_longest is_digit p ("_P" ++ ".pak") Ad eq_refl _ y);
      [reflexivity|].
    rewrite long_enough_1 by exact Hne.
    rewrite strip_prefix_app. cbn [strip_prefix Ascii.eqb Bool.eqb at_eol].
    cbn [app append] in *. exact Hk.
  - cbn. exact Hk.
Qed.

Lemma pak_name_hit {B : Type} (gd go gs gp : string) (d : string)
      (optional : bool) (patch : option string)
      (b : bool) (k : hit -> option B) (y : B) :
  d <> EmptyString -> all_in is_digit d = true ->
  match patch with
  | Some p => p <> EmptyString /\ all_in is_digit p = true
  | None => True
  end ->
  k (pak_stem d optional patch, EmptyString,
     pak_name_groups gd go gs gp d optional patch) = Some y ->
  mrun (re_pak_name gd go gs gp) b (pak_stem d optional patch) k = Some y.
Proof.
  intros Hne Ad Hp Hk. unfold re_pak_name, pak_stem.
  cbn [mrun]. rewrite strip_prefix_app.
  rewrite (greedy_longest is_digit d _ Ad) with (y := y);
    [reflexivity|now destruct optional|].
  rewrite long_enough_1 by exact Hne.
  destruct optional.
  - rewrite strip_prefix_app, strip_prefix_app.
    rewrite (pak_tail_hit gs gp patch _ _ y Hp); [reflexivity|].
    unfold pak_stem, pak_name_groups in Hk.
    rewrite !app_nil_r, <- !app_assoc. exact Hk.
  - cbn [append strip_prefix Ascii.eqb Bool.eqb].
    rewrite (pak_tail_hit gs gp patch _ _ y Hp); [reflexivity|].
    unfold pak_stem, pak_name_groups in Hk.
    rewrite !app_nil_r. cbn [append app] in *. exact Hk.
Qed.

Lemma all_in_impl (f g : ascii -> bool) (s : string) :
  (forall c, f c = true -> g c = true) ->
  all_in f s = true -> all_in g s = true.
Proof.
  intros H. induction s as [|a s IH]; simpl; [reflexivity|].
  intros K. apply andb_prop in K. destruct K as [K1 K2].
  now rewrite (H _ K1), (IH K2).
Qed.

Lemma digit_not_slash (c : ascii) :
  is_digit c = true -> negb (is_slash c) = true.
Proof.
  destruct c as [[] [] [] [] [] [] [] []]; vm_compute; congruence.
Qed.

Lemma patch_ok_inv (patch : option string) :
  patch_ok patch = true ->
  match patch with
  | Some p => p <> EmptyString /\ all_in is_digit p = true
  | None => True
  end.
Proof.
  destruct patch as [p|]; [|trivial]. unfold patch_ok, digits_ok.
  intros H. apply andb_prop in H. destruct H as [H1 H2].
  split; [now destruct p|exact H2].
Qed.

Lemma digits_ok_inv (d : string) :
  digits_ok d = true -> d <> EmptyString /\ all_in is_digit d = true.
Proof.
  unfold digits_ok. intros H. apply andb_prop in H. destruct H as [H1 H2].
  split; [now destruct d|exact H2].
Qed.

Lemma pak_stem_no_slash (d : string) (optional : bool) (patch : option string) :
  digits_ok d = true -> patch_ok patch = true ->
  all_in (fun c => negb (is_slash c)) (pak_stem d optional patch) = true.
Proof.
  intros Hd Hp. apply digits_ok_inv in Hd. destruct Hd as [_ Ad].
  apply patch_ok_inv in Hp.
  assert (D : forall x, all_in is_digit x = true ->
                        all_in (fun c => negb (is_slash c)) x = true)
    by (intros x; apply all_in_impl; exact digit_not_slash).
  unfold pak_stem. rewrite !all_in_app, (D d Ad).
  destruct optional, patch as [p|]; cbn [patch_suffix];
    rewrite ?all_in_app; try rewrite (D p (proj2 Hp)); reflexivity.
Qed.

(** A string without slashes holds no directory. *)
Lemma dir_prefix_none {B : Type} (t : string)
      (F : string -> string -> option B) :
  all_in (fun c => negb (is_slash c)) t = true ->
  (forall p r, starts_in is_slash r = false -> F p r = None) ->
  greedy is_any t F = None.
Proof.
  intros At HF. apply greedy_none. intros p r E. apply HF.
  subst t. rewrite all_in_app in At. apply andb_prop in At.
  destruct At as [_ Ar]. destruct r as [|a r]; [reflexivity|].
  simpl in *. apply andb_prop in Ar. destruct Ar as [Ar _].
  now apply negb_true_iff in Ar.
Qed.

Lemma last_in_inv (c : ascii -> bool) (s : string) :
  last_in c s = true ->
  exists s1 a, s = (s1 ++ String a "")%string /\ c a = true.
Proof.
  induction s as [|a s IH]; [discriminate|].
  destruct s as [|b s].
  - simpl. intros H. now exists "", a.
  - intros H. destruct (IH H) as (s1 & x & E & Hx).
    exists (String a s1), x. simpl. now rewrite <- E.
Qed.

Lemma re_pak_match (prefix d : string) (optional : bool)
      (patch : option string) :
  dir_prefix_ok prefix = true -> digits_ok d = true ->
  patch_ok patch = true ->
  re_match re_pak (prefix ++ pak_stem d optional patch)
  = Some (MObj (prefix ++ pak_stem d optional patch)
               (pak_name_groups "datagroup" "optional" "4" "patchnum"
                                d optional patch
                ++ if is_empty prefix then [] else [("dir_prefix", prefix)])).
Proof.
  intros Hpre Hd Hp.
  assert (NS := pak_stem_no_slash d optional patch Hd Hp).
  apply digits_ok_inv in Hd. destruct Hd as [Hne Ad].
  apply patch_ok_inv in Hp.
  unfold dir_prefix_ok in Hpre. apply andb_prop in Hpre.
  destruct Hpre as [Apre Epre].
  rewrite re_match_mrun, re_pak_shape. cbn [mrun andb is_empty].
  set (stem := pak_stem d optional patch) in *.
  destruct prefix as [|a0 pre0].
  - cbn [append is_empty].
    rewrite dir_prefix_none; [|exact NS|].
    + apply pak_name_hit; try assumption.
      cbn [mobj_of app append]. now rewrite !app_nil_r.
    + intros p r Hr. cbn [long_enough Nat.leb fst].
      destruct r as [|c r]; [reflexivity|]. simpl in Hr. now rewrite Hr.
  - cbn [is_empty orb] in Epre.
    destruct (last_in_inv _ _ Epre) as (pre1 & sl & E & Hsl).
    rewrite E in *. clear E a0 pre0 Epre.
    rewrite all_in_app in Apre. apply andb_prop in Apre.
    destruct Apre as [Apre Asl]. simpl in Asl. rewrite andb_true_r in Asl.
    rewrite !append_assoc. cbn [append].
    erewrite greedy_prefix; [reflexivity|exact Apre|].
    cbn [greedy]. rewrite Asl.
    rewrite dir_prefix_none; [|exact NS|].
    + cbn [long_enough Nat.leb fst]. rewrite Hsl.
      apply pak_name_hit; try assumption.
      rewrite append_nil_r, append_assoc. unfold mobj_of.
      replace (is_empty (pre1 ++ String sl "")) with false
        by (destruct pre1; reflexivity).
      cbn [app append]. now rewrite !app_nil_r.
    + intros p r Hr. cbn [long_enough Nat.leb fst].
      destruct r as [|c r]; [reflexivity|]. simpl in Hr. now rewrite Hr.
Qed.

Lemma pak_re_match (d : string) (optional : bool) (patch : option string) :
  digits_ok d = true -> patch_ok patch = true ->
  re_match Paksort.pak_re (pak_stem d optional patch)
  = Some (MObj (pak_stem d optional patch)
               (pak_name_groups "1" "2" "3" "4" d optional patch)).
Proof.
  intros Hd Hp. apply digits_ok_inv in Hd. destruct Hd as [Hne Ad].
  apply patch_ok_inv in Hp.
  rewrite re_match_mrun, pak_re_shape. cbn [mrun andb is_empty].
  apply pak_name_hit; try assumption.
  cbn [mobj_of app append]. now rewrite !app_nil_r.
Qed.

Lemma unpack_init_stem (stat : string -> result Z) (prefix d : string)
      (optional : bool) (patch : option string) :
  dir_prefix_ok prefix = true -> digits_ok d = true ->
  patch_ok patch = true ->
  PakFile_init stat (prefix ++ pak_stem d optional patch)
  = (pk <- (if optional then int_add_half (int d)
            else Ok (inject_Z (int d))) ;;
     sz <- stat (prefix ++ pak_stem d optional patch)%string ;;
     Ok (mkPakFile (prefix ++ pak_stem d optional patch) pk
                   (match patch with Some p => int p | None => -1 end) sz)).
Proof.
  intros Hpre Hd Hp. unfold PakFile_init.
  rewrite (re_pak_match _ _ optional _ Hpre Hd Hp).
  unfold group, pak_name_groups. cbn [groups].
  destruct optional, patch as [p|], (is_empty prefix); reflexivity.
Qed.

Lemma paksort_init_stem (d : string) (optional : bool)
      (patch : option string) :
  digits_ok d = true -> patch_ok patch = true ->
  Paksort.PakFile_init (pak_stem d optional patch)
  = (pk <- (if optional then int_add_half (int d)
            else Ok (inject_Z (int d))) ;;
     Ok (Paksort.mkPakFile
           (pak_stem d optional patch) pk
           (match patch with Some p => int p + 1 | None => 0 end))).
Proof.
  intros Hd Hp. unfold Paksort.PakFile_init.
  rewrite (pak_re_match _ optional _ Hd Hp).
  unfold group, pak_name_groups. cbn [groups].
  destruct optional, patch as [p|]; cbn;
    destruct (int_add_half (int d)); reflexivity.
Qed.

(** X14: [unpack_wl.py] takes every name of the grammar
    [<dir>pakchunk<N>[optional]-WindowsNoEditor[_<P>_P].pak], where the
    directory is empty or ends with a slash or a backslash, and reads
    the fields off it: paknum is N, plus 0.5 for [optional], patchnum is
    P, or -1 without suffix, and the size is the one [os.stat] reports;
    an error of the float addition or of [os.stat] is the error of the
    constructor. *)
Theorem unpack_parses_grammar (stat : string -> result Z) (prefix d : string)
        (optional : bool) (patch : option string) :
  dir_prefix_ok prefix = true -> digits_ok d = true ->
  patch_ok patch = true ->
  PakFile_init stat (prefix ++ pak_stem d optional patch)
  = (pk <- (if optional then int_add_half (int d)
            else Ok (inject_Z (int d))) ;;
     sz <- stat (prefix ++ pak_stem d optional patch)%string ;;
     Ok (mkPakFile (prefix ++ pak_stem d optional patch) pk
                   (match patch with Some p => int p | None => -1 end) sz))
  /\ (forall sz,
         int d < 2 ^ 52 ->
         stat (prefix ++ pak_stem d optional patch)%string = Ok sz ->
         PakFile_init stat (prefix ++ pak_stem d optional patch)
         = Ok (mkPakFile (prefix ++ pak_stem d optional patch)
                         (if optional then inject_Z (int d) + (1 # 2)
                          else inject_Z (int d))%Q
                         (match patch with Some p => int p | None => -1 end)
                         sz)).
Proof.
  intros Hpre Hd Hp.
  assert (E := unpack_init_stem stat prefix d optional patch Hpre Hd Hp).
  split; [exact E|].
  intros sz Hlt Hs. rewrite E.
  destruct optional; [rewrite int_add_half_small by exact Hlt|];
    cbn [bind]; now rewrite Hs.
Qed.

Lemma unpack_parses_grammar_witness :
  PakFile_init (fun _ => Ok 4096)
               "C:\Paks\pakchunk12optional-WindowsNoEditor_3_P.pak"
  = Ok (mkPakFile "C:\Paks\pakchunk12optional-WindowsNoEditor_3_P.pak"
                  (25 # 2) 3 4096).
Proof.
  apply (proj2 (unpack_parses_grammar (fun _ => Ok 4096) "C:\Paks\" "12"
                                      true (Some "3")
                                      eq_refl eq_refl eq_refl) 4096).
  - vm_compute; reflexivity.
  - reflexivity.
Defined.



Lemma tuple_lt_shift (q1 q2 : Q) (z1 z2 : Z) :
  tuple_lt (q1, z1 + 1) (q2, z2 + 1) = tuple_lt (q1, z1) (q2, z2).
Proof.
  unfold tuple_lt. cbn [fst snd].
  destruct (Qeq_bool q1 q2); [|reflexivity].
  destruct (Z.ltb_spec (z1 + 1) (z2 + 1)), (Z.ltb_spec z1 z2);
    try reflexivity; lia.
Qed.

(** X16: on names without directory the two scripts order alike: when
    two names of the grammar are taken by both, [paksort.py] puts the
    first before the second exactly when [unpack_wl.py] does. *)
Theorem scripts_order_alike (stat : string -> result Z)
        (d1 d2 : string) (o1 o2 : bool) (p1 p2 : option string)
        (a b : PakFile) (a' b' : Paksort.PakFile) :
  digits_ok d1 = true -> patch_ok p1 = true ->
  digits_ok d2 = true -> patch_ok p2 = true ->
  PakFile_init stat (pak_stem d1 o1 p1) = Ok a ->
  PakFile_init stat (pak_stem d2 o2 p2) = Ok b ->
  Paksort.PakFile_init (pak_stem d1 o1 p1) = Ok a' ->
  Paksort.PakFile_init (pak_stem d2 o2 p2) = Ok b' ->
  Paksort.PakFile_lt a' b' = PakFile_lt a b.
Proof.
  intros Hd1 Hp1 Hd2 Hp2 Ha Hb Ha' Hb'.
  assert (U : forall d o p x,
             digits_ok d = true -> patch_ok p = true ->
             PakFile_init stat (pak_stem d o p) = Ok x ->
             (if o then int_add_half (int d) else Ok (inject_Z (int d)))
             = Ok (paknum x)
             /\ patchnum x = match p with Some q => int q | None => -1 end).
  { intros d o p x Hd Hp Hx.
    change (pak_stem d o p) with ("" ++ pak_stem d o p)%string in Hx.
    rewrite (unpack_init_stem stat "" d o p eq_refl Hd Hp) in Hx.
    destruct (if o then int_add_half (int d) else Ok (inject_Z (int d)))
      as [pk|]; [|discriminate Hx].
    cbn [bind] in Hx. destruct (stat _); [|discriminate Hx].
    cbn [bind] in Hx. injection Hx as <-. now split. }
  assert (P : forall d o p x,
             digits_ok d = true -> patch_ok p = true ->
             Paksort.PakFile_init (pak_stem d o p) = Ok x ->
             (if o then int_add_half (int d) else Ok (inject_Z (int d)))
             = Ok (Paksort.paknum x)
             /\ Paksort.patchnum x
                = match p with Some q => int q | None => -1 end + 1).
  { intros d o p x Hd Hp Hx.
    rewrite (paksort_init_stem d o p Hd Hp) in Hx.
    destruct (if o then int_add_half (int d) else Ok (inject_Z (int d)))
      as [pk|]; [|discriminate Hx].
    cbn [bind] in Hx. injection Hx as <-. split; [reflexivity|].
    now destruct p. }
  destruct (U _ _ _ _ Hd1 Hp1 Ha) as [Ka Pa].
  destruct (U _ _ _ _ Hd2 Hp2 Hb) as [Kb Pb].
  destruct (P _ _ _ _ Hd1 Hp1 Ha') as [Ka' Pa'].
  destruct (P _ _ _ _ Hd2 Hp2 Hb') as [Kb' Pb'].
  assert (Ea : Paksort.paknum a' = paknum a) by congruence.
  assert (Eb : Paksort.paknum b' = paknum b) by congruence.
  unfold Paksort.PakFile_lt, PakFile_lt.
  rewrite Ea, Eb, Pa', Pb', <- Pa, <- Pb. apply tuple_lt_shift.
Qed.

Lemma scripts_order_alike_witness :
  Paksort.PakFile_lt
    (Paksort.mkPakFile "pakchunk3-WindowsNoEditor.pak" 3 0)
    (Paksort.mkPakFile "pakchunk3-WindowsNoEditor_0_P.pak" 3 1)
  = PakFile_lt (mkPakFile "pakchunk3-WindowsNoEditor.pak" 3 (-1) 1)
               (mkPakFile "pakchunk3-WindowsNoEditor_0_P.pak" 3 0 1).
Proof.
  apply (scripts_order_alike (fun _ => Ok 1) "3" "3" false false
                             None (Some "0"));
    vm_compute; reflexivity.
Defined.

Lemma int_acc_nonneg (s : string) :
  forall acc, 0 <= acc -> all_in is_digit s = true -> 0 <= int_acc acc s.
Proof.
  induction s as [|c s IH]; intros acc Ha Hs; cbn [int_acc Re.all_in] in *;
    [exact Ha|].
  apply andb_prop in Hs. destruct Hs as [Hc Hs]. apply IH; [|exact Hs].
  assert (0 <= digit_val c).
  { unfold is_digit, in_range in Hc. cbv zeta in Hc.
    apply andb_prop in Hc.
    destruct Hc as [Hc _]. apply Nat.leb_le in Hc.
    unfold digit_val. lia. }
  lia.
Qed.

(** X17: of the archives of one datagroup (with the same [optional]
    flag) the one without patch suffix comes first and the patches
    follow in the order of their numbers: an archive is before another
    exactly when its patch number, -1 without suffix, is smaller. *)
Theorem patches_in_order (stat : string -> result Z)
        (prefix1 prefix2 d : string) (optional : bool)
        (p1 p2 : option string) (a b : PakFile) :
  dir_prefix_ok prefix1 = true -> dir_prefix_ok prefix2 = true ->
  digits_ok d = true -> patch_ok p1 = true -> patch_ok p2 = true ->
  PakFile_init stat (prefix1 ++ pak_stem d optional p1) = Ok a ->
  PakFile_init stat (prefix2 ++ pak_stem d optional p2) = Ok b ->
  PakFile_lt a b
  = (match p1 with Some q => int q | None => -1 end
     <? match p2 with Some q => int q | None => -1 end)
  /\ (p1 = None -> p2 <> None -> PakFile_lt a b = true).
Proof.
  intros H1 H2 Hd Hp1 Hp2 Ha Hb.
  rewrite (unpack_init_stem stat _ _ _ _ H1 Hd Hp1) in Ha.
  rewrite (unpack_init_stem stat _ _ _ _ H2 Hd Hp2) in Hb.
  destruct (if optional then int_add_half (int d) else Ok (inject_Z (int d)))
    as [pk|]; [|discriminate Ha].
  cbn [bind] in Ha, Hb.
  destruct (stat (prefix1 ++ _)%string); [|discriminate Ha].
  destruct (stat (prefix2 ++ _)%string); [|discriminate Hb].
  cbn [bind] in Ha, Hb. injection Ha as <-. injection Hb as <-.
  assert (E : PakFile_lt
                (mkPakFile (prefix1 ++ pak_stem d optional p1) pk
                           (match p1 with Some q => int q | None => -1 end) a0)
                (mkPakFile (prefix2 ++ pak_stem d optional p2) pk
                           (match p2 with Some q => int q | None => -1 end) a1)
              = (match p1 with Some q => int q | None => -1 end
                 <? match p2 with Some q => int q | None => -1 end)).
  { unfold PakFile_lt, tuple_lt. cbn [paknum patchnum fst snd].
    now rewrite (proj2 (Qeq_bool_iff pk pk) (Qeq_refl pk)). }
  split; [exact E|].
  intros -> Hn. rewrite E. destruct p2 as [q|]; [|congruence].
  apply Z.ltb_lt. apply patch_ok_inv in Hp2. destruct Hp2 as [_ Aq].
  assert (0 <= int q) by (apply int_acc_nonneg; [lia|exact Aq]). lia.
Qed.

Lemma patches_in_order_witness :
  PakFile_lt (mkPakFile "a/pakchunk5-WindowsNoEditor.pak" 5 (-1) 1)
             (mkPakFile "b\pakchunk5-WindowsNoEditor_0_P.pak" 5 0 1) = true.
Proof.
  apply (proj2 (patches_in_order (fun _ => Ok 1) "a/" "b\" "5" false
                                 None (Some "0") _ _
                                 eq_refl eq_refl eq_refl eq_refl eq_refl
                                 eq_refl eq_refl)).
  - reflexivity.
  - discriminate.
Defined.

(** ** What [delete_empty_dirs] leaves *)

Lemma split_slash_plain (c : string) :
  contains_slash c = false -> split_slash c = [c].
Proof.
  induction c as [|a c IH]; [reflexivity|].
  cbn [contains_slash split_slash]. intros H.
  apply orb_false_elim in H. destruct H as [Ha Hc].
  rewrite Ha, (IH Hc). reflexivity.
Qed.

Lemma proper_name_inv (c : string) :
  proper_name c = true ->
  String.eqb c "" = false /\ String.eqb c "." = false
  /\ String.eqb c ".." = false /\ contains_slash c = false.
Proof.
  unfold proper_name. intros H. apply negb_true_iff in H.
  apply orb_false_elim in H. destruct H as [H H4].
  apply orb_false_elim in H. destruct H as [H H3].
  apply orb_false_elim in H. destruct H as [H1 H2]. auto.
Qed.

Lemma proper_not_abs (c : string) : proper_name c = true -> is_abs c = false.
Proof.
  intros H. destruct (proper_name_inv c H) as (_ & _ & _ & C).
  destruct c; [reflexivity|]. cbn in C |- *.
  apply orb_false_elim in C. tauto.
Qed.

Lemma join_cases (folder c : string) :
  is_empty folder = false -> proper_name c = true ->
  (exists s1, folder = (s1 ++ String slash "")%string
              /\ os_path_join folder c = (s1 ++ String slash c)%string)
  \/ os_path_join folder c = (folder ++ String slash c)%string.
Proof.
  intros He Hc. unfold os_path_join.
  rewrite (proper_not_abs c Hc), He. cbn [orb].
  destruct (ends_with_slash folder) eqn:Es; [left|right; reflexivity].
  apply ends_with_slash_inv in Es. destruct Es as [s1 ->].
  exists s1. split; [reflexivity|].
  rewrite append_assoc. reflexivity.
Qed.

Lemma resolve_join (fs : FS) (folder c : string) (p : list string) :
  resolve fs folder = Some p -> is_dir (get (root fs) p) = true ->
  proper_name c = true ->
  resolve fs (os_path_join folder c) = Some (p ++ [c]).
Proof.
  intros Hr Hd Hc. destruct (proper_name_inv c Hc) as (C1 & C2 & C3 & C4).
  unfold resolve in Hr. destruct (is_empty folder) eqn:He; [discriminate|].
  assert (W : walk (root fs) p [c] = Some (p ++ [c])).
  { cbn [walk]. rewrite Hd, C1, C2, C3. reflexivity. }
  destruct (join_cases folder c He Hc) as [(s1 & E1 & E2)|E2];
    rewrite E2; unfold resolve.
  - subst folder.
    assert (Hn : is_empty s1 = true \/ s1 <> EmptyString).
    { destruct s1; [left; reflexivity|right; discriminate]. }
    assert (Ia : is_abs (s1 ++ String slash c)
                 = is_abs (s1 ++ String slash "")).
    { destruct s1; reflexivity. }
    assert (Ie : is_empty (s1 ++ String slash c) = false)
      by (destruct s1; reflexivity).
    rewrite Ie, Ia, split_slash_app, walk_app.
    rewrite split_slash_app, walk_app in Hr.
    destruct (walk (root fs) _ (split_slash s1)) as [q|]; [|discriminate].
    cbn [split_slash walk] in Hr.
    destruct (is_dir (get (root fs) q)); [|discriminate].
    cbn in Hr. injection Hr as ->.
    rewrite (split_slash_plain c C4). exact W.
  - assert (Ia : is_abs (folder ++ String slash c) = is_abs folder)
      by (destruct folder; [discriminate|reflexivity]).
    assert (Ie : is_empty (folder ++ String slash c) = false)
      by (destruct folder; reflexivity).
    rewrite Ie, Ia, split_slash_app, walk_app, Hr.
    rewrite (split_slash_plain c C4). exact W.
Qed.

Lemma plain_join (folder c : string) :
  is_empty folder = false -> plain_path folder = true ->
  proper_name c = true -> plain_path (os_path_join folder c) = true.
Proof.
  intros He Hp Hc. destruct (proper_name_inv c Hc) as (C1 & C2 & C3 & C4).
  unfold plain_path in *.
  destruct (join_cases folder c He Hc) as [(s1 & E1 & E2)|E2]; rewrite E2.
  - subst folder. rewrite split_slash_app, forallb_app in Hp.
    apply andb_prop in Hp. destruct Hp as [Hp _].
    rewrite split_slash_app, forallb_app, Hp, (split_slash_plain c C4).
    cbn. now rewrite C3.
  - rewrite split_slash_app, forallb_app, Hp, (split_slash_plain c C4).
    cbn. now rewrite C3.
Qed.

Lemma is_prefix_refl (p : list string) : is_prefix p p = true.
Proof.
  induction p as [|a p IH]; [reflexivity|].
  cbn. now rewrite String.eqb_refl.
Qed.

Lemma is_prefix_app_l (a b : list string) :
  forall p, is_prefix (a ++ b) p = true -> is_prefix a p = true.
Proof.
  induction a as [|x a IH]; intros p H; [reflexivity|].
  destruct p as [|y p]; [discriminate|].
  cbn in H |- *. apply andb_prop in H. destruct H as [H1 H2].
  rewrite H1. exact (IH p H2).
Qed.

Lemma walk_plain_prefix (rt : node) (comps : list string) (p : list string) :
  forall cur,
    walk rt cur comps = Some p ->
    forallb (fun c => negb (String.eqb c "..")) comps = true ->
    is_prefix cur p = true.
Proof.
  induction comps as [|c cs IH]; intros cur H Hp.
  - cbn in H. injection H as ->. apply is_prefix_refl.
  - cbn [walk] in H. cbn [forallb] in Hp.
    apply andb_prop in Hp. destruct Hp as [Hc Hp].
    apply negb_true_iff in Hc. rewrite Hc in H.
    destruct (is_dir (get rt cur)); [|discriminate].
    destruct (String.eqb c "" || String.eqb c ".").
    + exact (IH cur H Hp).
    + apply (is_prefix_app_l cur [c]). exact (IH _ H Hp).
Qed.

Lemma walk_agree (rt rt' : node) (comps : list string) (p : list string) :
  (forall q, is_prefix q p = true ->
             is_dir (get rt' q) = is_dir (get rt q)) ->
  forall cur,
    walk rt cur comps = Some p ->
    forallb (fun c => negb (String.eqb c "..")) comps = true ->
    walk rt' cur comps = Some p.
Proof.
  intros A. induction comps as [|c cs IH]; intros cur H Hp.
  - exact H.
  - assert (Pre := walk_plain_prefix rt (c :: cs) p cur H Hp).
    cbn [walk] in H |- *. cbn [forallb] in Hp.
    apply andb_prop in Hp. destruct Hp as [Hc Hp].
    apply negb_true_iff in Hc. rewrite Hc in H. rewrite Hc.
    rewrite (A cur Pre).
    destruct (is_dir (get rt cur)); [|discriminate].
    destruct (String.eqb c "" || String.eqb c ".").
    + exact (IH cur H Hp).
    + exact (IH _ H Hp).
Qed.

Lemma alter_entry_twice (g h : option node -> option node) (c : string)
      (es : list (string * node)) (y y' : node) :
  find_entry c es = Some y -> h (Some y) = Some y' ->
  alter_entry g c (alter_entry h c es)
  = alter_entry (fun _ => g (Some y')) c es.
Proof.
  induction es as [|[k x0] es IH]; intros Hf Hh; [discriminate|].
  cbn [find_entry] in Hf. cbn [alter_entry].
  destruct (String.eqb k c) eqn:E.
  - injection Hf as ->. rewrite Hh. cbn [alter_entry]. rewrite E.
    reflexivity.
  - cbn [alter_entry]. rewrite E. now rewrite (IH Hf Hh).
Qed.

Lemma alter_entry_ext (f g : option node -> option node) (c : string)
      (es : list (string * node)) (y : node) :
  find_entry c es = Some y -> f (Some y) = g (Some y) ->
  alter_entry f c es = alter_entry g c es.
Proof.
  induction es as [|[k x0] es IH]; intros Hf Hh; [discriminate|].
  cbn [find_entry] in Hf. cbn [alter_entry].
  destruct (String.eqb k c) eqn:E.
  - injection Hf as ->. now rewrite Hh.
  - now rewrite (IH Hf Hh).
Qed.

Lemma alter_entry_id (f : option node -> option node) (c : string)
      (es : list (string * node)) (y : node) :
  find_entry c es = Some y -> f (Some y) = Some y ->
  alter_entry f c es = es.
Proof.
  induction es as [|[k x0] es IH]; intros Hf Hh; [discriminate|].
  cbn [find_entry] in Hf. cbn [alter_entry].
  destruct (String.eqb k c) eqn:E.
  - injection Hf as ->. now rewrite Hh.
  - now rewrite (IH Hf Hh).
Qed.

Lemma get_cons_inv (rt : node) (c : string) (p : list string) (z : node) :
  get rt (c :: p) = Some z ->
  exists es y, rt = Dir es /\ find_entry c es = Some y /\ get y p = Some z.
Proof.
  cbn [get]. destruct rt as [d|es]; [discriminate|].
  destruct (find_entry c es) as [y|] eqn:E; [|discriminate].
  intros H. exists es, y. auto.
Qed.

Lemma alter_at_cons (f : option node -> option node) (c : string)
      (p : list string) (es : list (string * node)) :
  alter_at f (c :: p) (Dir es)
  = Dir (alter_entry (match p with
                      | [] => f
                      | _ :: _ => option_map (alter_at f p)
                      end) c es).
Proof. destruct p; reflexivity. Qed.

Lemma get_put_self (x : node) (p : list string) :
  forall (rt z : node),
    p <> [] -> get rt p = Some z -> get (put p x rt) p = Some x.
Proof.
  induction p as [|c p IH]; intros rt z Hn Hg; [congruence|].
  destruct (get_cons_inv _ _ _ _ Hg) as (es & y & -> & Hf & Hy).
  unfold put. rewrite alter_at_cons. cbn [get].
  rewrite find_alter_entry, String.eqb_refl, Hf.
  destruct p as [|c1 p'].
  - reflexivity.
  - cbn [option_map]. apply (IH y z); [discriminate|exact Hy].
Qed.

Lemma is_dir_put (x : node) (p : list string) :
  forall (rt : node) (q : list string),
    p <> [] -> is_dir (get rt p) = true -> is_dir (Some x) = true ->
    is_prefix q p = true ->
    is_dir (get (put p x rt) q) = is_dir (get rt q).
Proof.
  induction p as [|c p IH]; intros rt q Hn Hd Hx Hq; [congruence|].
  destruct (get rt (c :: p)) as [z|] eqn:Hg; [|discriminate].
  destruct (get_cons_inv _ _ _ _ Hg) as (es & y & -> & Hf & Hy).
  unfold put. rewrite alter_at_cons.
  destruct q as [|c' q]; [reflexivity|].
  cbn [is_prefix] in Hq. apply andb_prop in Hq. destruct Hq as [Hc Hq].
  apply String.eqb_eq in Hc. subst c'.
  cbn [get]. rewrite find_alter_entry, String.eqb_refl, Hf.
  destruct p as [|c1 p'].
  - destruct q; [|discriminate]. cbn [get].
    cbn [get] in Hy. injection Hy as ->. now rewrite Hx, Hd.
  - cbn [option_map]. apply (IH y q); [discriminate| |exact Hx|exact Hq].
    now rewrite Hy.
Qed.

Lemma alter_at_child (f : option node -> option node) (c : string)
      (es : list (string * node)) (p : list string) :
  forall rt : node,
    p <> [] -> get rt p = Some (Dir es) ->
    alter_at f (p ++ [c]) rt = put p (Dir (alter_entry f c es)) rt.
Proof.
  induction p as [|c0 p IH]; intros rt Hn Hg; [congruence|].
  destruct (get_cons_inv _ _ _ _ Hg) as (es0 & y & -> & Hf & Hy).
  unfold put.
  change ((c0 :: p) ++ [c]) with (c0 :: (p ++ [c])).
  rewrite !alter_at_cons. f_equal.
  destruct p as [|c1 p'].
  - cbn [get] in Hy. injection Hy as ->.
    apply (alter_entry_ext _ _ _ _ _ Hf). reflexivity.
  - change ((c1 :: p') ++ [c]) with (c1 :: (p' ++ [c])).
    cbv iota.
    apply (alter_entry_ext _ _ _ _ _ Hf). cbn [option_map]. f_equal.
    apply (IH y); [discriminate|exact Hy].
Qed.

Lemma put_put (v : option node) (x : node) (p : list string) :
  forall (rt z : node),
    p <> [] -> get rt p = Some z ->
    alter_at (fun _ => v) p (put p x rt) = alter_at (fun _ => v) p rt.
Proof.
  induction p as [|c p IH]; intros rt z Hn Hg; [congruence|].
  destruct (get_cons_inv _ _ _ _ Hg) as (es & y & -> & Hf & Hy).
  unfold put. rewrite !alter_at_cons. f_equal.
  destruct p as [|c1 p'].
  - now rewrite (alter_entry_twice _ _ c es y x Hf eq_refl).
  - rewrite (alter_entry_twice _ _ c es y _ Hf eq_refl).
    apply (alter_entry_ext _ _ _ _ _ Hf). cbn [option_map]. f_equal.
    apply (IH y z); [discriminate|exact Hy].
Qed.

Lemma put_same (p : list string) :
  forall (rt x : node),
    p <> [] -> get rt p = Some x -> put p x rt = rt.
Proof.
  induction p as [|c p IH]; intros rt x Hn Hg; [congruence|].
  destruct (get_cons_inv _ _ _ _ Hg) as (es & y & -> & Hf & Hy).
  unfold put. rewrite alter_at_cons. f_equal.
  apply (alter_entry_id _ _ _ _ Hf).
  destruct p as [|c1 p'].
  - cbn [get] in Hy. now injection Hy as ->.
  - cbn [option_map]. f_equal. apply IH; [discriminate|exact Hy].
Qed.

Lemma mem_app (c : string) (a b : list string) :
  mem c (a ++ b) = mem c a || mem c b.
Proof. unfold mem. apply existsb_app. Qed.

Lemma find_entry_mid (c : string) (x : node) (a b : list (string * node)) :
  mem c (map fst a) = false -> find_entry c (a ++ (c, x) :: b) = Some x.
Proof.
  induction a as [|[k y] a IH]; intros H; cbn [app find_entry].
  - now rewrite String.eqb_refl.
  - cbn in H. apply orb_false_elim in H. destruct H as [H1 H2].
    rewrite String.eqb_sym, H1. exact (IH H2).
Qed.

Lemma drop_entry_absent (c : string) (b : list (string * node)) :
  mem c (map fst b) = false -> drop_entry c b = b.
Proof.
  induction b as [|[k y] b IH]; intros H; [reflexivity|].
  cbn in H. apply orb_false_elim in H. destruct H as [H1 H2].
  cbn [drop_entry]. rewrite String.eqb_sym, H1. now rewrite (IH H2).
Qed.

Lemma alter_entry_mid (f : option node -> option node) (c : string)
      (x : node) (a b : list (string * node)) :
  mem c (map fst a) = false ->
  alter_entry f c (a ++ (c, x) :: b)
  = a ++ match f (Some x) with
         | Some y => (c, y) :: b
         | None => drop_entry c b
         end.
Proof.
  induction a as [|[k y] a IH]; intros H; cbn [app alter_entry].
  - now rewrite String.eqb_refl.
  - cbn in H. apply orb_false_elim in H. destruct H as [H1 H2].
    rewrite String.eqb_sym, H1. now rewrite (IH H2).
Qed.

Lemma distinct_mid (c : string) (a b : list string) :
  distinct (a ++ c :: b) = true -> mem c a = false /\ mem c b = false.
Proof.
  induction a as [|k a IH]; cbn [app distinct]; intros H.
  - apply andb_prop in H. destruct H as [H _].
    apply negb_true_iff in H. now split.
  - apply andb_prop in H. destruct H as [H1 H2].
    apply negb_true_iff in H1. rewrite mem_app in H1.
    apply orb_false_elim in H1. destruct H1 as [_ H1].
    unfold mem in H1. cbn [existsb] in H1.
    apply orb_false_elim in H1. destruct H1 as [H1 _].
    destruct (IH H2) as [I1 I2]. split; [|exact I2].
    unfold mem in I1 |- *. cbn [existsb].
    now rewrite String.eqb_sym, H1, I1.
Qed.

Lemma pruned_names (c : string) (es : list (string * node)) :
  mem c (map fst es) = false -> mem c (map fst (pruned es)) = false.
Proof.
  induction es as [|[k y] es IH]; intros H; [reflexivity|].
  unfold mem in H. cbn [map fst existsb] in H.
  apply orb_false_elim in H. destruct H as [H1 H2].
  change (pruned ((k, y) :: es))
    with ((if has_file y then [(k, prune y)] else []) ++ pruned es).
  rewrite map_app, mem_app, (IH H2), orb_false_r.
  destruct (has_file y); [|reflexivity].
  unfold mem. cbn. now rewrite H1.
Qed.

Lemma kept_names_absent (c : string) (es : list (string * node)) :
  mem c (map fst es) = false -> mem c (kept_names es) = false.
Proof.
  induction es as [|[k y] es IH]; intros H; [reflexivity|].
  unfold mem in H. cbn [map fst existsb] in H.
  apply orb_false_elim in H. destruct H as [H1 H2].
  change (kept_names ((k, y) :: es))
    with (map fst (if has_file y then (k, y) :: filter (fun e => has_file (snd e)) es
                   else filter (fun e => has_file (snd e)) es)).
  destruct (has_file y); [|exact (IH H2)].
  unfold mem. cbn [map fst existsb]. rewrite H1. exact (IH H2).
Qed.

Lemma pruned_app (a b : list (string * node)) :
  pruned (a ++ b) = pruned a ++ pruned b.
Proof. unfold pruned. apply flat_map_app. Qed.

Lemma kept_names_app (a b : list (string * node)) :
  kept_names (a ++ b) = kept_names a ++ kept_names b.
Proof. unfold kept_names. now rewrite filter_app, map_app. Qed.

Lemma remove_name_mid (c : string) (a b : list string) :
  mem c a = false -> remove_name c (a ++ c :: b) = a ++ b.
Proof.
  induction a as [|k a IH]; intros H; cbn [app remove_name].
  - now rewrite String.eqb_refl.
  - cbn in H. apply orb_false_elim in H. destruct H as [H1 H2].
    rewrite String.eqb_sym, H1. now rewrite (IH H2).
Qed.

Lemma kept_names_length (es : list (string * node)) :
  (List.length (kept_names es) =? 0)%nat = negb (has_file (Dir es)).
Proof.
  cbn [has_file]. unfold kept_names.
  induction es as [|[k y] es IH]; [reflexivity|].
  cbn [filter existsb snd]. destruct (has_file y); [reflexivity|exact IH].
Qed.

Lemma pruned_none (es : list (string * node)) :
  has_file (Dir es) = false -> pruned es = [].
Proof.
  cbn [has_file]. unfold pruned.
  induction es as [|[k y] es IH]; [reflexivity|].
  cbn [flat_map existsb snd]. intros H.
  apply orb_false_elim in H. destruct H as [H1 H2].
  rewrite H1. exact (IH H2).
Qed.

Lemma height_children (es : list (string * node)) (d : nat) :
  (height (Dir es) <= S d)%nat ->
  Forall (fun e => (height (snd e) <= d)%nat) es.
Proof.
  cbn [height]. intros H. apply le_S_n in H.
  induction es as [|e es IH]; constructor; cbn [fold_right] in H.
  - lia.
  - apply IH. lia.
Qed.

Lemma resolve_put (fs : FS) (folder : string) (p : list string) (x : node) :
  resolve fs folder = Some p -> plain_path folder = true -> p <> [] ->
  is_dir (get (root fs) p) = true -> is_dir (Some x) = true ->
  resolve (mkFS (put p x (root fs)) (cwd fs)) folder = Some p.
Proof.
  unfold resolve, plain_path. cbn [root cwd]. intros Hr Hpl Hn Hd Hx.
  destruct (is_empty folder); [discriminate|].
  apply (walk_agree (root fs)); [|exact Hr|exact Hpl].
  intros q Hq. now apply is_dir_put.
Qed.

Lemma put_twice (y x : node) (p : list string) (rt z : node) :
  p <> [] -> get rt p = Some z -> put p y (put p x rt) = put p y rt.
Proof. exact (put_put (Some y) x p rt z). Qed.

Section Loop.

Variable depth' : nat.

Hypothesis IHself :
  forall (folder : string) (fs : FS) (p : list string)
         (es : list (string * node)),
    resolve fs folder = Some p -> plain_path folder = true -> p <> [] ->
    get (root fs) p = Some (Dir es) -> wf (Dir es) = true ->
    (height (Dir es) <= depth')%nat ->
    delete_empty_dirs depth' folder true fs
    = if negb (has_file (Dir es))
      then Ok (true, mkFS (del p (root fs)) (cwd fs))
      else Ok (false, mkFS (put p (prune (Dir es)) (root fs)) (cwd fs)).

Lemma ded_loop_spec (folder : string) (p : list string) :
  plain_path folder = true -> p <> [] ->
  forall (todo done : list (string * node)) (fs : FS),
    resolve fs folder = Some p ->
    get (root fs) p = Some (Dir (pruned done ++ todo)) ->
    distinct (map fst (done ++ todo)) = true ->
    forallb (fun e => proper_name (fst e) && wf (snd e)) todo = true ->
    Forall (fun e => (height (snd e) <= depth')%nat) todo ->
    ded_loop (fun f => delete_empty_dirs depth' f true) folder
             (map fst todo) (kept_names done ++ map fst todo) fs
    = Ok (kept_names (done ++ todo),
          mkFS (put p (Dir (pruned (done ++ todo))) (root fs)) (cwd fs)).
Proof.
  intros Hplain Hn.
  induction todo as [|[c x] todo IH]; intros done fs Hr Hg Hd Hw Hh.
  - cbn [map ded_loop]. rewrite !app_nil_r in *.
    rewrite (put_same p _ _ Hn Hg). destruct fs; reflexivity.
  - cbn [map fst ded_loop].
    cbn [forallb fst snd] in Hw.
    apply andb_prop in Hw. destruct Hw as [Hw Hw'].
    apply andb_prop in Hw. destruct Hw as [Hc Hwx].
    inversion Hh as [|? ? Hhx Hh']; subst. cbn [snd] in Hhx.
    assert (Hd' := Hd). rewrite map_app in Hd'. cbn [map fst] in Hd'.
    destruct (distinct_mid _ _ _ Hd') as [M1 M2]. clear Hd'.
    assert (He : is_empty folder = false).
    { unfold resolve in Hr. destruct (is_empty folder);
        [discriminate|reflexivity]. }
    assert (Hdir : is_dir (get (root fs) p) = true) by now rewrite Hg.
    assert (Rj := resolve_join fs folder c p Hr Hdir Hc).
    assert (Gc : get (root fs) (p ++ [c]) = Some x).
    { rewrite get_app, Hg. cbn [get].
      now rewrite (find_entry_mid c x _ _ (pruned_names c done M1)). }
    assert (Lk : lookup fs (os_path_join folder c) = Some x).
    { unfold lookup. now rewrite Rj. }
    assert (Ea : (done ++ [(c, x)]) ++ todo = done ++ (c, x) :: todo)
      by now rewrite <- app_assoc.
    unfold os_path_isdir. rewrite Lk.
    destruct x as [d|es'].
    + cbn [is_dir negb].
      assert (I := IH (done ++ [(c, File d)]) fs Hr).
      rewrite pruned_app, kept_names_app, Ea in I.
      change (pruned [(c, File d)]) with [(c, File d)] in I.
      change (kept_names [(c, File d)]) with [c] in I.
      rewrite <- !app_assoc in I. cbn [app] in I.
      exact (I Hg Hd Hw' Hh').
    + cbn [is_dir negb].
      assert (Hne : p ++ [c] <> []) by (destruct p; discriminate).
      rewrite (IHself (os_path_join folder c) fs (p ++ [c]) es' Rj
                      (plain_join folder c He Hplain Hc) Hne Gc Hwx Hhx).
      assert (I := IH (done ++ [(c, Dir es')])).
      rewrite pruned_app, kept_names_app, Ea in I.
      unfold del, put at 1.
      rewrite !(alter_at_child _ c _ p (root fs) Hn Hg).
      rewrite !(alter_entry_mid _ c _ _ _ (pruned_names c done M1)).
      rewrite (drop_entry_absent c todo M2).
      destruct (has_file (Dir es')) eqn:HF; cbn [negb bind].
      * assert (P1 : pruned [(c, Dir es')] = [(c, prune (Dir es'))]).
        { unfold pruned. cbn [flat_map snd fst]. now rewrite HF. }
        assert (K1 : kept_names [(c, Dir es')] = [c]).
        { unfold kept_names. cbn [filter snd]. now rewrite HF. }
        rewrite P1, K1 in I. rewrite <- !app_assoc in I. cbn [app] in I.
        rewrite I; cbn [root cwd].
        -- now rewrite (put_twice _ _ p (root fs) _ Hn Hg).
        -- now apply resolve_put.
        -- exact (get_put_self _ p (root fs) _ Hn Hg).
        -- exact Hd.
        -- exact Hw'.
        -- exact Hh'.
      * assert (P1 : pruned [(c, Dir es')] = []).
        { unfold pruned. cbn [flat_map snd fst]. now rewrite HF. }
        assert (K1 : kept_names [(c, Dir es')] = []).
        { unfold kept_names. cbn [filter snd]. now rewrite HF. }
        rewrite P1, K1, !app_nil_r in I.
        rewrite (remove_name_mid c _ _ (kept_names_absent c done M1)).
        rewrite I; cbn [root cwd].
        -- now rewrite (put_twice _ _ p (root fs) _ Hn Hg).
        -- now apply resolve_put.
        -- exact (get_put_self _ p (root fs) _ Hn Hg).
        -- exact Hd.
        -- exact Hw'.
        -- exact Hh'.
Qed.

End Loop.

Lemma delete_empty_dirs_spec (depth : nat) :
  forall (folder : string) (delete_root : bool) (fs : FS) (p : list string)
         (es : list (string * node)),
    resolve fs folder = Some p -> plain_path folder = true -> p <> [] ->
    get (root fs) p = Some (Dir es) -> wf (Dir es) = true ->
    (height (Dir es) <= depth)%nat ->
    delete_empty_dirs depth folder delete_root fs
    = if negb (has_file (Dir es)) && delete_root
      then Ok (true, mkFS (del p (root fs)) (cwd fs))
      else Ok (false, mkFS (put p (prune (Dir es)) (root fs)) (cwd fs)).
Proof.
  induction depth as [|depth IH];
    intros folder delete_root fs p es Hr Hpl Hn Hg Hw Hh.
  - cbn [height] in Hh. lia.
  - cbn [delete_empty_dirs].
    unfold os_listdir, lookup. rewrite Hr, Hg. cbn [bind].
    assert (W := Hw). cbn [wf] in W. apply andb_prop in W.
    destruct W as [W1 W2].
    assert (L := ded_loop_spec depth
                   (fun folder fs p es H1 H2 H3 H4 H5 H6 =>
                      eq_trans (IH folder true fs p es H1 H2 H3 H4 H5 H6)
                               (f_equal (fun b : bool =>
                                           if b then _ else _)
                                        (andb_true_r _)))
                   folder p Hpl Hn es [] fs Hr Hg W1 W2
                   (height_children es depth Hh)).
    cbn [kept_names filter map app] in L.
    change (map fst (filter (fun e => has_file (snd e)) es))
      with (kept_names es) in L.
    rewrite L. cbn [bind]. rewrite kept_names_length.
    destruct (negb (has_file (Dir es)) && delete_root) eqn:E;
      [|reflexivity].
    apply andb_prop in E. destruct E as [E _].
    apply negb_true_iff in E.
    rewrite (pruned_none es E).
    assert (Hdir : is_dir (get (root fs) p) = true) by now rewrite Hg.
    unfold os_rmdir.
    rewrite (resolve_put fs folder p (Dir []) Hr Hpl Hn Hdir eq_refl).
    cbn [root cwd]. rewrite (get_put_self _ p (root fs) _ Hn Hg).
    destruct p as [|c p']; [congruence|]. cbn [bind].
    unfold del. now rewrite (put_put None (Dir []) (c :: p') (root fs) _ Hn Hg).
Qed.

Lemma find_entry_In (c : string) (es : list (string * node)) (y : node) :
  find_entry c es = Some y -> In (c, y) es.
Proof.
  induction es as [|[k x] es IH]; [discriminate|].
  cbn [find_entry]. destruct (String.eqb k c) eqn:E; intros H.
  - apply String.eqb_eq in E. injection H as ->. subst k. now left.
  - right. exact (IH H).
Qed.

Lemma get_file_has_file (q : list string) :
  forall (t : node) (d : string),
    get t q = Some (File d) -> has_file t = true.
Proof.
  induction q as [|c q IH]; intros t d H.
  - cbn in H. now injection H as ->.
  - destruct (get_cons_inv _ _ _ _ H) as (es & y & -> & Hf & Hy).
    cbn [has_file]. apply existsb_exists. exists (c, y).
    split; [exact (find_entry_In _ _ _ Hf)|exact (IH y d Hy)].
Qed.

Lemma pruned_cons (k : string) (y : node) (es : list (string * node)) :
  pruned ((k, y) :: es)
  = (if has_file y then [(k, prune y)] else []) ++ pruned es.
Proof. reflexivity. Qed.

Lemma find_pruned (c : string) (es : list (string * node)) (y : node) :
  find_entry c es = Some y -> has_file y = true ->
  find_entry c (pruned es) = Some (prune y).
Proof.
  induction es as [|[k x] es IH]; [discriminate|].
  cbn [find_entry]. rewrite pruned_cons.
  destruct (String.eqb k c) eqn:E; intros H Hy.
  - injection H as ->. rewrite Hy. cbn [app find_entry]. now rewrite E.
  - destruct (has_file x); cbn [app find_entry]; [rewrite E|];
      exact (IH H Hy).
Qed.

Lemma prune_keeps_files (q : list string) :
  forall (t : node) (d : string),
    get t q = Some (File d) -> get (prune t) q = Some (File d).
Proof.
  induction q as [|c q IH]; intros t d H.
  - cbn in H. now injection H as ->.
  - destruct (get_cons_inv _ _ _ _ H) as (es & y & -> & Hf & Hy).
    change (prune (Dir es)) with (Dir (pruned es)). cbn [get].
    rewrite (find_pruned c es y Hf (get_file_has_file q y d Hy)).
    exact (IH y d Hy).
Qed.

Lemma has_file_prune_bounded (n : nat) :
  forall t : node, (height t <= n)%nat -> has_file (prune t) = has_file t.
Proof.
  induction n as [|n IH]; intros [d|es] H; try reflexivity.
  - cbn [height] in H. lia.
  - apply height_children in H.
    change (prune (Dir es)) with (Dir (pruned es)). cbn [has_file].
    induction H as [|[k y] es Hy _ IHes]; [reflexivity|].
    rewrite pruned_cons, existsb_app, IHes. cbn [existsb snd].
    cbn [snd] in Hy. destruct (has_file y) eqn:E; [|reflexivity].
    cbn [existsb snd]. now rewrite (IH y Hy), E.
Qed.

Lemma has_file_prune (t : node) : has_file (prune t) = has_file t.
Proof. exact (has_file_prune_bounded (height t) t (le_n _)). Qed.

Lemma pruned_entries (c : string) (es : list (string * node)) (z : node) :
  find_entry c (pruned es) = Some z ->
  exists y, z = prune y /\ has_file y = true.
Proof.
  induction es as [|[k x] es IH]; [discriminate|].
  rewrite pruned_cons. destruct (has_file x) eqn:E; cbn [app find_entry].
  - destruct (String.eqb k c); intros H.
    + injection H as <-. now exists x.
    + exact (IH H).
  - exact IH.
Qed.

Lemma prune_no_empty (q : list string) :
  forall (t z : node),
    q <> [] -> get (prune t) q = Some z -> has_file z = true.
Proof.
  induction q as [|c q IH]; intros t z Hn H; [congruence|].
  destruct t as [d|es]; [discriminate H|].
  change (prune (Dir es)) with (Dir (pruned es)) in H. cbn [get] in H.
  destruct (find_entry c (pruned es)) as [z0|] eqn:F; [|discriminate].
  destruct (pruned_entries c es z0 F) as (y & -> & Hy).
  destruct q as [|c1 q'].
  - cbn in H. injection H as <-. now rewrite has_file_prune.
  - apply (IH y z); [discriminate|exact H].
Qed.

(** X18: on a directory that holds a well-formed tree nested no deeper
    than the recursion allows, [delete_empty_dirs] removes the
    directories in which there is no regular file and nothing else: it
    leaves the tree without them, or, when there is no regular file at
    all and [delete_root] is set, removes the directory itself; it
    returns [True] exactly then, that is exactly when the directory is
    gone afterwards. *)
Theorem delete_empty_dirs_prunes
        (depth : nat) (folder : string) (delete_root : bool) (fs : FS)
        (p : list string) (es : list (string * node)) :
  resolve fs folder = Some p -> plain_path folder = true -> p <> [] ->
  get (root fs) p = Some (Dir es) -> wf (Dir es) = true ->
  (height (Dir es) <= depth)%nat ->
  delete_empty_dirs depth folder delete_root fs
  = (if negb (has_file (Dir es)) && delete_root
     then Ok (true, mkFS (del p (root fs)) (cwd fs))
     else Ok (false, mkFS (put p (prune (Dir es)) (root fs)) (cwd fs)))
  /\ (forall b fs',
         delete_empty_dirs depth folder delete_root fs = Ok (b, fs') ->
         os_path_exists folder fs' = negb b).
Proof.
  intros Hr Hpl Hn Hg Hw Hh.
  assert (E := delete_empty_dirs_spec depth folder delete_root fs p es
                                      Hr Hpl Hn Hg Hw Hh).
  split; [exact E|].
  intros b fs' H. rewrite E in H.
  destruct (negb (has_file (Dir es)) && delete_root);
    injection H as <- <-; unfold os_path_exists.
  - now rewrite (lookup_del_self p fs folder Hr Hn).
  - assert (Hdir : is_dir (get (root fs) p) = true) by now rewrite Hg.
    unfold lookup.
    assert (R := resolve_put fs folder p (Dir (pruned es)) Hr Hpl Hn Hdir
                             eq_refl).
    assert (G := get_put_self (Dir (pruned es)) p (root fs) _ Hn Hg).
    unfold pruned in R, G. rewrite R. cbn [root]. now rewrite G.
Qed.

Lemma delete_empty_dirs_prunes_witness :
  delete_empty_dirs
    3 "/tmp" true
    (mkFS (Dir [("tmp", Dir [("a", Dir [("b", Dir [])]);
                             ("c", Dir [("f", File "x"); ("e", Dir [])])]);
                ("out", Dir [])]) [])
  = Ok (false,
        mkFS (Dir [("tmp", Dir [("c", Dir [("f", File "x")])]);
                   ("out", Dir [])]) []).
Proof.
  refine (proj1 (delete_empty_dirs_prunes
                   3 "/tmp" true
                   (mkFS (Dir [("tmp", Dir [("a", Dir [("b", Dir [])]);
                                            ("c", Dir [("f", File "x");
                                                       ("e", Dir [])])]);
                               ("out", Dir [])]) [])
                   ["tmp"]
                   [("a", Dir [("b", Dir [])]);
                    ("c", Dir [("f", File "x"); ("e", Dir [])])]
                   eq_refl eq_refl _ eq_refl eq_refl _)).
  - discriminate.
  - vm_compute. lia.
Defined.

(** X19: [delete_empty_dirs] deletes no regular file: when there is one
    somewhere under the directory, the call returns [False] and the
    file is where it was, with its content. *)
Theorem delete_empty_dirs_keeps_files
        (depth : nat) (folder : string) (delete_root : bool) (fs : FS)
        (p : list string) (es : list (string * node))
        (q : list string) (d : string) :
  resolve fs folder = Some p -> plain_path folder = true -> p <> [] ->
  get (root fs) p = Some (Dir es) -> wf (Dir es) = true ->
  (height (Dir es) <= depth)%nat ->
  get (root fs) (p ++ q) = Some (File d) ->
  exists fs',
    delete_empty_dirs depth folder delete_root fs = Ok (false, fs')
    /\ get (root fs') (p ++ q) = Some (File d).
Proof.
  intros Hr Hpl Hn Hg Hw Hh Hq.
  rewrite get_app, Hg in Hq.
  rewrite (delete_empty_dirs_spec depth folder delete_root fs p es
                                  Hr Hpl Hn Hg Hw Hh).
  rewrite (get_file_has_file q (Dir es) d Hq). cbn [negb andb].
  eexists. split; [reflexivity|]. cbn [root].
  rewrite get_app, (get_put_self _ p (root fs) _ Hn Hg).
  exact (prune_keeps_files q (Dir es) d Hq).
Qed.

Lemma delete_empty_dirs_keeps_files_witness :
  exists fs',
    delete_empty_dirs
      2 "tmp/" false
      (mkFS (Dir [("w", Dir [("tmp", Dir [("e", Dir []);
                                          ("f", File "x")])])]) ["w"])
    = Ok (false, fs')
    /\ get (root fs') (["w"; "tmp"] ++ ["f"]) = Some (File "x").
Proof.
  refine (delete_empty_dirs_keeps_files
            2 "tmp/" false
            (mkFS (Dir [("w", Dir [("tmp", Dir [("e", Dir []);
                                                ("f", File "x")])])]) ["w"])
            ["w"; "tmp"] [("e", Dir []); ("f", File "x")] ["f"] "x"
            eq_refl eq_refl _ eq_refl eq_refl _ eq_refl).
  - discriminate.
  - vm_compute. lia.
Defined.

(** X20: after [delete_empty_dirs] no directory under the one it was
    called on is empty. *)
Theorem delete_empty_dirs_leaves_no_empty
        (depth : nat) (folder : string) (delete_root : bool) (fs : FS)
        (p : list string) (es : list (string * node)) :
  resolve fs folder = Some p -> plain_path folder = true -> p <> [] ->
  get (root fs) p = Some (Dir es) -> wf (Dir es) = true ->
  (height (Dir es) <= depth)%nat ->
  exists b fs',
    delete_empty_dirs depth folder delete_root fs = Ok (b, fs')
    /\ forall q, q <> [] -> get (root fs') (p ++ q) <> Some (Dir []).
Proof.
  intros Hr Hpl Hn Hg Hw Hh.
  rewrite (delete_empty_dirs_spec depth folder delete_root fs p es
                                  Hr Hpl Hn Hg Hw Hh).
  destruct (negb (has_file (Dir es)) && delete_root);
    eexists; eexists; (split; [reflexivity|]); intros q Hq; cbn [root];
    rewrite get_app.
  - now rewrite (get_del_self p Hn).
  - rewrite (get_put_self _ p (root fs) _ Hn Hg). intros H.
    now assert (F := prune_no_empty q (Dir es) _ Hq H).
Qed.

Lemma delete_empty_dirs_leaves_no_empty_witness :
  exists b fs',
    delete_empty_dirs
      3 "/tmp" false
      (mkFS (Dir [("tmp", Dir [("a", Dir [("b", Dir [])])])]) [])
    = Ok (b, fs')
    /\ forall q, q <> [] -> get (root fs') (["tmp"] ++ q) <> Some (Dir []).
Proof.
  refine (delete_empty_dirs_leaves_no_empty
            3 "/tmp" false
            (mkFS (Dir [("tmp", Dir [("a", Dir [("b", Dir [])])])]) [])
            ["tmp"] [("a", Dir [("b", Dir [])])]
            eq_refl eq_refl _ eq_refl eq_refl _).
  - discriminate.
  - vm_compute. lia.
Defined.

(** X21: once the files of the mapping are moved, the merge succeeds
    exactly when no regular file is left in the staging directory, and
    it then removes the staging directory with everything under it;
    when a file is left it raises "Could not delete temporary folder". *)
Theorem merge_needs_empty_staging
        (depth : nat) (temp_folder final_folder : string)
        (filename_mapping : dict) (fs fs1 : FS)
        (p : list string) (es : list (string * node)) :
  move_all temp_folder final_folder filename_mapping fs = Ok fs1 ->
  resolve fs1 temp_folder = Some p -> plain_path temp_folder = true ->
  p <> [] ->
  get (root fs1) p = Some (Dir es) -> wf (Dir es) = true ->
  (height (Dir es) <= depth)%nat ->
  normalize_pak_files depth temp_folder final_folder filename_mapping fs
  = if has_file (Dir es)
    then Raise (RuntimeError ("Could not delete temporary folder "
                              ++ temp_folder)%string)
    else Ok (mkFS (del p (root fs1)) (cwd fs1)).
Proof.
  intros Hm Hr Hpl Hn Hg Hw Hh.
  unfold normalize_pak_files. rewrite Hm. cbn [bind].
  rewrite (delete_empty_dirs_spec depth temp_folder true fs1 p es
                                  Hr Hpl Hn Hg Hw Hh).
  rewrite andb_true_r. now destruct (has_file (Dir es)).
Qed.

Lemma merge_needs_empty_staging_witness :
  normalize_pak_files
    2 "/tmp" "/out" []
    (mkFS (Dir [("tmp", Dir [("stray.txt", File "x")]); ("out", Dir [])]) [])
  = Raise (RuntimeError "Could not delete temporary folder /tmp").
Proof.
  refine (merge_needs_empty_staging
            2 "/tmp" "/out" []
            (mkFS (Dir [("tmp", Dir [("stray.txt", File "x")]);
                        ("out", Dir [])]) [])
            (mkFS (Dir [("tmp", Dir [("stray.txt", File "x")]);
                        ("out", Dir [])]) [])
            ["tmp"] [("stray.txt", File "x")]
            eq_refl eq_refl eq_refl _ eq_refl eq_refl _).
  - discriminate.
  - vm_compute. lia.
Defined.

(** ** Moving one file *)

Lemma walk_start_dir (rt : node) (comps : list string) :
  forall cur q,
    walk rt cur comps = Some q -> is_dir (get rt q) = true ->
    is_dir (get rt cur) = true.
Proof.
  destruct comps as [|c cs]; intros cur q H Hq.
  - cbn in H. now injection H as ->.
  - cbn [walk] in H. now destruct (is_dir (get rt cur)).
Qed.

Lemma mkdirs_existing (name : string) (rt : node) (comps : list string) :
  forall cur q,
    walk rt cur comps = Some q -> is_dir (get rt q) = true ->
    mkdirs name rt cur comps = Ok rt.
Proof.
  induction comps as [|c cs IH]; intros cur q H Hq.
  - cbn in H. injection H as ->. cbn [mkdirs]. now rewrite Hq.
  - cbn [walk] in H. cbn [mkdirs].
    destruct (get rt cur) as [[d|es]|] eqn:G; try discriminate H.
    cbn [is_dir] in H.
    destruct (String.eqb c "" || String.eqb c "."); [exact (IH _ _ H Hq)|].
    destruct (String.eqb c ".."); [exact (IH _ _ H Hq)|].
    assert (D := walk_start_dir rt cs _ _ H Hq).
    destruct (get rt (cur ++ [c])); [|discriminate D].
    exact (IH _ _ H Hq).
Qed.

Lemma os_makedirs_existing (name : string) (fs : FS) (q : list string) :
  resolve fs name = Some q -> is_dir (get (root fs) q) = true ->
  os_makedirs name fs = Ok fs.
Proof.
  unfold resolve, os_makedirs. intros H Hq.
  destruct (is_empty name); [discriminate|].
  rewrite (mkdirs_existing name _ _ _ _ H Hq). destruct fs; reflexivity.
Qed.

Lemma get_alter_apart (f : option node -> option node) (p : list string) :
  forall (rt : node) (q : list string),
    is_prefix p q = false -> is_prefix q p = false ->
    get (alter_at f p rt) q = get rt q.
Proof.
  induction p as [|c p IH]; intros rt q H1 H2; [discriminate|].
  destruct q as [|c' q]; [discriminate|].
  destruct rt as [d|es]; [reflexivity|].
  rewrite alter_at_cons. cbn [get]. rewrite find_alter_entry.
  cbn [is_prefix] in H1, H2. rewrite (String.eqb_sym c' c) in H2.
  destruct (String.eqb c c') eqn:E; [|reflexivity].
  apply String.eqb_eq in E. subst c'. cbn [andb] in H1, H2.
  destruct p as [|c1 p']; [discriminate|].
  destruct (find_entry c es) as [y|]; [|reflexivity].
  cbn [option_map]. exact (IH y q H1 H2).
Qed.

Lemma file_prefix (a : list string) :
  forall (rt : node) (b : list string) (d : string) (z : node),
    get rt a = Some (File d) -> get rt b = Some z ->
    is_prefix a b = true -> is_prefix b a = true.
Proof.
  induction a as [|c a IH]; intros rt b d z Ha Hb H.
  - cbn in Ha. injection Ha as ->. destruct b; [reflexivity|discriminate].
  - destruct b as [|c' b]; [discriminate|].
    cbn [is_prefix] in H |- *. apply andb_prop in H. destruct H as [E H].
    apply String.eqb_eq in E. subst c'. rewrite String.eqb_refl.
    destruct (get_cons_inv _ _ _ _ Ha) as (es & y & -> & Hf & Hy).
    cbn [get] in Hb. rewrite Hf in Hb. exact (IH y b d z Hy Hb H).
Qed.

Lemma is_prefix_antisym (a : list string) :
  forall b, is_prefix a b = true -> is_prefix b a = true -> a = b.
Proof.
  induction a as [|c a IH]; intros [|c' b] H1 H2; try discriminate;
    [reflexivity|].
  cbn [is_prefix] in H1, H2. apply andb_prop in H1. destruct H1 as [E H1].
  apply andb_prop in H2. destruct H2 as [_ H2].
  apply String.eqb_eq in E. subst c'. f_equal. exact (IH b H1 H2).
Qed.

Lemma files_apart (rt : node) (a b : list string) (d d' : string) :
  get rt a = Some (File d) -> get rt b = Some (File d') -> a <> b ->
  is_prefix a b = false /\ is_prefix b a = false.
Proof.
  intros Ha Hb Hn. split.
  - destruct (is_prefix a b) eqn:E; [|reflexivity]. exfalso. apply Hn.
    exact (is_prefix_antisym a b E (file_prefix a rt b d _ Ha Hb E)).
  - destruct (is_prefix b a) eqn:E; [|reflexivity]. exfalso. apply Hn.
    exact (is_prefix_antisym a b (file_prefix b rt a d' _ Hb Ha E) E).
Qed.

(** X22: the last writer wins: when the file of an item is in the
    staging directory and its destination is already a regular file,
    the merge of that item replaces the destination by the staged file
    and takes the staged file away; no error is raised and the old
    content is lost. *)
Theorem move_one_overwrites
        (temp_folder final_folder temp_filename final_filename : string)
        (fs : FS) (ps pd pdir : list string) (d d' : string) :
  resolve fs (os_path_join temp_folder temp_filename) = Some ps ->
  get (root fs) ps = Some (File d) ->
  resolve fs (os_path_join final_folder final_filename) = Some pd ->
  get (root fs) pd = Some (File d') ->
  ps <> pd ->
  resolve fs (os_path_dirname (os_path_join final_folder final_filename))
  = Some pdir ->
  is_dir (get (root fs) pdir) = true ->
  exists fs',
    move_one temp_folder final_folder (temp_filename, final_filename) fs
    = Ok fs'
    /\ fs' = mkFS (put pd (File d) (del ps (root fs))) (cwd fs)
    /\ get (root fs') pd = Some (File d)
    /\ get (root fs') ps = None.
Proof.
  intros Rs Gs Rd Gd Hne Rdir Gdir.
  destruct (files_apart (root fs) ps pd d d' Gs Gd Hne) as [P1 P2].
  assert (Hps : ps <> []) by (intros ->; discriminate P1).
  assert (Hpd : pd <> []) by (intros ->; discriminate P2).
  eexists. split; [|split; [reflexivity|]].
  - unfold move_one, os_path_exists, lookup. rewrite Rs, Gs. cbn [is_some].
    rewrite (os_makedirs_existing _ fs pdir Rdir Gdir). cbn [bind].
    unfold shutil_move, os_path_isdir, lookup. rewrite Rd, Gd.
    cbn [is_dir]. unfold os_rename. rewrite Rs, Rd, Gs, Gd.
    unfold path_eqb. rewrite P1. reflexivity.
  - cbn [root]. split.
    + apply (get_put_self _ pd _ (File d') Hpd).
      unfold del. now rewrite (get_alter_apart _ ps _ pd P1 P2).
    + unfold put. rewrite (get_alter_apart _ pd _ ps P2 P1).
      exact (get_del_self ps Hps (root fs)).
Qed.

Lemma move_one_overwrites_witness :
  exists fs',
    move_one "/tmp" "/out" ("Game/a.txt", "Game/a.txt")
             (mkFS (Dir [("tmp", Dir [("Game", Dir [("a.txt", File "new")])]);
                         ("out", Dir [("Game", Dir [("a.txt", File "old")])])])
                   [])
    = Ok fs'
    /\ fs' = mkFS (put ["out"; "Game"; "a.txt"] (File "new")
                       (del ["tmp"; "Game"; "a.txt"]
                            (Dir [("tmp", Dir [("Game",
                                                Dir [("a.txt", File "new")])]);
                                  ("out", Dir [("Game",
                                                Dir [("a.txt",
                                                      File "old")])])])))
                  []
    /\ get (root fs') ["out"; "Game"; "a.txt"] = Some (File "new")
    /\ get (root fs') ["tmp"; "Game"; "a.txt"] = None.
Proof.
  refine (move_one_overwrites
            "/tmp" "/out" "Game/a.txt" "Game/a.txt"
            (mkFS (Dir [("tmp", Dir [("Game", Dir [("a.txt", File "new")])]);
                        ("out", Dir [("Game", Dir [("a.txt", File "old")])])])
                  [])
            ["tmp"; "Game"; "a.txt"] ["out"; "Game"; "a.txt"]
            ["out"; "Game"] "new" "old"
            eq_refl eq_refl eq_refl eq_refl _ eq_refl eq_refl).
  discriminate.
Defined.

Lemma get_prefix_dir (rt : node) (a b : list string) (z : node) :
  get rt (a ++ b) = Some z -> b <> [] -> is_dir (get rt a) = true.
Proof.
  rewrite get_app. destruct (get rt a) as [n|]; [|discriminate].
  destruct b as [|c b]; [congruence|]. intros H _.
  now destruct (get_cons_inv _ _ _ _ H) as (es & y & -> & _).
Qed.

Lemma dir_removelast (rt : node) (a : list string) :
  is_dir (get rt a) = true -> is_dir (get rt (removelast a)) = true.
Proof.
  intros H. destruct a as [|c a] using rev_ind; [exact H|].
  rewrite removelast_last.
  destruct (get rt (a ++ [c])) as [z|] eqn:G; [|discriminate].
  apply (get_prefix_dir rt a [c] z G). discriminate.
Qed.

Lemma walk_parent (rt : node) (comps : list string) :
  forall cur q,
    walk rt cur comps = Some q ->
    is_dir (get rt (removelast cur)) = true ->
    is_dir (get rt (removelast q)) = true.
Proof.
  induction comps as [|c cs IH]; intros cur q H Hc.
  - cbn in H. now injection H as <-.
  - cbn [walk] in H.
    destruct (is_dir (get rt cur)) eqn:D; [|discriminate].
    destruct (String.eqb c "" || String.eqb c "."); [exact (IH _ _ H Hc)|].
    destruct (String.eqb c "..").
    + apply (IH _ _ H). now apply dir_removelast.
    + apply (IH _ _ H). now rewrite removelast_last.
Qed.

Lemma resolve_parent (fs : FS) (path : string) (q : list string) :
  resolve fs path = Some q ->
  is_dir (get (root fs) (removelast q)) = true.
Proof.
  unfold resolve. destruct (is_empty path); [discriminate|].
  destruct (split_slash_cons path) as (h & t & E). rewrite E.
  intros H. apply (walk_parent _ _ _ _ H).
  apply dir_removelast. cbn [walk] in H.
  now destruct (is_dir (get (root fs) _)).
Qed.

Lemma is_prefix_app (a : list string) :
  forall b, is_prefix a b = true -> exists r, b = a ++ r.
Proof.
  induction a as [|c a IH]; intros b H; [now exists b|].
  destruct b as [|c' b]; [discriminate|].
  cbn [is_prefix] in H. apply andb_prop in H. destruct H as [E H].
  apply String.eqb_eq in E. subst c'.
  destruct (IH b H) as [r ->]. now exists r.
Qed.

Lemma get_put_new (x : node) (p : list string) :
  forall rt : node,
    p <> [] -> is_dir (get rt (removelast p)) = true ->
    get (put p x rt) p = Some x.
Proof.
  induction p as [|c p IH]; intros rt Hn Hd; [congruence|].
  destruct p as [|c1 p'].
  - cbn [removelast get] in Hd. destruct rt as [d|es]; [discriminate|].
    unfold put. rewrite alter_at_cons. cbn [get].
    now rewrite find_alter_entry, String.eqb_refl.
  - change (removelast (c :: c1 :: p'))
      with (c :: removelast (c1 :: p')) in Hd.
    destruct (get rt (c :: removelast (c1 :: p'))) as [z|] eqn:G;
      [|discriminate].
    destruct (get_cons_inv _ _ _ _ G) as (es & y & -> & Hf & Hy).
    unfold put. rewrite alter_at_cons. cbn [get].
    rewrite find_alter_entry, String.eqb_refl, Hf. cbn [option_map].
    apply (IH y); [discriminate|]. now rewrite Hy.
Qed.

Lemma is_dir_del_file (ps : list string) :
  forall (rt : node) (d : string) (q : list string),
    get rt ps = Some (File d) ->
    is_dir (get (del ps rt) q) = is_dir (get rt q).
Proof.
  induction ps as [|c ps IH]; intros rt d q H; [reflexivity|].
  destruct (get_cons_inv _ _ _ _ H) as (es & y & -> & Hf & Hy).
  unfold del. rewrite alter_at_cons.
  destruct q as [|c' q]; [reflexivity|].
  cbn [get]. rewrite find_alter_entry.
  destruct (String.eqb c c') eqn:E; [|reflexivity].
  apply String.eqb_eq in E. subst c'. rewrite Hf.
  destruct ps as [|c1 ps'].
  - cbn [get] in Hy. injection Hy as ->. now destruct q.
  - cbn [option_map]. exact (IH y d q Hy).
Qed.

(** X23: when the file of an item is in the staging directory, the
    directory of its destination exists and the destination itself does
    not, the merge of that item moves the file: afterwards it is at the
    destination, with its content, and no longer in the staging
    directory. *)
Theorem move_one_moves
        (temp_folder final_folder temp_filename final_filename : string)
        (fs : FS) (ps pd pdir : list string) (d : string) :
  resolve fs (os_path_join temp_folder temp_filename) = Some ps ->
  get (root fs) ps = Some (File d) ->
  resolve fs (os_path_join final_folder final_filename) = Some pd ->
  get (root fs) pd = None ->
  resolve fs (os_path_dirname (os_path_join final_folder final_filename))
  = Some pdir ->
  is_dir (get (root fs) pdir) = true ->
  exists fs',
    move_one temp_folder final_folder (temp_filename, final_filename) fs
    = Ok fs'
    /\ fs' = mkFS (put pd (File d) (del ps (root fs))) (cwd fs)
    /\ get (root fs') pd = Some (File d)
    /\ get (root fs') ps = None.
Proof.
  intros Rs Gs Rd Gd Rdir Gdir.
  assert (Par := resolve_parent fs _ pd Rd).
  assert (P1 : is_prefix ps pd = false).
  { destruct (is_prefix ps pd) eqn:E; [|reflexivity]. exfalso.
    destruct (is_prefix_app ps pd E) as [r ->].
    destruct r as [|c r] using rev_ind.
    - rewrite app_nil_r in Gd. congruence.
    - rewrite app_assoc, removelast_last, get_app, Gs in Par.
      now destruct r. }
  assert (P2 : is_prefix pd ps = false).
  { destruct (is_prefix pd ps) eqn:E; [|reflexivity]. exfalso.
    destruct (is_prefix_app pd ps E) as [r ->].
    rewrite get_app, Gd in Gs. discriminate. }
  assert (Hps : ps <> []) by (intros ->; discriminate P1).
  assert (Hpd : pd <> []) by (intros ->; discriminate P2).
  eexists. split; [|split; [reflexivity|]].
  - unfold move_one, os_path_exists, lookup. rewrite Rs, Gs. cbn [is_some].
    rewrite (os_makedirs_existing _ fs pdir Rdir Gdir). cbn [bind].
    unfold shutil_move, os_path_isdir, lookup. rewrite Rd, Gd.
    cbn [is_dir]. unfold os_rename. rewrite Rs, Rd, Gs, Gd.
    unfold path_eqb. rewrite P1. reflexivity.
  - cbn [root]. split.
    + apply (get_put_new _ pd _ Hpd).
      now rewrite (is_dir_del_file ps (root fs) d _ Gs).
    + unfold put. rewrite (get_alter_apart _ pd _ ps P2 P1).
      exact (get_del_self ps Hps (root fs)).
Qed.

Lemma move_one_moves_witness :
  exists fs',
    move_one "/tmp" "/out" ("Game/a.txt", "a.txt")
             (mkFS (Dir [("tmp", Dir [("Game", Dir [("a.txt", File "new")])]);
                         ("out", Dir [])])
                   [])
    = Ok fs'
    /\ fs' = mkFS (put ["out"; "a.txt"] (File "new")
                       (del ["tmp"; "Game"; "a.txt"]
                            (Dir [("tmp", Dir [("Game",
                                                Dir [("a.txt", File "new")])]);
                                  ("out", Dir [])])))
                  []
    /\ get (root fs') ["out"; "a.txt"] = Some (File "new")
    /\ get (root fs') ["tmp"; "Game"; "a.txt"] = None.
Proof.
  exact (move_one_moves
           "/tmp" "/out" "Game/a.txt" "a.txt"
           (mkFS (Dir [("tmp", Dir [("Game", Dir [("a.txt", File "new")])]);
                       ("out", Dir [])])
                 [])
           ["tmp"; "Game"; "a.txt"] ["out"; "a.txt"] ["out"] "new"
           eq_refl eq_refl eq_refl eq_refl eq_refl eq_refl).
Defined.
